(** * krosa: bitboard chess position and its FEN codec (board.py)

    A shallow embedding of [board.py] and the properties of its
    specification.

    Conventions of the embedding.
    - A Python [str] is a Rocq [string]; a character is the code point of
      the same number, so the strings covered are those over the code
      points below 256.  The character classes [isspace] and [isdigit]
      are CPython's, cut down to that range.
    - Members of [IntEnum] and [IntFlag] classes are integers ([Z]); a class
      is the table of its member names and values.
    - An exception is a value of [exn]; a computation that may raise returns
      a [result].
    - The interpreter is CPython 3.11 or later: [to_fen] iterates over
      [IntFlag] values, which earlier versions refuse.
    - Two tables of the interpreter are not embedded in full.  [getattr]
      knows the members of a class and a selection of the attributes it
      inherits; the properties are stated on lookups that find a member, on
      names of one character and on the names of that selection.  [int] and
      [str] have no limit on the number of digits. *)

From Stdlib Require Import ZArith String Ascii List Lia Bool Permutation.
From Stdlib Require Import DecimalString DecimalPos.
From stdpp Require Import base list.
Import ListNotations.

#[local] Open Scope string_scope.
#[local] Open Scope Z_scope.

(** ** Exceptions and the error monad *)

Inductive exn : Type :=
| InvalidFEN (fen : string)      (* ValueError(f'Invalid FEN: {fen}') *)
| ValueError_enum (v : Z)        (* Square(v) with v not a member value *)
| ValueError_int (s : string)    (* int(s) on an invalid literal *)
| AttributeError (name : string) (* failed attribute lookup *)
| ValueError_shift               (* 1 << n with n negative *)
| TypeError
| IndexError.

Inductive result (A : Type) : Type :=
| Ok (a : A)
| Raise (e : exn).
Arguments Ok {A} a.
Arguments Raise {A} e.

#[global] Instance result_bind : MBind result := fun A B k m =>
  match m with
  | Ok a => k a
  | Raise e => Raise e
  end.

#[global] Instance result_ret : MRet result := fun A a => Ok a.

Definition is_ok {A} (m : result A) : bool :=
  match m with Ok _ => true | Raise _ => false end.

Definition is_invalid_fen (e : exn) : bool :=
  match e with InvalidFEN _ => true | _ => false end.

(** ** Python built-ins on strings *)

Definition code (c : ascii) : Z := Z.of_N (N_of_ascii c).

(** [str.isspace] on one character: TAB..CR, FS..US, SPACE, NEL, NBSP. *)
Definition isspace (c : ascii) : bool :=
  let n := code c in
  ((9 <=? n) && (n <=? 13)) || ((28 <=? n) && (n <=? 32))
  || (n =? 133) || (n =? 160).

(** [str.isdecimal] on one character: the digits 0 to 9, the only
    characters below 256 that [int] reads as digits. *)
Definition isdecimal (c : ascii) : bool :=
  let n := code c in (48 <=? n) && (n <=? 57).

(** [str.isdigit] on one character: the decimal digits and the superscript
    digits two, three and one (code points 178, 179 and 185). *)
Definition isdigit (c : ascii) : bool :=
  let n := code c in
  isdecimal c || (n =? 178) || (n =? 179) || (n =? 185).

Definition is_empty (s : string) : bool :=
  match s with "" => true | _ => false end.

Definition cons_word (w : string) (ws : list string) : list string :=
  if is_empty w then ws else w :: ws.

(** [split_scan s] reads [s] from its end: the word that is open at the
    front of [s] and the words closed behind it. *)
Fixpoint split_scan (s : string) : string * list string :=
  match s with
  | "" => ("", [])
  | String c s' =>
      let (w, ws) := split_scan s' in
      if isspace c then ("", cons_word w ws) else (String c w, ws)
  end.

(** [str.split()]: the maximal runs of characters that are not white space. *)
Definition split (s : string) : list string :=
  let (w, ws) := split_scan s in cons_word w ws.

(** [str.split(sep)] for a one-character separator. *)
Fixpoint split_on (sep : ascii) (s : string) : list string :=
  match s with
  | "" => [""]
  | String c s' =>
      if Ascii.eqb c sep then "" :: split_on sep s'
      else match split_on sep s' with
           | w :: ws => String c w :: ws
           | [] => [String c ""]
           end
  end.

(** [sep.join(l)]. *)
Fixpoint join (sep : string) (l : list string) : string :=
  match l with
  | [] => ""
  | [w] => w
  | w :: l' => w ++ sep ++ join sep l'
  end.

Fixpoint starts_with (p s : string) : bool :=
  match p, s with
  | "", _ => true
  | String a p', String b s' => Ascii.eqb a b && starts_with p' s'
  | String _ _, "" => false
  end.

(** [replace_from skip old new s]: [s.replace(old, new)] for a non-empty
    [old], with the first [skip] characters of [s] already consumed by a
    match.  Occurrences are found left to right and do not overlap. *)
Fixpoint replace_from (skip : nat) (old new s : string) : string :=
  match s with
  | "" => ""
  | String c s' =>
      match skip with
      | S k => replace_from k old new s'
      | O =>
          if starts_with old s
          then new ++ replace_from (Nat.pred (String.length old)) old new s'
          else String c (replace_from O old new s')
      end
  end.

Definition replace (old new s : string) : string := replace_from O old new s.

(** [' ' * n]. *)
Fixpoint spaces (n : nat) : string :=
  match n with
  | O => ""
  | S k => String " " (spaces k)
  end.

(** [str(z)] for an integer: its decimal digits, after a minus sign when it
    is negative.  The interpreter's limit on the number of digits (4300
    unless it is configured otherwise) is not modelled: an integer read by
    [int] under that limit is within it. *)
Definition str (z : Z) : string := NilZero.string_of_int (Z.to_int z).

(** The digits of an integer literal after its sign: decimal digits, single
    underscores allowed between two digits. *)
Fixpoint int_digits (acc : Z) (after_digit : bool) (s : string) : option Z :=
  match s with
  | "" => if after_digit then Some acc else None
  | String c s' =>
      if isdecimal c then int_digits (10 * acc + (code c - 48)) true s'
      else if Ascii.eqb c "_" then
             if after_digit then int_digits acc false s' else None
           else None
  end.

(** [int(s)] in base 10, for a string without white space (a field of
    [split] has none, so the stripping that [int] does first is the
    identity).  The interpreter's limit on the number of digits (4300
    unless it is configured otherwise, beyond which it raises a
    [ValueError]) is not modelled: this function is [int] with the limit
    switched off. *)
Definition int (s : string) : result Z :=
  let parsed :=
    match s with
    | String "-" s' => option_map Z.opp (int_digits 0 false s')
    | String "+" s' => int_digits 0 false s'
    | _ => int_digits 0 false s
    end in
  match parsed with
  | Some z => Ok z
  | None => Raise (ValueError_int s)
  end.

(** ** Enumeration classes

    An enumeration class is the table of its members, in the order of their
    declaration.  A member of an [IntEnum] or [IntFlag] class is the integer
    of its value. *)

Record EnumClass : Type := { members : list (string * Z) }.

(** [range(n)]. *)
Definition range (n : nat) : list Z := map Z.of_nat (seq 0 n).

(** [class C(IntEnum): n1, n2, ... = values]. *)
Definition enum (names : list string) (values : list Z) : EnumClass :=
  {| members := combine names values |}.

Definition square_names : list string :=
  [ "a8"; "b8"; "c8"; "d8"; "e8"; "f8"; "g8"; "h8";
    "a7"; "b7"; "c7"; "d7"; "e7"; "f7"; "g7"; "h7";
    "a6"; "b6"; "c6"; "d6"; "e6"; "f6"; "g6"; "h6";
    "a5"; "b5"; "c5"; "d5"; "e5"; "f5"; "g5"; "h5";
    "a4"; "b4"; "c4"; "d4"; "e4"; "f4"; "g4"; "h4";
    "a3"; "b3"; "c3"; "d3"; "e3"; "f3"; "g3"; "h3";
    "a2"; "b2"; "c2"; "d2"; "e2"; "f2"; "g2"; "h2";
    "a1"; "b1"; "c1"; "d1"; "e1"; "f1"; "g1"; "h1" ].

Definition Square : EnumClass := enum square_names (range 64).
Definition Bitboard : EnumClass :=
  enum square_names (map (Z.shiftl 1) (range 64)).
Definition File : EnumClass :=
  enum ["a"; "b"; "c"; "d"; "e"; "f"; "g"; "h"] (range 8).
Definition Rank : EnumClass :=
  enum ["_8"; "_7"; "_6"; "_5"; "_4"; "_3"; "_2"; "_1"] (range 8).
Definition PieceType : EnumClass :=
  enum ["p"; "n"; "b"; "r"; "q"; "k"] (range 6).
Definition Color : EnumClass := enum ["w"; "b"] [0; 1].
Definition Piece : EnumClass :=
  enum ["P"; "N"; "B"; "R"; "Q"; "K"; "p"; "n"; "b"; "r"; "q"; "k"] (range 12).
Definition CastlingSide : EnumClass := enum ["K"; "Q"] [0; 1].
Definition Castling : EnumClass := enum ["K"; "Q"; "k"; "q"] (range 4).
Definition CastlingAbility : EnumClass :=
  enum ["K"; "Q"; "k"; "q"] [1; 2; 4; 8].
Definition MoveFlag : EnumClass :=
  enum ["en_passant"; "promotion"; "special_1"; "special_0"] [8; 4; 2; 1].

(** The values of the members, as iterating over the class yields them. *)
Definition values (cls : EnumClass) : list Z := map snd (members cls).

Definition is_member (cls : EnumClass) (v : Z) : bool :=
  existsb (Z.eqb v) (values cls).

Fixpoint assoc (name : string) (l : list (string * Z)) : option Z :=
  match l with
  | [] => None
  | (n, v) :: l' => if String.eqb name n then Some v else assoc name l'
  end.

Fixpoint name_in (v : Z) (l : list (string * Z)) : option string :=
  match l with
  | [] => None
  | (n, w) :: l' => if v =? w then Some n else name_in v l'
  end.

(** [C.n] for a member name [n] written in the source. *)
Definition member (cls : EnumClass) (name : string) : Z :=
  match assoc name (members cls) with
  | Some v => v
  | None => 0
  end.

(** [C(v)] for an [IntEnum] class: the member of value [v], or
    [ValueError].  (An [IntFlag] class keeps every integer: [C(v)] is [v].) *)
Definition call (cls : EnumClass) (v : Z) : result Z :=
  if is_member cls v then Ok v else Raise (ValueError_enum v).

(** [x.name] where [x] is an integer that may be a member of [cls]; a plain
    integer has no attribute [name]. *)
Definition name (cls : EnumClass) (v : Z) : result string :=
  match name_in v (members cls) with
  | Some n => Ok n
  | None => Raise (AttributeError "name")
  end.

(** What an attribute lookup on a class can return: one of its members, or
    another object that the class has under that name. *)
Inductive object : Type :=
| Member (v : Z)
| ClassAttr (name : string).

(** Names that every [IntEnum] and [IntFlag] class resolves to an object
    that is not a member: attributes it inherits from [int], from [Enum] and
    from its metaclass ([square.bit_length()] in [_str_board] goes through
    one of them).  The list is a selection, not the whole table of the
    interpreter: a class has further attributes (its [__doc__], the
    [_boundary_] of a flag class, ...), all with names of two characters or
    more, and some of them are false in a boolean context or have a [name]
    of their own.  Each object of this list is true in a boolean context,
    has no attribute [name] and cannot be iterated over. *)
Definition inherited_attrs : list string :=
  [ "bit_length"; "to_bytes"; "from_bytes"; "conjugate";
    "real"; "imag"; "numerator"; "denominator"; "mro"; "__class__" ].

Definition is_inherited (name : string) : bool :=
  existsb (String.eqb name) inherited_attrs.

(** [getattr(cls, name)]: exact on the names of the members, on the names
    of [inherited_attrs] and on every name of one character.  On another
    name the lookup of the interpreter may find an attribute where this one
    raises; the properties below are stated on lookups that find a member,
    on names of one character and on the names of the list. *)
Definition getattr (cls : EnumClass) (name : string) : result object :=
  match assoc name (members cls) with
  | Some v => Ok (Member v)
  | None =>
      if is_inherited name then Ok (ClassAttr name)
      else Raise (AttributeError name)
  end.

(** [m in v] for two values of one [IntFlag] class. *)
Definition flag_in (m v : Z) : bool := Z.land m v =? m.

(** ** Addressing, pieces and castling *)

Definition square_from (file rank : Z) : result Z :=
  call Square (Z.lor (Z.shiftl rank 3) file).

Definition file_of (square : Z) : result Z := call File (Z.land square 7).

Definition rank_of (square : Z) : result Z := call Rank (Z.shiftr square 3).

Definition piece_from (piece_type color : Z) : result Z :=
  call Piece (color * 6 + piece_type).

Definition piece_type_of (piece : Z) : result Z :=
  call PieceType (piece mod 6).

Definition color_of (piece : Z) : result Z := call Color (piece / 6).

Definition bitboard_from (square : Z) : result Z :=
  if square <? 0 then Raise ValueError_shift else Ok (Z.shiftl 1 square).

Definition castling_from (castling_side color : Z) : result Z :=
  call Castling (Z.lor (Z.shiftl color 1) castling_side).

Definition castling_ability_from (castling : Z) : result Z :=
  if castling <? 0 then Raise ValueError_shift else Ok (Z.shiftl 1 castling).

(** ** Moves *)

Record Move : Type := {
  from_square : Z;
  to_square : Z;
  flag : Z
}.

(** [Move.__str__]. *)
Definition Move_str (self : Move) : result string :=
  f ← name Square (from_square self);
  t ← name Square (to_square self);
  let uci := f ++ t in
  if flag_in (member MoveFlag "promotion") (flag self) then
    let special_0 := flag_in (member MoveFlag "special_0") (flag self) in
    Ok (uci ++ (if flag_in (member MoveFlag "special_1") (flag self)
                then (if special_0 then "q" else "r")
                else (if special_0 then "b" else "n")))
  else Ok uci.

(** ** Loops and indexed lists *)

(** A [for] loop whose body may raise: [f] is the body, [a] the state. *)
Fixpoint foldM {A B} (f : A -> B -> result A) (a : A) (l : list B)
  : result A :=
  match l with
  | [] => Ok a
  | b :: l' => a' ← f a b; foldM f a' l'
  end.

(** [reduce(f, map(g, l))]: [map] is lazy, so [g] runs on an element just
    before [f] consumes it; [reduce] of an empty sequence raises. *)
Definition reduce_map {A B} (f : B -> B -> result B) (g : A -> result B)
    (l : list A) : result B :=
  match l with
  | [] => Raise TypeError
  | a :: l' => first ← g a; foldM (fun acc a' => b ← g a'; f acc b) first l'
  end.

(** [l[i]] for an index that is not negative. *)
Definition get_at {A} (l : list A) (i : Z) : result A :=
  match l !! Z.to_nat i with
  | Some x => Ok x
  | None => Raise IndexError
  end.

(** [l[i] = x] for an index that is not negative. *)
Definition set_at {A} (l : list A) (i : Z) (x : A) : result (list A) :=
  match l !! Z.to_nat i with
  | Some _ => Ok (<[Z.to_nat i := x]> l)
  | None => Raise IndexError
  end.

(** [s[i:j]] for [0 <= i <= j]. *)
Definition slice (s : string) (i j : Z) : string :=
  substring (Z.to_nat i) (Z.to_nat (j - i)) s.

(** ** The board *)

(** The two lists of bitboards of a [Board]: the attributes that [place] and
    [piece_bitboard] read and write, and the only ones set while [__init__]
    reads the piece placement. *)
Record Bitboards : Type := {
  piece_type_bitboards : list Z;
  color_bitboards : list Z
}.

Record Board : Type := {
  bitboards :> Bitboards;
  side_to_move : object;
  castling_ability : object;
  en_passant_target_square : object;
  halfmove_clock : Z;
  fullmove_counter : Z
}.

(** [Board.place].  When it raises, the state it leaves behind is not
    modelled. *)
Definition place (self : Bitboards) (piece square : Z) : result Bitboards :=
  square_bitboard ← bitboard_from square;
  pt ← piece_type_of piece;
  old_pt ← get_at (piece_type_bitboards self) pt;
  ptb ← set_at (piece_type_bitboards self) pt (Z.lor old_pt square_bitboard);
  c ← color_of piece;
  old_c ← get_at (color_bitboards self) c;
  cb ← set_at (color_bitboards self) c (Z.lor old_c square_bitboard);
  Ok {| piece_type_bitboards := ptb; color_bitboards := cb |}.

(** [Board.piece_bitboard]. *)
Definition piece_bitboard (self : Bitboards) (piece : Z) : result Z :=
  c ← color_of piece;
  cb ← get_at (color_bitboards self) c;
  pt ← piece_type_of piece;
  ptb ← get_at (piece_type_bitboards self) pt;
  Ok (Z.land cb ptb).

(** A bitboard contains a square when the bit of the square is set. *)
Definition contains (bitboard square : Z) : bool := Z.testbit bitboard square.

(** *** Parsing: [Board.__init__] *)

Definition initial_fen : string :=
  "rnbqkbnr/pppppppp/8/8/8/8/PPPPPPPP/RNBQKBNR w KQkq - 0 1".

(** [[Bitboard(0)] * 6] and [[Bitboard(0)] * 2]. *)
Definition empty_bitboards : Bitboards :=
  {| piece_type_bitboards := repeat 0 6; color_bitboards := repeat 0 2 |}.

(** The body of the loop over the characters of a rank string; the state is
    the file cursor and the bitboards. *)
Definition place_char (rank : Z) (st : Z * Bitboards) (ch : ascii)
  : result (Z * Bitboards) :=
  let (file, self) := st in
  if isdigit ch then
    n ← int (String ch "");
    Ok (file + n, self)
  else
    o ← getattr Piece (String ch "");
    square ← square_from file rank;
    match o with
    | Member piece => self' ← place self piece square; Ok (file + 1, self')
    | ClassAttr _ => Raise TypeError
    end.

(** The body of the loop over the pairs of a rank and a rank string. *)
Definition place_rank (self : Bitboards) (p : Z * string) : result Bitboards :=
  let (rank, rank_placement) := p in
  st ← foldM (place_char rank) (0, self) (list_ascii_of_string rank_placement);
  Ok (snd st).

(** The loop over [zip(Rank, piece_placement.split('/'))]. *)
Definition place_all (piece_placement : string) : result Bitboards :=
  foldM place_rank empty_bitboards
        (combine (values Rank) (split_on "/" piece_placement)).

(** [or_] on two objects: defined on the members of a flag class. *)
Definition or_ (a b : object) : result object :=
  match a, b with
  | Member x, Member y => Ok (Member (Z.lor x y))
  | _, _ => Raise TypeError
  end.

Definition parse_castling (castling_ability : string) : result object :=
  if String.eqb castling_ability "-" then Ok (Member 0)
  else reduce_map or_ (fun ch => getattr CastlingAbility (String ch ""))
                  (list_ascii_of_string castling_ability).

Definition parse_en_passant (en_passant_target_square : string)
  : result object :=
  if String.eqb en_passant_target_square "-" then Ok (Member 0)
  else getattr Bitboard en_passant_target_square.

(** [__init__] after the six fields have been unpacked. *)
Definition init_fields (piece_placement side_to_move castling_ability
    en_passant_target_square halfmove_clock fullmove_counter : string)
  : result Board :=
  bbs ← place_all piece_placement;
  stm ← getattr Color side_to_move;
  ca ← parse_castling castling_ability;
  ep ← parse_en_passant en_passant_target_square;
  hc ← int halfmove_clock;
  fc ← int fullmove_counter;
  Ok {| bitboards := bbs; side_to_move := stm; castling_ability := ca;
        en_passant_target_square := ep; halfmove_clock := hc;
        fullmove_counter := fc |}.

(** [Board.__init__]: [Board(fen)]. *)
Definition Board_init (fen : string) : result Board :=
  match split fen with
  | [piece_placement; side_to_move; castling_ability;
     en_passant_target_square; halfmove_clock; fullmove_counter] =>
      init_fields piece_placement side_to_move castling_ability
                  en_passant_target_square halfmove_clock fullmove_counter
  | _ => Raise (InvalidFEN fen)
  end.

(** *** Serializing: [Board.to_fen] *)

(** Iterating over a value of a flag class: its members whose bit is set, in
    the order of their declaration (which is the order of their values in
    [Bitboard] and in [CastlingAbility]). *)
Definition flag_iter (cls : EnumClass) (v : Z) : list Z :=
  List.filter (fun m => flag_in m v) (values cls).

(** [x.name] for an object [x] looked up on [cls]; a [ClassAttr] is one of
    the objects of [inherited_attrs], which have no [name]. *)
Definition object_name (cls : EnumClass) (o : object) : result string :=
  match o with
  | Member v => name cls v
  | ClassAttr _ => Raise (AttributeError "name")
  end.

(** [x.name] for a value [v] of a flag class made of bits of its members:
    the name of the member, or the names of its members joined by a bar; a
    [ClassAttr] is one of the objects of [inherited_attrs]. *)
Definition flag_name (cls : EnumClass) (o : object) : result string :=
  match o with
  | Member v =>
      names ← foldM (fun acc m => n ← name cls m; Ok (acc ++ [n])%list) []
                    (flag_iter cls v);
      Ok (join "|" names)
  | ClassAttr _ => Raise (AttributeError "name")
  end.

(** The truth value of an object; the objects of [inherited_attrs] are
    true. *)
Definition truthy (o : object) : bool :=
  match o with
  | Member v => negb (v =? 0)
  | ClassAttr _ => true
  end.

(** [Board._str_board]; [square.bit_length() - 1] is [Z.log2 square]. *)
Definition _str_board (self : Bitboards) : result string :=
  board ← foldM (fun board piece =>
                   bb ← piece_bitboard self piece;
                   foldM (fun board square =>
                            n ← name Piece piece;
                            set_at board (Z.log2 square) n)
                         board (flag_iter Bitboard bb))
                (repeat " " 64) (values Piece);
  Ok (join "" board).

(** [range(8, 0, -1)]. *)
Definition range_8_down : list nat := [8; 7; 6; 5; 4; 3; 2; 1]%nat.

Definition _convert_spaces_to_digit (s : string) : string :=
  fold_left (fun s n => replace (spaces n) (str (Z.of_nat n)) s) range_8_down s.

Definition castling_text (o : object) : result string :=
  if truthy o then
    match o with
    | Member v =>
        reduce_map (fun a b => Ok (a ++ b)) (name CastlingAbility)
                   (flag_iter CastlingAbility v)
    | ClassAttr _ => Raise TypeError
    end
  else Ok "-".

(** [Board.to_fen]. *)
Definition to_fen (self : Board) : result string :=
  board ← _str_board self;
  let placement :=
    join "/" (map (fun rank =>
                     _convert_spaces_to_digit
                       (slice board (Z.shiftl rank 3) (Z.shiftl (rank + 1) 3)))
                  (values Rank)) in
  stm ← object_name Color (side_to_move self);
  ca ← castling_text (castling_ability self);
  ep ← (if truthy (en_passant_target_square self)
        then flag_name Bitboard (en_passant_target_square self)
        else Ok "-");
  Ok (join " " [placement; stm; ca; ep;
                str (halfmove_clock self); str (fullmove_counter self)]).

(** ** The specification's wording

    Definitions that follow the words of the specification, to compare with
    the functions of the source. *)

(** The addressing functions as the specification words them. *)
Definition squareFrom (file rank : Z) : Z := rank * 8 + file.
Definition fileOf (square : Z) : Z := square mod 8.
Definition rankOf (square : Z) : Z := square / 8.

(** The promotion letter of the decoding table, from the bits special1 and
    special0. *)
Definition promotion_letter (special1 special0 : bool) : string :=
  match special1, special0 with
  | false, false => "n"
  | false, true => "b"
  | true, false => "r"
  | true, true => "q"
  end.

(** The bits of a move flag: enPassant=8, promotion=4, special1=2,
    special0=1. *)
Definition promotion_bit (flag : Z) : bool := Z.testbit flag 2.
Definition special1_bit (flag : Z) : bool := Z.testbit flag 1.
Definition special0_bit (flag : Z) : bool := Z.testbit flag 0.

(** The rendering of a move from the names of its squares. *)
Definition render (from_name to_name : string) (flag : Z) : string :=
  from_name ++ to_name ++
  (if promotion_bit flag
   then promotion_letter (special1_bit flag) (special0_bit flag)
   else "").

(** The shape of a board that [__init__] builds: six bitboards of piece
    types and two of colours. *)
Definition well_formed (self : Bitboards) : Prop :=
  length (piece_type_bitboards self) = 6%nat /\
  length (color_bitboards self) = 2%nat.

(** The castling field of a serialized board: the names of the flags that
    are set, in the order K, Q, k, q, or a dash when none is. *)
Definition canonical_castling (v : Z) : string :=
  let flags :=
    (if Z.testbit v 0 then "K" else "") ++ (if Z.testbit v 1 then "Q" else "")
    ++ (if Z.testbit v 2 then "k" else "") ++ (if Z.testbit v 3 then "q" else "")
  in if is_empty flags then "-" else flags.

(** The flag of a castling letter, and its bit [k]. *)
Definition letter_flag (c : ascii) : option Z :=
  assoc (String c "") (members CastlingAbility).

Definition letter_bit (k : Z) (c : ascii) : bool :=
  match letter_flag c with
  | Some w => Z.testbit w k
  | None => false
  end.

(** A non-empty sequence of castling letters denotes the value whose bits
    are those of the flags of its letters. *)
Definition letters_denote (cs : list ascii) (v : Z) : Prop :=
  cs <> [] /\
  (forall c, In c cs -> letter_flag c <> None) /\
  (forall k, Z.testbit v k = existsb (letter_bit k) cs).

(** A computation that raises no [InvalidFEN]. *)
Definition no_invalid_fen {A} (m : result A) : Prop :=
  forall e, m = Raise e -> is_invalid_fen e = false.

(** A string of white space, and a word: a non-empty string without white
    space. *)
Fixpoint blank (s : string) : bool :=
  match s with
  | "" => true
  | String c s' => isspace c && blank s'
  end.

Fixpoint spaceless (s : string) : bool :=
  match s with
  | "" => true
  | String c s' => negb (isspace c) && spaceless s'
  end.

Definition word (s : string) : bool := negb (is_empty s) && spaceless s.

Definition separator (s : string) : bool := negb (is_empty s) && blank s.

(** The piece letters of a rank string with the file cursor at which each is
    read: a digit moves the cursor forward by its value, a letter by one. *)
Fixpoint letters_from (file : Z) (cs : list ascii) : list (Z * ascii) :=
  match cs with
  | [] => []
  | ch :: cs' =>
      if isdigit ch then letters_from (file + (code ch - 48)) cs'
      else (file, ch) :: letters_from (file + 1) cs'
  end.

Definition letters_of (rank_placement : string) : list (Z * ascii) :=
  letters_from 0 (list_ascii_of_string rank_placement).

(** A piece is on a square of a board. *)
Definition occupies (self : Bitboards) (piece square : Z) : Prop :=
  exists bb, piece_bitboard self piece = Ok bb /\ contains bb square = true.

(** ** Boolean checks used in proofs by evaluation *)

Definition result_eqb (r : result Z) (v : Z) : bool :=
  match r with Ok w => w =? v | Raise _ => false end.

Definition result_string_eqb (r : result string) (s : string) : bool :=
  match r with Ok t => String.eqb t s | Raise _ => false end.

(** ** Further definitions for the properties of the code *)

(** Two results that are the same value. *)
Definition result_object_eqb (r : result object) (v : Z) : bool :=
  match r with Ok (Member w) => w =? v | _ => false end.

(** [name] and [getattr] are inverse on the members of a class. *)
Definition names_roundtrip (cls : EnumClass) : bool :=
  forallb (fun p : string * Z =>
             result_string_eqb (name cls (snd p)) (fst p)
             && result_object_eqb (getattr cls (fst p)) (snd p))
          (members cls).

(** The upper-case letter of a lower-case one. *)
Definition upper (c : ascii) : ascii :=
  if (97 <=? code c) && (code c <=? 122)
  then ascii_of_N (Z.to_N (code c - 32)) else c.

Fixpoint upper_string (s : string) : string :=
  match s with
  | "" => ""
  | String c s' => String (upper c) (upper_string s')
  end.

(** Two computations that return the same string. *)
Definition results_agree (r1 r2 : result string) : bool :=
  match r1, r2 with
  | Ok a, Ok b => String.eqb a b
  | _, _ => false
  end.

(** [square_from] on a file and a rank gives a square of the expected file
    and rank. *)
Definition wraps_to (file rank : Z) : bool :=
  match square_from file rank with
  | Ok sq => result_eqb (file_of sq) (file mod 8)
             && result_eqb (rank_of sq) (Z.lor rank (file / 8))
  | Raise _ => false
  end.

(** The squares of a list of bitboards taken together. *)
Definition union (l : list Z) : Z := fold_right Z.lor 0 l.

(** What [__init__] keeps true of the bitboards: there are six of piece types
    and two of colours, the squares that have a colour are those that have a
    piece type, and they are squares of the board. *)
Definition consistent (self : Bitboards) : Prop :=
  well_formed self /\
  union (color_bitboards self) = union (piece_type_bitboards self) /\
  0 <= union (color_bitboards self) < 2 ^ 64.

(** The en-passant field that [to_fen] writes. *)
Definition en_passant_text (o : object) : result string :=
  if truthy o then flag_name Bitboard o else Ok "-".

(** The en-passant field [n] round trips and stands for one square. *)
Definition en_passant_roundtrip (n : string) : bool :=
  match parse_en_passant n with
  | Ok (Member v) =>
      result_string_eqb (en_passant_text (Member v)) n
      && existsb (fun s => (v =? Z.shiftl 1 s)
                           && result_string_eqb (name Square s) n)
                 (values Square)
  | _ => false
  end.

(** The castling field written for an ability is read back as it. *)
Definition castling_text_roundtrip (v : Z) : bool :=
  match castling_text (Member v) with
  | Ok s => word s && result_object_eqb (parse_castling s) v
  | Raise _ => false
  end.

(** The letter of a piece, and whether the bitboard of a piece contains a
    square. *)
Definition piece_letter (piece : Z) : string :=
  match name Piece piece with
  | Ok n => n
  | Raise _ => ""
  end.

Definition on_square (self : Bitboards) (piece square : Z) : bool :=
  match piece_bitboard self piece with
  | Ok bb => contains bb square
  | Raise _ => false
  end.

(** The cell of a square after the pieces [ps] have been written over
    [init], one after the other. *)
Definition cell (self : Bitboards) (square : Z) (ps : list Z) (init : string)
  : string :=
  fold_left (fun acc p => if on_square self p square then piece_letter p
                          else acc) ps init.

(** A rank string read as cells: a decimal digit stands for that many blank
    cells, another character for itself. *)
Fixpoint expand (s : string) : string :=
  match s with
  | "" => ""
  | String c s' =>
      (if isdecimal c then spaces (Z.to_nat (code c - 48)) else String c "")
      ++ expand s'
  end.

(** The piece-placement field that [to_fen] writes from the board string. *)
Definition placement_of (board : string) : string :=
  join "/" (map (fun rank =>
                   _convert_spaces_to_digit
                     (slice board (Z.shiftl rank 3) (Z.shiftl (rank + 1) 3)))
                (values Rank)).

(** The en-passant field written for a bitboard is one field, read back as
    the bitboard. *)
Definition en_passant_text_roundtrip (e : Z) : bool :=
  match en_passant_text (Member e) with
  | Ok s => word s && result_object_eqb (parse_en_passant s) e
  | Raise _ => false
  end.

(** The piece that a character names, if any. *)
Definition piece_at (ch : ascii) : option Z :=
  assoc (String ch "") (members Piece).

(** The loop over a rank string on cells: a blank cell moves the file cursor
    by one, another cell is placed as [place_char] places a letter. *)
Definition place_cell (rank : Z) (st : Z * Bitboards) (ch : ascii)
  : result (Z * Bitboards) :=
  if Ascii.eqb ch " " then Ok (fst st + 1, snd st) else place_char rank st ch.

(** A character that a rank string written by [to_fen] can have. *)
Definition rank_char (c : ascii) : bool :=
  isdecimal c || (negb (isdigit c) && negb (Ascii.eqb c " ")).

(** The bits that the cells [cs], read up to the square [k], put in the
    bitboard of a colour and in the bitboard of a piece type. *)
Definition cell_piece (cs : list ascii) (sq : Z) : option Z :=
  match cs !! Z.to_nat sq with
  | Some ch => piece_at ch
  | None => None
  end.

Definition colour_bit (cs : list ascii) (k c sq : Z) : bool :=
  (sq <? k) && match cell_piece cs sq with
               | Some p => p / 6 =? c
               | None => false
               end.

Definition type_bit (cs : list ascii) (k t sq : Z) : bool :=
  (sq <? k) && match cell_piece cs sq with
               | Some p => p mod 6 =? t
               | None => false
               end.

(** The bitboards hold the pieces of the cells before the square [k], and
    nothing else. *)
Definition matches (cs : list ascii) (k : Z) (self : Bitboards) : Prop :=
  well_formed self /\
  (forall c bb sq, 0 <= c -> get_at (color_bitboards self) c = Ok bb ->
                   0 <= sq -> Z.testbit bb sq = colour_bit cs k c sq) /\
  (forall t bb sq, 0 <= t -> get_at (piece_type_bitboards self) t = Ok bb ->
                   0 <= sq -> Z.testbit bb sq = type_bit cs k t sq).

(** A cell of a board string: a space or the letter of a piece. *)
Definition board_char (ch : ascii) : bool :=
  Ascii.eqb ch " " || match piece_at ch with Some _ => true | None => false end.

(** The rank strings that [to_fen] writes from the board string. *)
Definition rank_string (board : string) (rank : Z) : string :=
  _convert_spaces_to_digit
    (slice board (Z.shiftl rank 3) (Z.shiftl (rank + 1) 3)).

(** A character of a piece-placement field that [to_fen] writes. *)
Definition placement_char (c : ascii) : bool :=
  rank_char c && negb (isspace c).

(** The letter of a piece is one character, which names the piece. *)
Definition letter_names_piece (p : Z) : bool :=
  match piece_letter p with
  | String ch "" => match piece_at ch with
                    | Some q => q =? p
                    | None => false
                    end
  | _ => false
  end.

(** * Properties *)

(** ** The built-ins on examples *)

Example split_initial :
  split "rnbqkbnr/pppppppp/8/8/8/8/PPPPPPPP/RNBQKBNR w KQkq - 0 1"
  = ["rnbqkbnr/pppppppp/8/8/8/8/PPPPPPPP/RNBQKBNR"; "w"; "KQkq"; "-"; "0"; "1"].
Proof. reflexivity. Qed.

Example split_on_slash : split_on "/" "8/pp//K" = ["8"; "pp"; ""; "K"].
Proof. reflexivity. Qed.

Example replace_run : replace "  " "2" "     p" = "22 p".
Proof. reflexivity. Qed.

Example int_examples :
  (int "12", int "-3", int "1_0", int "x", int "", int "1__0")
  = (Ok 12, Ok (-3), Ok 10, Raise (ValueError_int "x"),
     Raise (ValueError_int ""), Raise (ValueError_int "1__0")).
Proof. reflexivity. Qed.

Example str_examples : (str 0, str 17, str (-4)) = ("0", "17", "-4").
Proof. reflexivity. Qed.

(** ** Ranges and enumeration classes *)

Lemma In_range (n : nat) (v : Z) : In v (range n) <-> 0 <= v < Z.of_nat n.
Proof.
  unfold range. rewrite in_map_iff. split.
  - intros (k & <- & Hk). apply in_seq in Hk. lia.
  - intros Hv. exists (Z.to_nat v). split; [lia|]. apply in_seq. lia.
Qed.

Lemma existsb_eqb_In (v : Z) (l : list Z) :
  existsb (Z.eqb v) l = true <-> In v l.
Proof.
  rewrite existsb_exists. split.
  - intros (x & Hx & Heq). apply Z.eqb_eq in Heq. now subst.
  - intros Hin. exists v. split; [assumption | apply Z.eqb_refl].
Qed.

Lemma is_member_range (cls : EnumClass) (n : nat) (v : Z) :
  values cls = range n ->
  is_member cls v = true <-> 0 <= v < Z.of_nat n.
Proof.
  intros Hvals. unfold is_member. rewrite Hvals, existsb_eqb_In.
  apply In_range.
Qed.

Lemma is_member_Square v : is_member Square v = true <-> 0 <= v < 64.
Proof. now apply (is_member_range Square 64). Qed.

Lemma is_member_Piece v : is_member Piece v = true <-> 0 <= v < 12.
Proof. now apply (is_member_range Piece 12). Qed.

Lemma is_member_PieceType v : is_member PieceType v = true <-> 0 <= v < 6.
Proof. now apply (is_member_range PieceType 6). Qed.

Lemma is_member_Color v : is_member Color v = true <-> 0 <= v < 2.
Proof. now apply (is_member_range Color 2). Qed.

Lemma is_member_File v : is_member File v = true <-> 0 <= v < 8.
Proof. now apply (is_member_range File 8). Qed.

Lemma is_member_Rank v : is_member Rank v = true <-> 0 <= v < 8.
Proof. now apply (is_member_range Rank 8). Qed.

Lemma call_ok (cls : EnumClass) (v : Z) :
  is_member cls v = true -> call cls v = Ok v.
Proof. intros H. unfold call. now rewrite H. Qed.

Lemma call_inv (cls : EnumClass) (v w : Z) :
  call cls v = Ok w -> w = v /\ is_member cls v = true.
Proof.
  unfold call. destruct (is_member cls v); [|discriminate].
  intros [= <-]. now split.
Qed.

(** A property checked on every number below [n] holds of every such
    number. *)
Lemma forall_range (P : Z -> bool) (n : nat) :
  forallb P (range n) = true -> forall v, 0 <= v < Z.of_nat n -> P v = true.
Proof.
  intros H v Hv. rewrite forallb_forall in H. apply H. now apply In_range.
Qed.

(** ** Addressing *)

Lemma result_eqb_eq r v : result_eqb r v = true -> r = Ok v.
Proof.
  destruct r as [w|e]; simpl; [|discriminate].
  intros H. apply Z.eqb_eq in H. now subst.
Qed.

Lemma square_from_spec (file rank : Z) :
  0 <= file < 8 -> 0 <= rank < 8 ->
  square_from file rank = Ok (squareFrom file rank).
Proof.
  intros Hf Hr. apply result_eqb_eq.
  pose (P := fun r => forallb (fun f => result_eqb (square_from f r)
                                             (squareFrom f r)) (range 8)).
  assert (HP : forallb P (range 8) = true) by (vm_compute; reflexivity).
  pose proof (forall_range P 8 HP rank Hr) as Hrank. unfold P in Hrank.
  exact (forall_range _ 8 Hrank file Hf).
Qed.

Lemma file_of_spec (s : Z) : 0 <= s < 64 -> file_of s = Ok (fileOf s).
Proof.
  intros Hs. apply result_eqb_eq.
  apply (forall_range (fun s => result_eqb (file_of s) (fileOf s)) 64);
    [vm_compute; reflexivity | exact Hs].
Qed.

Lemma rank_of_spec (s : Z) : 0 <= s < 64 -> rank_of s = Ok (rankOf s).
Proof.
  intros Hs. apply result_eqb_eq.
  apply (forall_range (fun s => result_eqb (rank_of s) (rankOf s)) 64);
    [vm_compute; reflexivity | exact Hs].
Qed.

(** C8.  On their domains the addressing functions of the source return,
    without raising, what the specification's formulas give:
    [square_from] is [rank*8 + file] on files and ranks 0..7, [file_of] is
    [s mod 8] and [rank_of] is [s div 8] on squares 0..63; and composing
    them gives back the square: [square_from(file_of(s), rank_of(s)) = s]
    for every member [s] of [Square]. *)
Theorem square_from_file_of_rank_of :
  (forall file rank,
      is_member File file = true -> is_member Rank rank = true ->
      square_from file rank = Ok (squareFrom file rank)) /\
  (forall s,
      is_member Square s = true ->
      file_of s = Ok (fileOf s) /\
      rank_of s = Ok (rankOf s) /\
      (file ← file_of s; rank ← rank_of s; square_from file rank) = Ok s).
Proof.
  split.
  - intros file rank Hf Hr. apply is_member_File in Hf.
    apply is_member_Rank in Hr. now apply square_from_spec.
  - intros s Hs. apply is_member_Square in Hs.
    rewrite (file_of_spec s Hs), (rank_of_spec s Hs).
    repeat split. simpl.
    unfold fileOf, rankOf. rewrite square_from_spec.
    + unfold squareFrom. f_equal. pose proof (Z.div_mod s 8). lia.
    + apply Z.mod_pos_bound. lia.
    + split; [apply Z.div_pos; lia | apply Z.div_lt_upper_bound; lia].
Qed.

Lemma square_from_file_of_rank_of_witness :
  square_from 4 6 = Ok 52 /\
  (file ← file_of 52; rank ← rank_of 52; square_from file rank) = Ok 52.
Proof.
  destruct square_from_file_of_rank_of as [Hsq Hs]. split.
  - apply (Hsq 4 6); reflexivity.
  - apply (Hs 52). reflexivity.
Defined.

(** ** Strings *)

Lemma append_assoc (a b c : string) : (a ++ b) ++ c = a ++ (b ++ c).
Proof. induction a as [|x a IH]; simpl; [reflexivity | now rewrite IH]. Qed.

Lemma append_nil_r (a : string) : a ++ "" = a.
Proof. induction a as [|x a IH]; simpl; [reflexivity | now rewrite IH]. Qed.

(** ** Move notation *)

Lemma land_pow2 (k v : Z) :
  0 <= k -> Z.land (2 ^ k) v = if Z.testbit v k then 2 ^ k else 0.
Proof.
  intros Hk. apply Z.bits_inj'. intros n Hn.
  rewrite Z.land_spec, Z.pow2_bits_eqb by assumption.
  destruct (Z.eqb_spec k n) as [->|Hne].
  - destruct (Z.testbit v n); simpl;
      [now rewrite Z.pow2_bits_eqb, Z.eqb_refl | now rewrite Z.bits_0].
  - simpl. destruct (Z.testbit v k);
      [rewrite Z.pow2_bits_eqb by assumption; symmetry; now apply Z.eqb_neq
      | now rewrite Z.bits_0].
Qed.

Lemma flag_in_pow2 (k v : Z) :
  0 <= k -> flag_in (2 ^ k) v = Z.testbit v k.
Proof.
  intros Hk. unfold flag_in. rewrite land_pow2 by assumption.
  destruct (Z.testbit v k); [apply Z.eqb_refl|].
  apply Z.eqb_neq. pose proof (Z.pow_pos_nonneg 2 k). lia.
Qed.

Lemma name_Square_ok (s : Z) :
  is_member Square s = true -> exists n, name Square s = Ok n.
Proof.
  intros Hs. apply is_member_Square in Hs.
  assert (H : is_ok (name Square s) = true).
  { apply (forall_range (fun s => is_ok (name Square s)) 64);
      [vm_compute; reflexivity | exact Hs]. }
  destruct (name Square s) as [n|e]; [now exists n | discriminate].
Qed.

Lemma Move_str_render (f t fl : Z) (fn tn : string) :
  name Square f = Ok fn -> name Square t = Ok tn ->
  Move_str {| from_square := f; to_square := t; flag := fl |}
  = Ok (render fn tn fl).
Proof.
  intros Hf Ht. unfold Move_str, render. cbn [from_square to_square flag].
  rewrite Hf, Ht. cbn [mbind result_bind].
  change (member MoveFlag "promotion") with (2 ^ 2).
  change (member MoveFlag "special_1") with (2 ^ 1).
  change (member MoveFlag "special_0") with (2 ^ 0).
  rewrite !flag_in_pow2 by lia.
  unfold promotion_bit, special1_bit, special0_bit, promotion_letter.
  destruct (Z.testbit fl 2).
  - rewrite append_assoc.
    destruct (Z.testbit fl 1), (Z.testbit fl 0); reflexivity.
  - now rewrite append_nil_r.
Qed.

(** The rendering depends on the flag through its three low bits only. *)
Lemma render_low_bits (fn tn : string) (fl fl' : Z) :
  Z.land fl' 7 = Z.land fl 7 -> render fn tn fl' = render fn tn fl.
Proof.
  intros H. unfold render, promotion_bit, special1_bit, special0_bit.
  assert (Hbit : forall k, 0 <= k < 3 -> Z.testbit fl' k = Z.testbit fl k).
  { intros k Hk.
    assert (H7 : Z.testbit 7 k = true).
    { change 7 with (Z.ones 3). apply Z.ones_spec_low. lia. }
    pose proof (f_equal (fun z => Z.testbit z k) H) as Hk'. simpl in Hk'.
    now rewrite !Z.land_spec, H7, !andb_true_r in Hk'. }
  now rewrite !Hbit by lia.
Qed.

(** C7.  For every move between two squares, [Move.__str__] returns the
    name of the from-square followed by the name of the to-square, followed
    by a promotion letter exactly when the promotion flag is set, the letter
    being decoded from special1 and special0 as (0,0)=n, (0,1)=b, (1,0)=r,
    (1,1)=q; two flags that agree on promotion, special1 and special0 give
    the same text.  Move(e2,e4) renders as e2e4,
    Move(e7,e8,promotion|special1|special0) as e7e8q and
    Move(e7,e8,promotion|special1) as e7e8r. *)
Theorem Move_str_correct :
  (forall m : Move,
      is_member Square (from_square m) = true ->
      is_member Square (to_square m) = true ->
      exists fn tn,
        name Square (from_square m) = Ok fn /\
        name Square (to_square m) = Ok tn /\
        Move_str m = Ok (render fn tn (flag m)) /\
        forall fl', Z.land fl' 7 = Z.land (flag m) 7 ->
          Move_str {| from_square := from_square m;
                      to_square := to_square m; flag := fl' |} = Move_str m) /\
  Move_str {| from_square := member Square "e2";
              to_square := member Square "e4"; flag := 0 |} = Ok "e2e4" /\
  Move_str {| from_square := member Square "e7";
              to_square := member Square "e8";
              flag := Z.lor (member MoveFlag "promotion")
                        (Z.lor (member MoveFlag "special_1")
                               (member MoveFlag "special_0")) |}
  = Ok "e7e8q" /\
  Move_str {| from_square := member Square "e7";
              to_square := member Square "e8";
              flag := Z.lor (member MoveFlag "promotion")
                            (member MoveFlag "special_1") |}
  = Ok "e7e8r".
Proof.
  split; [|repeat split; reflexivity].
  intros [f t fl] Hf Ht. cbn [from_square to_square flag] in *.
  destruct (name_Square_ok f Hf) as [fn Hfn].
  destruct (name_Square_ok t Ht) as [tn Htn].
  exists fn, tn. repeat split; try assumption.
  - now apply Move_str_render.
  - intros fl' Hfl'.
    rewrite (Move_str_render f t fl' fn tn Hfn Htn).
    rewrite (Move_str_render f t fl fn tn Hfn Htn).
    f_equal. now apply render_low_bits.
Qed.

Lemma Move_str_correct_witness :
  exists fn tn,
    name Square 12 = Ok fn /\ name Square 4 = Ok tn /\
    Move_str {| from_square := 12; to_square := 4; flag := 13 |}
    = Ok (render fn tn 13) /\
    forall fl', Z.land fl' 7 = Z.land 13 7 ->
      Move_str {| from_square := 12; to_square := 4; flag := fl' |}
      = Move_str {| from_square := 12; to_square := 4; flag := 13 |}.
Proof.
  apply (proj1 Move_str_correct
               {| from_square := 12; to_square := 4; flag := 13 |});
    reflexivity.
Defined.

(** ** Lists read and written by index *)

Lemma get_at_ok {A} (l : list A) (i : Z) :
  0 <= i < Z.of_nat (length l) -> exists x, get_at l i = Ok x /\ In x l.
Proof.
  intros Hi. unfold get_at.
  destruct (l !! Z.to_nat i) as [x|] eqn:Hl.
  - exists x. split; [reflexivity|].
    apply list_elem_of_In, list_elem_of_lookup. eauto.
  - apply lookup_ge_None in Hl. lia.
Qed.

Lemma set_at_ok {A} (l : list A) (i : Z) (x : A) :
  0 <= i < Z.of_nat (length l) ->
  set_at l i x = Ok (<[Z.to_nat i := x]> l).
Proof.
  intros Hi. unfold set_at.
  destruct (l !! Z.to_nat i) eqn:Hl; [reflexivity|].
  apply lookup_ge_None in Hl. lia.
Qed.

Lemma get_at_insert {A} (l : list A) (i j : Z) (x : A) :
  0 <= i < Z.of_nat (length l) -> 0 <= j ->
  get_at (<[Z.to_nat i := x]> l) j = if i =? j then Ok x else get_at l j.
Proof.
  intros Hi Hj. unfold get_at. destruct (Z.eqb_spec i j) as [->|Hne].
  - rewrite list_lookup_insert_eq; [reflexivity | lia].
  - rewrite list_lookup_insert_ne; [reflexivity | lia].
Qed.

(** ** Placing a piece *)

Lemma piece_type_of_ok (piece : Z) :
  is_member Piece piece = true ->
  piece_type_of piece = Ok (piece mod 6) /\ 0 <= piece mod 6 < 6.
Proof.
  intros Hp. assert (H : 0 <= piece mod 6 < 6) by (apply Z.mod_pos_bound; lia).
  split; [|exact H]. apply call_ok. now apply is_member_PieceType.
Qed.

Lemma color_of_ok (piece : Z) :
  is_member Piece piece = true ->
  color_of piece = Ok (piece / 6) /\ 0 <= piece / 6 < 2.
Proof.
  intros Hp. apply is_member_Piece in Hp.
  assert (H : 0 <= piece / 6 < 2).
  { split; [apply Z.div_pos; lia | apply Z.div_lt_upper_bound; lia]. }
  split; [|exact H]. apply call_ok. now apply is_member_Color.
Qed.

Lemma contains_singleton (square sq : Z) :
  0 <= square -> 0 <= sq ->
  contains (Z.shiftl 1 square) sq = (square =? sq).
Proof.
  intros Hs Hq. unfold contains. rewrite Z.shiftl_1_l.
  now apply Z.pow2_bits_eqb.
Qed.

(** What [place] returns on a well-formed board. *)
Lemma place_ok (self : Bitboards) (piece square : Z) :
  well_formed self -> is_member Piece piece = true -> 0 <= square ->
  exists old_pt old_c,
    get_at (piece_type_bitboards self) (piece mod 6) = Ok old_pt /\
    get_at (color_bitboards self) (piece / 6) = Ok old_c /\
    place self piece square
    = Ok {| piece_type_bitboards :=
              <[Z.to_nat (piece mod 6) := Z.lor old_pt (Z.shiftl 1 square)]>
                (piece_type_bitboards self);
            color_bitboards :=
              <[Z.to_nat (piece / 6) := Z.lor old_c (Z.shiftl 1 square)]>
                (color_bitboards self) |}.
Proof.
  intros [Hpt Hc] Hp Hsq.
  destruct (piece_type_of_ok piece Hp) as [Ept Rpt].
  destruct (color_of_ok piece Hp) as [Ec Rc].
  destruct (get_at_ok (piece_type_bitboards self) (piece mod 6))
    as (old_pt & Eold_pt & _); [lia|].
  destruct (get_at_ok (color_bitboards self) (piece / 6))
    as (old_c & Eold_c & _); [lia|].
  exists old_pt, old_c. repeat split; try assumption.
  unfold place, bitboard_from.
  destruct (Z.ltb_spec square 0) as [?|_]; [lia|].
  cbn [mbind result_bind]. rewrite Ept. cbn [mbind result_bind].
  rewrite Eold_pt. cbn [mbind result_bind].
  rewrite set_at_ok by lia. cbn [mbind result_bind].
  rewrite Ec. cbn [mbind result_bind]. rewrite Eold_c.
  cbn [mbind result_bind]. rewrite set_at_ok by lia. reflexivity.
Qed.

Lemma place_well_formed (self self' : Bitboards) (piece square : Z) :
  well_formed self -> place self piece square = Ok self' ->
  well_formed self'.
Proof.
  intros [Hpt Hc] H. unfold place in H.
  destruct (bitboard_from square) as [sb|]; [|discriminate].
  cbn [mbind result_bind] in H.
  destruct (piece_type_of piece) as [pt|]; [|discriminate].
  cbn [mbind result_bind] in H.
  destruct (get_at _ pt) as [old_pt|]; [|discriminate].
  cbn [mbind result_bind] in H. unfold set_at in H.
  destruct (piece_type_bitboards self !! Z.to_nat pt); [|discriminate].
  cbn [mbind result_bind] in H.
  destruct (color_of piece) as [c|]; [|discriminate].
  cbn [mbind result_bind] in H.
  destruct (get_at _ c) as [old_c|]; [|discriminate].
  cbn [mbind result_bind] in H.
  destruct (color_bitboards self !! Z.to_nat c); [|discriminate].
  cbn [mbind result_bind] in H. injection H as <-.
  split; cbn [piece_type_bitboards color_bitboards];
    now rewrite length_insert.
Qed.

(** Whether a piece bitboard contains a square after [place] on a
    well-formed board: it does when it did, or when the two bitboards of the
    piece are among those that [place] wrote to. *)
Lemma piece_bitboard_place (self : Bitboards) (piece square p2 sq : Z) :
  well_formed self -> is_member Piece piece = true ->
  is_member Piece p2 = true -> 0 <= square -> 0 <= sq ->
  exists self' cb ptb bb',
    place self piece square = Ok self' /\
    get_at (color_bitboards self) (p2 / 6) = Ok cb /\
    get_at (piece_type_bitboards self) (p2 mod 6) = Ok ptb /\
    piece_bitboard self' p2 = Ok bb' /\
    contains bb' sq
    = (contains cb sq || ((piece / 6 =? p2 / 6) && (square =? sq)))
      && (contains ptb sq || ((piece mod 6 =? p2 mod 6) && (square =? sq))).
Proof.
  intros Hwf Hp Hp2 Hsquare Hsq.
  destruct (place_ok self piece square Hwf Hp Hsquare)
    as (old_pt & old_c & Eold_pt & Eold_c & Eplace).
  destruct Hwf as [Hpt Hc].
  destruct (piece_type_of_ok piece Hp) as [_ Rpt].
  destruct (color_of_ok piece Hp) as [_ Rc].
  destruct (piece_type_of_ok p2 Hp2) as [Ept2 Rpt2].
  destruct (color_of_ok p2 Hp2) as [Ec2 Rc2].
  destruct (get_at_ok (piece_type_bitboards self) (p2 mod 6))
    as (ptb & Eptb & _); [lia|].
  destruct (get_at_ok (color_bitboards self) (p2 / 6))
    as (cb & Ecb & _); [lia|].
  assert (Hs : Z.testbit (Z.shiftl 1 square) sq = (square =? sq))
    by exact (contains_singleton square sq Hsquare Hsq).
  assert (Ebb : piece_bitboard
                  {| piece_type_bitboards :=
                       <[Z.to_nat (piece mod 6) :=
                           Z.lor old_pt (Z.shiftl 1 square)]>
                         (piece_type_bitboards self);
                     color_bitboards :=
                       <[Z.to_nat (piece / 6) :=
                           Z.lor old_c (Z.shiftl 1 square)]>
                         (color_bitboards self) |} p2
                = Ok (Z.land
                        (if piece / 6 =? p2 / 6
                         then Z.lor old_c (Z.shiftl 1 square) else cb)
                        (if piece mod 6 =? p2 mod 6
                         then Z.lor old_pt (Z.shiftl 1 square) else ptb))).
  { unfold piece_bitboard. cbn [piece_type_bitboards color_bitboards].
    rewrite Ec2, Ept2. cbn [mbind result_bind].
    rewrite !get_at_insert by lia. rewrite Ecb, Eptb.
    destruct (piece / 6 =? p2 / 6), (piece mod 6 =? p2 mod 6); reflexivity. }
  eexists _, cb, ptb, _. split; [exact Eplace|].
  split; [exact Ecb|]. split; [exact Eptb|]. split; [exact Ebb|].
  unfold contains. rewrite Z.land_spec.
  destruct (Z.eqb_spec (piece / 6) (p2 / 6)) as [Ec|Ec];
    destruct (Z.eqb_spec (piece mod 6) (p2 mod 6)) as [Et|Et];
    try rewrite Ec in Eold_c; try rewrite Et in Eold_pt;
    try (rewrite Ecb in Eold_c; injection Eold_c as <-);
    try (rewrite Eptb in Eold_pt; injection Eold_pt as <-);
    rewrite ?Z.lor_spec, ?Hs; cbn [andb];
    rewrite ?orb_false_r; reflexivity.
Qed.

(** C2.  On a board with its six piece-type bitboards and two colour
    bitboards, none of which contains the square, [place(piece, square)]
    returns a board where the bitboard of [piece] contains the square and
    the bitboard of every other piece does not. *)
Theorem place_piece_bitboard (self : Bitboards) (piece square : Z) :
  well_formed self ->
  is_member Piece piece = true ->
  is_member Square square = true ->
  (forall bb, In bb (piece_type_bitboards self ++ color_bitboards self)%list ->
              contains bb square = false) ->
  exists self',
    place self piece square = Ok self' /\
    (exists bb, piece_bitboard self' piece = Ok bb /\
                contains bb square = true) /\
    (forall p2, is_member Piece p2 = true -> p2 <> piece ->
                exists bb2, piece_bitboard self' p2 = Ok bb2 /\
                            contains bb2 square = false).
Proof.
  intros Hwf Hp Hsq Hfree. apply is_member_Square in Hsq.
  assert (Hsq0 : 0 <= square) by lia.
  assert (Hget_free : forall l i x,
             (forall bb, In bb l -> contains bb square = false) ->
             get_at (A:=Z) l i = Ok x -> contains x square = false).
  { intros l i x Hl Hi. apply Hl. unfold get_at in Hi.
    destruct (l !! Z.to_nat i) as [y|] eqn:Hy; [|discriminate].
    injection Hi as <-. apply list_elem_of_In, list_elem_of_lookup. eauto. }
  destruct (piece_bitboard_place self piece square piece square
              Hwf Hp Hp Hsq0 Hsq0)
    as (self' & cb & ptb & bb' & Eplace & _ & _ & Ebb' & Hbb').
  exists self'. split; [exact Eplace|]. split.
  - exists bb'. split; [exact Ebb'|].
    rewrite Hbb', !Z.eqb_refl. cbn [andb]. now rewrite !orb_true_r.
  - intros p2 Hp2 Hne.
    destruct (piece_bitboard_place self piece square p2 square
                Hwf Hp Hp2 Hsq0 Hsq0)
      as (self2 & cb2 & ptb2 & bb2 & Eplace2 & Ecb2 & Eptb2 & Ebb2 & Hbb2).
    rewrite Eplace in Eplace2. injection Eplace2 as <-.
    exists bb2. split; [exact Ebb2|]. rewrite Hbb2.
    rewrite (Hget_free _ _ _ (fun bb H => Hfree bb (in_or_app _ _ _ (or_intror H))) Ecb2).
    rewrite (Hget_free _ _ _ (fun bb H => Hfree bb (in_or_app _ _ _ (or_introl H))) Eptb2).
    rewrite Z.eqb_refl. cbn [orb]. rewrite !andb_true_r.
    destruct (Z.eqb_spec (piece / 6) (p2 / 6)) as [Ec|]; [|reflexivity].
    destruct (Z.eqb_spec (piece mod 6) (p2 mod 6)) as [Et|]; [|reflexivity].
    exfalso. apply Hne.
    rewrite (Z.div_mod p2 6), (Z.div_mod piece 6) by lia. now rewrite Ec, Et.
Qed.

Lemma place_piece_bitboard_witness :
  exists self',
    place empty_bitboards 4 60 = Ok self' /\
    (exists bb, piece_bitboard self' 4 = Ok bb /\ contains bb 60 = true) /\
    (forall p2, is_member Piece p2 = true -> p2 <> 4 ->
                exists bb2, piece_bitboard self' p2 = Ok bb2 /\
                            contains bb2 60 = false).
Proof.
  apply (place_piece_bitboard empty_bitboards 4 60).
  - split; reflexivity.
  - reflexivity.
  - reflexivity.
  - intros bb Hbb. simpl in Hbb.
    repeat (destruct Hbb as [<-|Hbb]; [reflexivity|]). destruct Hbb.
Defined.

(** ** The round trip of the initial position *)

(** C1.  Parsing the standard initial FEN string and serializing the board
    returns that string. *)
Theorem initial_fen_roundtrip :
  (board ← Board_init
     "rnbqkbnr/pppppppp/8/8/8/8/PPPPPPPP/RNBQKBNR w KQkq - 0 1";
   to_fen board)
  = Ok "rnbqkbnr/pppppppp/8/8/8/8/PPPPPPPP/RNBQKBNR w KQkq - 0 1".
Proof. vm_compute. reflexivity. Qed.

(** ** Attribute lookups by one character *)

Lemma is_inherited_char (c : ascii) : is_inherited (String c "") = false.
Proof.
  unfold is_inherited, inherited_attrs. cbn [existsb String.eqb].
  repeat match goal with
         | |- context [if ?b then false else false] => destruct b
         end; reflexivity.
Qed.

Lemma getattr_char (cls : EnumClass) (c : ascii) :
  getattr cls (String c "")
  = match assoc (String c "") (members cls) with
    | Some v => Ok (Member v)
    | None => Raise (AttributeError (String c ""))
    end.
Proof.
  unfold getattr. destruct (assoc _ _); [reflexivity|].
  now rewrite is_inherited_char.
Qed.

(** ** Castling ability *)

Lemma getattr_letter (c : ascii) :
  getattr CastlingAbility (String c "")
  = match letter_flag c with
    | Some v => Ok (Member v)
    | None => Raise (AttributeError (String c ""))
    end.
Proof. apply getattr_char. Qed.

(** The loop of [reduce] over the letters that follow the first one. *)
Lemma fold_or_inv (cs : list ascii) (a : Z) (o : object) :
  foldM (fun acc ch => b ← getattr CastlingAbility (String ch ""); or_ acc b)
        (Member a) cs = Ok o ->
  exists v, o = Member v /\
            (forall c, In c cs -> letter_flag c <> None) /\
            (forall k, Z.testbit v k
                       = Z.testbit a k || existsb (letter_bit k) cs).
Proof.
  revert a. induction cs as [|c cs IH]; intros a H.
  - injection H as <-. exists a. repeat split; [intros c []|].
    intros k. simpl. now rewrite orb_false_r.
  - cbn [foldM] in H. rewrite getattr_letter in H.
    destruct (letter_flag c) as [w|] eqn:Hw; [|discriminate].
    cbn [mbind result_bind or_] in H.
    destruct (IH _ H) as (v & -> & Hvalid & Hbits).
    exists v. repeat split.
    + intros c' [<-|Hin]; [congruence | now apply Hvalid].
    + intros k. rewrite Hbits, Z.lor_spec. cbn [existsb].
      unfold letter_bit at 2. rewrite Hw. now rewrite orb_assoc.
Qed.

Lemma fold_or_ok (cs : list ascii) (a : Z) :
  (forall c, In c cs -> letter_flag c <> None) ->
  exists v,
    foldM (fun acc ch => b ← getattr CastlingAbility (String ch ""); or_ acc b)
          (Member a) cs = Ok (Member v).
Proof.
  revert a. induction cs as [|c cs IH]; intros a Hvalid.
  - now exists a.
  - cbn [foldM]. rewrite getattr_letter.
    destruct (letter_flag c) as [w|] eqn:Hw.
    + cbn [mbind result_bind or_]. apply IH.
      intros c' Hin. apply Hvalid. now right.
    + exfalso. apply (Hvalid c); [now left | exact Hw].
Qed.

Lemma reduce_letters_iff (cs : list ascii) (o : object) :
  reduce_map or_ (fun ch => getattr CastlingAbility (String ch "")) cs = Ok o
  <-> exists v, o = Member v /\ letters_denote cs v.
Proof.
  destruct cs as [|c cs].
  - split; [discriminate|]. intros (v & _ & Hne & _). now destruct Hne.
  - unfold reduce_map. rewrite getattr_letter. split.
    + destruct (letter_flag c) as [w|] eqn:Hw; [|discriminate].
      cbn [mbind result_bind]. intros H.
      destruct (fold_or_inv cs w o H) as (v & -> & Hvalid & Hbits).
      exists v. split; [reflexivity|]. split; [discriminate|]. split.
      * intros c' [<-|Hin]; [congruence | now apply Hvalid].
      * intros k. rewrite Hbits. cbn [existsb]. unfold letter_bit at 2.
        now rewrite Hw.
    + intros (v & -> & _ & Hvalid & Hbits).
      destruct (letter_flag c) as [w|] eqn:Hw;
        [|exfalso; apply (Hvalid c); [now left | exact Hw]].
      cbn [mbind result_bind].
      destruct (fold_or_ok cs w) as (v' & Hv').
      { intros c' Hin. apply Hvalid. now right. }
      change (foldM (fun acc ch => b ← getattr CastlingAbility (String ch "");
                                   or_ acc b) (Member w) cs = Ok (Member v)).
      rewrite Hv'. do 2 f_equal. apply Z.bits_inj'. intros k _.
      destruct (fold_or_inv cs w _ Hv') as (v'' & [= <-] & _ & Hbits').
      rewrite Hbits, Hbits'. cbn [existsb]. unfold letter_bit at 2.
      now rewrite Hw.
Qed.

Lemma existsb_same_elements {A} (P : A -> bool) (l l' : list A) :
  (forall x, In x l <-> In x l') -> existsb P l = existsb P l'.
Proof.
  intros H. apply eq_true_iff_eq. rewrite !existsb_exists.
  split; intros (x & Hx & HP); exists x; split; try assumption;
    now apply H.
Qed.

Lemma letters_denote_same_elements (cs cs' : list ascii) (v : Z) :
  (forall c, In c cs <-> In c cs') ->
  letters_denote cs v -> letters_denote cs' v.
Proof.
  intros Hsame (Hne & Hvalid & Hbits). repeat split.
  - destruct cs as [|c cs]; [now destruct Hne|].
    intros ->. apply (Hsame c). now left.
  - intros c Hc. apply Hvalid. now apply Hsame.
  - intros k. rewrite Hbits. now apply existsb_same_elements.
Qed.

Lemma list_ascii_inj (s s' : string) :
  list_ascii_of_string s = list_ascii_of_string s' -> s = s'.
Proof.
  intros H. rewrite <- (string_of_list_ascii_of_string s).
  rewrite <- (string_of_list_ascii_of_string s'). now rewrite H.
Qed.

Lemma parse_castling_letters (s : string) :
  s <> "-" ->
  parse_castling s
  = reduce_map or_ (fun ch => getattr CastlingAbility (String ch ""))
               (list_ascii_of_string s).
Proof.
  intros Hs. unfold parse_castling.
  destruct (String.eqb_spec s "-") as [->|_]; [now destruct Hs | reflexivity].
Qed.

(** Two fields with the same letters parse alike. *)
Lemma parse_castling_same_letters (s s' : string) (o : object) :
  s <> "-" -> parse_castling s = Ok o ->
  (forall c, In c (list_ascii_of_string s)
             <-> In c (list_ascii_of_string s')) ->
  parse_castling s' = Ok o.
Proof.
  intros Hs H Hsame. rewrite parse_castling_letters in H by assumption.
  apply reduce_letters_iff in H. destruct H as (v & -> & Hden).
  assert (Hs' : s' <> "-").
  { intros ->. destruct Hden as (_ & Hvalid & _).
    apply (Hvalid "-"%char); [|reflexivity]. apply Hsame. now left. }
  rewrite parse_castling_letters by assumption.
  apply reduce_letters_iff. exists v. split; [reflexivity|].
  now apply (letters_denote_same_elements (list_ascii_of_string s)).
Qed.

(** C6.  Parsing the castling field does not depend on the order of its
    letters nor on their repetition: a field that is a permutation of a
    field that parses, or that has the same letters as one, parses to the
    same ability.  Serializing an ability writes the names of its flags in
    the order K, Q, k, q, and a dash when it has none.  The field KQkq comes
    back as KQkq and the dash as the dash. *)
Theorem castling_ability_roundtrip :
  (forall s s' o,
      parse_castling s = Ok o ->
      Permutation (list_ascii_of_string s) (list_ascii_of_string s') ->
      parse_castling s' = Ok o) /\
  (forall s s' o,
      s <> "-" -> parse_castling s = Ok o ->
      (forall c, In c (list_ascii_of_string s)
                 <-> In c (list_ascii_of_string s')) ->
      parse_castling s' = Ok o) /\
  (forall v, 0 <= v < 16 ->
             castling_text (Member v) = Ok (canonical_castling v)) /\
  (o ← parse_castling "KQkq"; castling_text o) = Ok "KQkq" /\
  (o ← parse_castling "-"; castling_text o) = Ok "-".
Proof.
  split; [|split; [|split; [|split; reflexivity]]].
  - intros s s' o H Hperm.
    destruct (String.eqb_spec s "-") as [->|Hs].
    + apply Permutation_length_1_inv in Hperm.
      change ["-"%char] with (list_ascii_of_string "-") in Hperm.
      apply list_ascii_inj in Hperm. now subst.
    + apply (parse_castling_same_letters s s' o Hs H).
      intros c. split; apply Permutation_in;
        [assumption | now apply Permutation_sym].
  - exact parse_castling_same_letters.
  - intros v Hv.
    assert (H : result_string_eqb (castling_text (Member v))
                                  (canonical_castling v) = true).
    { apply (forall_range
               (fun v => result_string_eqb (castling_text (Member v))
                                           (canonical_castling v)) 16);
        [vm_compute; reflexivity | exact Hv]. }
    destruct (castling_text (Member v)) as [t|]; [|discriminate].
    apply String.eqb_eq in H. now subst.
Qed.

Lemma castling_ability_roundtrip_witness :
  parse_castling "qKQk" = Ok (Member 15) /\
  parse_castling "kKkQqqK" = Ok (Member 15) /\
  castling_text (Member 9) = Ok (canonical_castling 9).
Proof.
  destruct castling_ability_roundtrip as (Hperm & Hsame & Htext & _).
  split; [|split].
  - apply (Hperm "KQkq" "qKQk"); [reflexivity|].
    change (Permutation ["K"; "Q"; "k"; "q"]%char ["q"; "K"; "Q"; "k"]%char).
    apply Permutation_sym, (Permutation_cons_app ["K"; "Q"; "k"]%char []).
    apply Permutation_refl.
  - apply (Hsame "KQkq" "kKkQqqK"); [discriminate | reflexivity |].
    intros c. simpl. intuition.
  - apply (Htext 9). lia.
Defined.

(** ** The kinds of failure of [__init__] *)

Create HintDb nofen.

Lemma nofen_ok {A} (a : A) : no_invalid_fen (Ok a).
Proof. intros e H. discriminate. Qed.

Lemma nofen_raise {A} (e : exn) :
  is_invalid_fen e = false -> no_invalid_fen (@Raise A e).
Proof. intros He e' [= <-]. exact He. Qed.

Lemma nofen_bind {A B} (m : result A) (k : A -> result B) :
  no_invalid_fen m -> (forall a, no_invalid_fen (k a)) ->
  no_invalid_fen (a ← m; k a).
Proof.
  intros Hm Hk. destruct m as [a|e]; cbn [mbind result_bind].
  - apply Hk.
  - intros e' [= <-]. now apply Hm.
Qed.

Lemma nofen_if {A} (b : bool) (m1 m2 : result A) :
  no_invalid_fen m1 -> no_invalid_fen m2 ->
  no_invalid_fen (if b then m1 else m2).
Proof. now destruct b. Qed.

Lemma nofen_foldM {A B} (f : A -> B -> result A) (l : list B) (a : A) :
  (forall a b, no_invalid_fen (f a b)) -> no_invalid_fen (foldM f a l).
Proof.
  intros Hf. revert a. induction l as [|b l IH]; intros a; cbn [foldM].
  - apply nofen_ok.
  - apply nofen_bind; [apply Hf | exact IH].
Qed.

#[local] Hint Resolve nofen_ok nofen_bind nofen_if nofen_foldM : nofen.
#[local] Hint Extern 1 (no_invalid_fen (Raise _)) =>
  apply nofen_raise; reflexivity : nofen.

Lemma nofen_call cls v : no_invalid_fen (call cls v).
Proof. unfold call. auto with nofen. Qed.

Lemma nofen_getattr cls n : no_invalid_fen (getattr cls n).
Proof. unfold getattr. destruct (assoc n (members cls)); auto with nofen. Qed.

Lemma nofen_int s : no_invalid_fen (int s).
Proof.
  unfold int.
  match goal with |- no_invalid_fen (match ?p with _ => _ end) => destruct p end;
    auto with nofen.
Qed.

Lemma nofen_get_at {A} (l : list A) i : no_invalid_fen (get_at l i).
Proof. unfold get_at. destruct (l !! Z.to_nat i); auto with nofen. Qed.

Lemma nofen_set_at {A} (l : list A) i x : no_invalid_fen (set_at l i x).
Proof. unfold set_at. destruct (l !! Z.to_nat i); auto with nofen. Qed.

Lemma nofen_or_ a b : no_invalid_fen (or_ a b).
Proof. destruct a, b; cbn [or_]; auto with nofen. Qed.

#[local] Hint Resolve nofen_call nofen_getattr nofen_int nofen_get_at
  nofen_set_at nofen_or_ : nofen.

Lemma nofen_place self piece square : no_invalid_fen (place self piece square).
Proof.
  unfold place, bitboard_from, piece_type_of, color_of.
  repeat (apply nofen_bind; [auto with nofen | intros ?]).
  apply nofen_ok.
Qed.

Lemma nofen_place_char rank st ch : no_invalid_fen (place_char rank st ch).
Proof.
  unfold place_char, square_from. destruct st as [file self].
  apply nofen_if.
  - auto with nofen.
  - apply nofen_bind; [auto with nofen | intros o].
    apply nofen_bind; [auto with nofen | intros square].
    destruct o; [|auto with nofen].
    apply nofen_bind; [apply nofen_place | auto with nofen].
Qed.

Lemma nofen_place_rank self p : no_invalid_fen (place_rank self p).
Proof.
  unfold place_rank. destruct p as [rank r].
  apply nofen_bind; [|auto with nofen].
  apply nofen_foldM. intros. apply nofen_place_char.
Qed.

Lemma nofen_parse_castling s : no_invalid_fen (parse_castling s).
Proof.
  unfold parse_castling, reduce_map. apply nofen_if; [auto with nofen|].
  destruct (list_ascii_of_string s); auto 6 with nofen.
Qed.

Lemma nofen_init_fields pp stm ca ep hc fc :
  no_invalid_fen (init_fields pp stm ca ep hc fc).
Proof.
  unfold init_fields, place_all, parse_en_passant.
  apply nofen_bind; [apply nofen_foldM; intros; apply nofen_place_rank|].
  intros bbs.
  apply nofen_bind; [auto with nofen | intros ?].
  apply nofen_bind; [apply nofen_parse_castling | intros ?].
  auto 8 with nofen.
Qed.

(** [__init__] on a string of six fields is [init_fields] on them. *)
Lemma Board_init_fields fen f1 f2 f3 f4 f5 f6 :
  split fen = [f1; f2; f3; f4; f5; f6] ->
  Board_init fen = init_fields f1 f2 f3 f4 f5 f6.
Proof. intros H. unfold Board_init. now rewrite H. Qed.

(** C4.  [Board(fen)] raises the invalid-FEN error exactly when [fen] does
    not split at white space into six fields, and the error then carries
    [fen]; in particular it does when [fen] has five fields, as the
    initial position without its last field has. *)
Theorem invalid_fen_iff_not_six_fields :
  (forall fen,
      (exists e, Board_init fen = Raise e /\ is_invalid_fen e = true)
      <-> length (split fen) <> 6%nat) /\
  (forall fen,
      length (split fen) <> 6%nat -> Board_init fen = Raise (InvalidFEN fen)) /\
  (forall fen,
      length (split fen) = 5%nat -> Board_init fen = Raise (InvalidFEN fen)) /\
  Board_init "rnbqkbnr/pppppppp/8/8/8/8/PPPPPPPP/RNBQKBNR w KQkq - 0"
  = Raise (InvalidFEN
             "rnbqkbnr/pppppppp/8/8/8/8/PPPPPPPP/RNBQKBNR w KQkq - 0").
Proof.
  assert (Hnot6 : forall fen, length (split fen) <> 6%nat ->
                              Board_init fen = Raise (InvalidFEN fen)).
  { intros fen Hlen. unfold Board_init.
    destruct (split fen) as [|f1 [|f2 [|f3 [|f4 [|f5 [|f6 [|f7 l]]]]]]];
      try reflexivity.
    now destruct Hlen. }
  split; [|split; [exact Hnot6 | split; [|reflexivity]]].
  - intros fen. split.
    + intros (e & He & Hinv) Hlen.
      destruct (split fen) as [|f1 [|f2 [|f3 [|f4 [|f5 [|f6 [|f7 l]]]]]]] eqn:Hs;
        try discriminate.
      rewrite (Board_init_fields _ _ _ _ _ _ _ Hs) in He.
      apply nofen_init_fields in He. congruence.
    + intros Hlen. exists (InvalidFEN fen). split; [now apply Hnot6 | reflexivity].
  - intros fen Hlen. apply Hnot6. lia.
Qed.

Lemma invalid_fen_iff_not_six_fields_witness :
  Board_init "8/8/8/8/8/8/8/8 w - -  0 1 2"
  = Raise (InvalidFEN "8/8/8/8/8/8/8/8 w - -  0 1 2") /\
  Board_init "8/8/8/8/8/8/8/8 w KQkq - 0"
  = Raise (InvalidFEN "8/8/8/8/8/8/8/8 w KQkq - 0").
Proof.
  destruct invalid_fen_iff_not_six_fields as (_ & Hnot6 & H5 & _). split.
  - apply (Hnot6 "8/8/8/8/8/8/8/8 w - -  0 1 2"). vm_compute. lia.
  - apply (H5 "8/8/8/8/8/8/8/8 w KQkq - 0"). reflexivity.
Defined.

(** ** The side to move *)

(** C5.  The side-to-move field is looked up with [getattr] on the class
    [Color]: [w] gives white and [b] black, but a field that names an
    attribute which [Color] inherits, such as [bit_length], is accepted too
    and the side to move of the board is then that attribute, not a
    colour. *)
Theorem side_to_move_inherited_attribute :
  (exists board, Board_init "8/8/8/8/8/8/8/8 w - - 0 1" = Ok board /\
                 side_to_move board = Member (member Color "w")) /\
  (exists board, Board_init "8/8/8/8/8/8/8/8 b - - 0 1" = Ok board /\
                 side_to_move board = Member (member Color "b")) /\
  Board_init "8/8/8/8/8/8/8/8 x - - 0 1" = Raise (AttributeError "x") /\
  (exists board, Board_init "8/8/8/8/8/8/8/8 bit_length - - 0 1" = Ok board /\
                 side_to_move board = ClassAttr "bit_length").
Proof.
  repeat split; try (eexists; split; vm_compute; reflexivity).
Qed.

(** ** Digits in a rank string *)

Lemma int_decimal_char (ch : ascii) :
  isdecimal ch = true ->
  isdigit ch = true /\ int (String ch "") = Ok (code ch - 48).
Proof.
  intros H.
  destruct ch as [[] [] [] [] [] [] [] []];
    try (vm_compute in H; discriminate H); split; reflexivity.
Qed.

(** A character that [isdigit] accepts and that is not a decimal digit is
    not read by [int]. *)
Lemma int_other_digit (ch : ascii) :
  isdigit ch = true -> isdecimal ch = false ->
  int (String ch "") = Raise (ValueError_int (String ch "")).
Proof.
  intros Hd Hn.
  destruct ch as [[] [] [] [] [] [] [] []];
    try (vm_compute in Hd; discriminate Hd);
    try (vm_compute in Hn; discriminate Hn); reflexivity.
Qed.

(** C9, amended.  The loop takes for a count of files every character that
    [isdigit] accepts.  A decimal digit, 0 and 9 included, raises nothing:
    it moves the file cursor forward by its value and leaves the bitboards
    as they are; the rank string 09 is read without a failure, and a FEN
    string with it is accepted.  Any other character that [isdigit] accepts
    (a superscript digit) raises the [ValueError] of [int]. *)
Theorem digit_advances_file_cursor :
  (forall ch rank file self,
      isdecimal ch = true ->
      place_char rank (file, self) ch = Ok (file + (code ch - 48), self)) /\
  (forall rank file self,
      place_char rank (file, self) "0" = Ok (file + 0, self) /\
      place_char rank (file, self) "9" = Ok (file + 9, self)) /\
  (forall rank self, place_rank self (rank, "09") = Ok self) /\
  (exists board, Board_init "09/8/8/8/8/8/8/8 w - - 0 1" = Ok board /\
                 bitboards board = empty_bitboards) /\
  (forall ch rank file self,
      isdigit ch = true -> isdecimal ch = false ->
      place_char rank (file, self) ch
      = Raise (ValueError_int (String ch ""))).
Proof.
  assert (Hdigit : forall ch rank file self,
             isdecimal ch = true ->
             place_char rank (file, self) ch
             = Ok (file + (code ch - 48), self)).
  { intros ch rank file self H.
    destruct (int_decimal_char ch H) as [Hd Hi].
    unfold place_char. now rewrite Hd, Hi. }
  split; [exact Hdigit|]. split; [|split; [|split]].
  - intros rank file self. split; now rewrite Hdigit.
  - intros rank self. unfold place_rank.
    cbn [list_ascii_of_string foldM].
    rewrite (Hdigit "0"%char) by reflexivity. cbn [mbind result_bind].
    rewrite (Hdigit "9"%char) by reflexivity. reflexivity.
  - eexists. split; vm_compute; reflexivity.
  - intros ch rank file self Hd Hn. unfold place_char.
    now rewrite Hd, (int_other_digit ch Hd Hn).
Qed.

Lemma digit_advances_file_cursor_witness :
  place_char 3 (2, empty_bitboards) "9" = Ok (11, empty_bitboards).
Proof.
  exact (proj1 digit_advances_file_cursor "9"%char 3 2 empty_bitboards
               eq_refl).
Defined.

(** C9, as the claim words it, fails: not every digit character is accepted.
    The superscript two (code point 178) is a digit for [isdigit], the loop
    takes it for a count of files, and [int] raises on it, so that a FEN
    string with it in a rank string is refused with a [ValueError]. *)
Lemma superscript_digit_raises :
  isdigit "178" = true /\
  place_char 0 (0, empty_bitboards) "178"
  = Raise (ValueError_int (String "178" "")) /\
  Board_init (String "178" "/8/8/8/8/8/8/8 w - - 0 1")
  = Raise (ValueError_int (String "178" "")).
Proof. repeat split; vm_compute; reflexivity. Qed.

(** ** Splitting at white space *)

Lemma split_scan_spaceless (f s : string) :
  spaceless f = true ->
  split_scan (f ++ s) = (f ++ fst (split_scan s), snd (split_scan s)).
Proof.
  induction f as [|c f IH]; cbn [spaceless append split_scan]; intros H.
  - now destruct (split_scan s).
  - apply andb_true_iff in H. destruct H as [Hc Hf].
    rewrite (IH Hf). apply negb_true_iff in Hc. now rewrite Hc.
Qed.

Lemma split_scan_blank (w s : string) :
  blank w = true ->
  split_scan (w ++ s)
  = if is_empty w then split_scan s else ("", split s).
Proof.
  induction w as [|c w IH]; cbn [blank append split_scan is_empty]; intros H.
  - reflexivity.
  - apply andb_true_iff in H. destruct H as [Hc Hw].
    rewrite (IH Hw), Hc. unfold split.
    destruct w; cbn [is_empty]; [now destruct (split_scan s)|reflexivity].
Qed.

Lemma split_blank (w s : string) : blank w = true -> split (w ++ s) = split s.
Proof.
  intros H. unfold split at 1. rewrite (split_scan_blank w s H).
  destruct w; cbn [is_empty]; [reflexivity|].
  reflexivity.
Qed.

Lemma split_word_separator (f w s : string) :
  word f = true -> separator w = true ->
  split (f ++ w ++ s) = f :: split s.
Proof.
  intros Hf Hw. apply andb_true_iff in Hf. destruct Hf as [Hne Hf].
  apply andb_true_iff in Hw. destruct Hw as [Hwne Hw].
  unfold split at 1. rewrite (split_scan_spaceless f _ Hf).
  rewrite (split_scan_blank w s Hw).
  destruct w; [discriminate|]. cbn [is_empty fst snd].
  rewrite append_nil_r. unfold cons_word.
  now destruct f.
Qed.

Lemma split_word_end (f w : string) :
  word f = true -> blank w = true -> split (f ++ w) = [f].
Proof.
  intros Hf Hw. apply andb_true_iff in Hf. destruct Hf as [Hne Hf].
  unfold split. rewrite (split_scan_spaceless f _ Hf).
  rewrite <- (append_nil_r w), (split_scan_blank w "" Hw).
  destruct w; cbn [is_empty split_scan split cons_word fst snd];
    rewrite append_nil_r; unfold cons_word; now destruct f.
Qed.

(** The fields of a string made of six words, with white space around and
    between them. *)
Lemma split_six_words (f1 f2 f3 f4 f5 f6 w0 w1 w2 w3 w4 w5 w6 : string) :
  word f1 = true -> word f2 = true -> word f3 = true ->
  word f4 = true -> word f5 = true -> word f6 = true ->
  blank w0 = true -> separator w1 = true -> separator w2 = true ->
  separator w3 = true -> separator w4 = true -> separator w5 = true ->
  blank w6 = true ->
  split (w0 ++ f1 ++ w1 ++ f2 ++ w2 ++ f3 ++ w3 ++ f4 ++ w4 ++ f5 ++ w5
            ++ f6 ++ w6)
  = [f1; f2; f3; f4; f5; f6].
Proof.
  intros F1 F2 F3 F4 F5 F6 W0 W1 W2 W3 W4 W5 W6.
  rewrite (split_blank w0 _ W0).
  rewrite (split_word_separator f1 w1 _ F1 W1).
  rewrite (split_word_separator f2 w2 _ F2 W2).
  rewrite (split_word_separator f3 w3 _ F3 W3).
  rewrite (split_word_separator f4 w4 _ F4 W4).
  rewrite (split_word_separator f5 w5 _ F5 W5).
  now rewrite (split_word_end f6 w6 F6 W6).
Qed.

(** C10.  A FEN string whose six fields are separated by runs of white
    space of any length (spaces, tabs, newlines), with or without white
    space before the first field and after the last, is read as the string
    of the same fields joined by single spaces: [Board] returns the same
    board for both, or fails in the same way for both. *)
Theorem whitespace_between_fields
    (f1 f2 f3 f4 f5 f6 w0 w1 w2 w3 w4 w5 w6 : string) :
  word f1 = true -> word f2 = true -> word f3 = true ->
  word f4 = true -> word f5 = true -> word f6 = true ->
  blank w0 = true -> separator w1 = true -> separator w2 = true ->
  separator w3 = true -> separator w4 = true -> separator w5 = true ->
  blank w6 = true ->
  Board_init (w0 ++ f1 ++ w1 ++ f2 ++ w2 ++ f3 ++ w3 ++ f4 ++ w4 ++ f5 ++ w5
                 ++ f6 ++ w6)
  = Board_init (join " " [f1; f2; f3; f4; f5; f6]).
Proof.
  intros F1 F2 F3 F4 F5 F6 W0 W1 W2 W3 W4 W5 W6.
  rewrite (Board_init_fields _ f1 f2 f3 f4 f5 f6)
    by now apply split_six_words.
  symmetry. apply Board_init_fields. cbn [join].
  pose proof (split_six_words f1 f2 f3 f4 f5 f6 "" " " " " " " " " " " ""
                F1 F2 F3 F4 F5 F6 eq_refl eq_refl eq_refl eq_refl eq_refl
                eq_refl eq_refl) as H.
  rewrite (append_nil_r f6) in H. exact H.
Qed.

Lemma whitespace_between_fields_witness :
  Board_init
    ("  " ++ "8/8/8/8/8/8/8/8" ++ String "009" "" ++ "b"
          ++ String "010" " " ++ "Kq" ++ "   " ++ "e3" ++ " " ++ "4"
          ++ String "009" (String "009" "") ++ "17" ++ String "010" "")
  = Board_init (join " " ["8/8/8/8/8/8/8/8"; "b"; "Kq"; "e3"; "4"; "17"]).
Proof.
  apply whitespace_between_fields; reflexivity.
Defined.

(** ** The ranks of the piece placement *)

Lemma assoc_is_member (cls : EnumClass) (n : string) (v : Z) :
  assoc n (members cls) = Some v -> is_member cls v = true.
Proof.
  unfold is_member, values. intros H. apply existsb_eqb_In.
  induction (members cls) as [|[n' w] l IH]; [discriminate|].
  cbn [assoc] in H. cbn [map snd].
  destruct (String.eqb n n'); [injection H as ->; now left | right; auto].
Qed.

Lemma int_digit_char (ch : ascii) (n : Z) :
  isdigit ch = true -> int (String ch "") = Ok n ->
  n = code ch - 48 /\ 0 <= n.
Proof.
  intros Hd Hi.
  destruct ch as [[] [] [] [] [] [] [] []];
    try (vm_compute in Hd; discriminate Hd);
    vm_compute in Hi; try discriminate Hi;
    injection Hi as <-; vm_compute; (split; [reflexivity | discriminate]).
Qed.

Lemma occupies_inv (self : Bitboards) (p sq : Z) :
  occupies self p sq -> is_member Piece p = true /\ 0 <= sq.
Proof.
  intros (bb & Hbb & Hc). split.
  - unfold piece_bitboard in Hbb.
    destruct (color_of p) as [c|] eqn:Ec; [|discriminate].
    apply call_inv in Ec. destruct Ec as [_ Ec].
    apply is_member_Color in Ec. apply is_member_Piece.
    split.
    + destruct (Z.le_gt_cases 0 p) as [H|H]; [exact H|].
      assert (p / 6 < 0) by (apply Z.div_lt_upper_bound; lia). lia.
    + destruct (Z.lt_ge_cases p 12) as [H|H]; [exact H|].
      assert (2 <= p / 6) by (apply Z.div_le_lower_bound; lia). lia.
  - destruct (Z.le_gt_cases 0 sq) as [H|H]; [exact H|].
    unfold contains in Hc. rewrite Z.testbit_neg_r in Hc by lia.
    discriminate.
Qed.

(** [place] puts the piece on the square and removes nothing. *)
Lemma place_occupies (self self' : Bitboards) (piece square : Z) :
  well_formed self -> is_member Piece piece = true -> 0 <= square ->
  place self piece square = Ok self' ->
  occupies self' piece square /\
  (forall p sq, occupies self p sq -> occupies self' p sq).
Proof.
  intros Hwf Hp Hsq Hplace. split.
  - destruct (piece_bitboard_place self piece square piece square
                Hwf Hp Hp Hsq Hsq)
      as (s & cb & ptb & bb' & Es & _ & _ & Ebb' & Hbb').
    rewrite Hplace in Es. injection Es as <-.
    exists bb'. split; [exact Ebb'|].
    rewrite Hbb', !Z.eqb_refl. cbn [andb]. now rewrite !orb_true_r.
  - intros p sq Hocc. destruct (occupies_inv _ _ _ Hocc) as [Hp2 Hsq2].
    destruct Hocc as (bb & Hbb & Hc).
    destruct (piece_bitboard_place self piece square p sq
                Hwf Hp Hp2 Hsq Hsq2)
      as (s & cb & ptb & bb' & Es & Ecb & Eptb & Ebb' & Hbb').
    rewrite Hplace in Es. injection Es as <-.
    exists bb'. split; [exact Ebb'|]. rewrite Hbb'.
    unfold piece_bitboard in Hbb.
    destruct (color_of_ok p Hp2) as [Ec _].
    destruct (piece_type_of_ok p Hp2) as [Et _].
    rewrite Ec in Hbb. cbn [mbind result_bind] in Hbb. rewrite Ecb in Hbb.
    cbn [mbind result_bind] in Hbb. rewrite Et in Hbb.
    cbn [mbind result_bind] in Hbb. rewrite Eptb in Hbb.
    cbn [mbind result_bind] in Hbb. injection Hbb as <-.
    unfold contains in Hc. rewrite Z.land_spec in Hc.
    apply andb_true_iff in Hc. destruct Hc as [Hcb Hptb].
    unfold contains. now rewrite Hcb, Hptb.
Qed.

(** One step of the loop over a rank string. *)
Lemma place_char_inv (rank file file' : Z) (self self' : Bitboards)
    (ch : ascii) :
  well_formed self -> 0 <= file -> is_member Rank rank = true ->
  place_char rank (file, self) ch = Ok (file', self') ->
  well_formed self' /\ 0 <= file' /\
  (forall p sq, occupies self p sq -> occupies self' p sq) /\
  if isdigit ch then file' = file + (code ch - 48)
  else file' = file + 1 /\
       (file < 8 ->
        exists piece, getattr Piece (String ch "") = Ok (Member piece) /\
                      occupies self' piece (squareFrom file rank)).
Proof.
  intros Hwf Hfile Hrank H. unfold place_char in H.
  destruct (isdigit ch) eqn:Hd.
  - destruct (int (String ch "")) as [n|] eqn:Hn; [|discriminate].
    cbn [mbind result_bind] in H. injection H as <- <-.
    destruct (int_digit_char ch n Hd Hn) as [-> Hn0].
    repeat split; try apply Hwf; auto; lia.
  - rewrite getattr_char in H.
    destruct (assoc _ (members Piece)) as [piece|] eqn:Ha; [|discriminate].
    cbn [mbind result_bind] in H.
    destruct (square_from file rank) as [square|] eqn:Hsq; [|discriminate].
    cbn [mbind result_bind] in H.
    destruct (place self piece square) as [s|] eqn:Hplace; [|discriminate].
    cbn [mbind result_bind] in H. injection H as <- <-.
    pose proof (assoc_is_member _ _ _ Ha) as Hp.
    assert (Hsq0 : 0 <= square).
    { apply call_inv in Hsq. destruct Hsq as [-> Hm].
      apply is_member_Square in Hm. lia. }
    destruct (place_occupies self s piece square Hwf Hp Hsq0 Hplace)
      as [Hocc Hmono].
    split; [exact (place_well_formed _ _ _ _ Hwf Hplace)|].
    split; [lia|]. split; [exact Hmono|]. split; [reflexivity|].
    intros Hlt. exists piece. rewrite getattr_char, Ha.
    split; [reflexivity|].
    apply is_member_Rank in Hrank.
    rewrite square_from_spec in Hsq by lia. now injection Hsq as <-.
Qed.

(** The loop over a rank string. *)
Lemma place_chars_inv (rank : Z) (cs : list ascii) :
  is_member Rank rank = true ->
  forall file file' self self',
    well_formed self -> 0 <= file ->
    foldM (place_char rank) (file, self) cs = Ok (file', self') ->
    well_formed self' /\
    (forall p sq, occupies self p sq -> occupies self' p sq) /\
    (forall c ch, In (c, ch) (letters_from file cs) -> c < 8 ->
       exists piece, getattr Piece (String ch "") = Ok (Member piece) /\
                     occupies self' piece (squareFrom c rank)).
Proof.
  intros Hrank. induction cs as [|ch cs IH];
    intros file file' self self' Hwf Hfile H.
  - injection H as <- <-. repeat split; try apply Hwf; auto.
    intros c ch [].
  - cbn [foldM] in H.
    destruct (place_char rank (file, self) ch) as [[file1 self1]|] eqn:Hstep;
      [|discriminate].
    cbn [mbind result_bind] in H.
    destruct (place_char_inv _ _ _ _ _ _ Hwf Hfile Hrank Hstep)
      as (Hwf1 & Hfile1 & Hmono1 & Hcase).
    destruct (IH _ _ _ _ Hwf1 Hfile1 H) as (Hwf' & Hmono' & Hletters).
    split; [exact Hwf'|]. split; [auto|].
    intros c ch' Hin Hc. cbn [letters_from] in Hin.
    destruct (isdigit ch).
    + subst file1. now apply Hletters.
    + destruct Hcase as [-> Hhere].
      destruct Hin as [[= <- <-]|Hin]; [|now apply Hletters].
      destruct (Hhere Hc) as (piece & Hg & Hocc).
      exists piece. split; [exact Hg | now apply Hmono'].
Qed.

Lemma place_rank_inv (rank : Z) (r : string) (self self' : Bitboards) :
  is_member Rank rank = true -> well_formed self ->
  place_rank self (rank, r) = Ok self' ->
  well_formed self' /\
  (forall p sq, occupies self p sq -> occupies self' p sq) /\
  (forall c ch, In (c, ch) (letters_of r) -> c < 8 ->
     exists piece, getattr Piece (String ch "") = Ok (Member piece) /\
                   occupies self' piece (squareFrom c rank)).
Proof.
  intros Hrank Hwf H. unfold place_rank in H.
  destruct (foldM _ _ _) as [[file' s]|] eqn:Hfold; [|discriminate].
  cbn [mbind result_bind snd] in H. injection H as <-.
  exact (place_chars_inv rank _ Hrank 0 file' self s Hwf (Z.le_refl 0) Hfold).
Qed.

(** The loop over the pairs of a rank and a rank string. *)
Lemma place_ranks_inv (l : list (Z * string)) :
  (forall rank r, In (rank, r) l -> is_member Rank rank = true) ->
  forall self self',
    well_formed self -> foldM place_rank self l = Ok self' ->
    well_formed self' /\
    (forall p sq, occupies self p sq -> occupies self' p sq) /\
    (forall rank r c ch,
        In (rank, r) l -> In (c, ch) (letters_of r) -> c < 8 ->
        exists piece, getattr Piece (String ch "") = Ok (Member piece) /\
                      occupies self' piece (squareFrom c rank)).
Proof.
  induction l as [|[rank r] l IH]; intros Hranks self self' Hwf H.
  - injection H as <-. repeat split; try apply Hwf; auto.
    intros ? ? ? ? [].
  - cbn [foldM] in H.
    destruct (place_rank self (rank, r)) as [self1|] eqn:Hstep;
      [|discriminate].
    cbn [mbind result_bind] in H.
    assert (Hrank : is_member Rank rank = true)
      by (apply (Hranks rank r); now left).
    destruct (place_rank_inv _ _ _ _ Hrank Hwf Hstep)
      as (Hwf1 & Hmono1 & Hhere).
    destruct (IH (fun k s Hin => Hranks k s (or_intror Hin)) _ _ Hwf1 H)
      as (Hwf' & Hmono' & Hrest).
    split; [exact Hwf'|]. split; [auto|].
    intros rank' r' c ch [[= <- <-]|Hin] Hl Hc.
    + destruct (Hhere c ch Hl Hc) as (piece & Hg & Hocc).
      exists piece. split; [exact Hg | now apply Hmono'].
    + now apply (Hrest rank' r').
Qed.

(** The i-th rank string is paired with the rank of ordinal i. *)
Lemma In_combine_range (n start i : nat) (rs : list string) (r : string) :
  rs !! i = Some r -> (i < n)%nat ->
  In (Z.of_nat (start + i), r) (combine (map Z.of_nat (seq start n)) rs).
Proof.
  revert start i rs. induction n as [|n IH]; intros start i rs Hr Hi; [lia|].
  destruct rs as [|r0 rs]; [discriminate|]. cbn [seq map combine].
  destruct i as [|i].
  - injection Hr as ->. left. now rewrite Nat.add_0_r.
  - right. replace (start + S i)%nat with (S start + i)%nat by lia.
    apply IH; [exact Hr | lia].
Qed.

Lemma init_fields_bitboards pp stm ca ep hc fc board :
  init_fields pp stm ca ep hc fc = Ok board ->
  place_all pp = Ok (bitboards board).
Proof.
  unfold init_fields. intros H.
  destruct (place_all pp) as [bbs|]; [|discriminate].
  cbn [mbind result_bind] in H.
  destruct (getattr Color stm); [|discriminate].
  cbn [mbind result_bind] in H.
  destruct (parse_castling ca); [|discriminate].
  cbn [mbind result_bind] in H.
  destruct (parse_en_passant ep); [|discriminate].
  cbn [mbind result_bind] in H.
  destruct (int hc); [|discriminate]. cbn [mbind result_bind] in H.
  destruct (int fc); [|discriminate]. cbn [mbind result_bind] in H.
  now injection H as <-.
Qed.

(** C3, as the code has it.  The number of rank strings is not checked: the
    bitboards depend on the first eight rank strings of the piece placement
    only.  In an accepted FEN string the i-th rank string from the top, for
    i below 8, is read for the rank of ordinal i: each of its piece letters
    read with the file cursor on a file c of the board (c below 8) is the
    name of a piece, and that piece is on the square of file c and rank i of
    the board. *)
Theorem placement_rank_strings :
  (forall pp pp',
      firstn 8 (split_on "/" pp) = firstn 8 (split_on "/" pp') ->
      place_all pp = place_all pp') /\
  (forall fen pp stm ca ep hc fc board,
      split fen = [pp; stm; ca; ep; hc; fc] ->
      Board_init fen = Ok board ->
      forall (i : nat) r c ch,
        (i < 8)%nat -> split_on "/" pp !! i = Some r ->
        In (c, ch) (letters_of r) -> c < 8 ->
        exists piece,
          getattr Piece (String ch "") = Ok (Member piece) /\
          occupies board piece (squareFrom c (Z.of_nat i)) /\
          rankOf (squareFrom c (Z.of_nat i)) = Z.of_nat i).
Proof.
  split.
  - intros pp pp' H. unfold place_all.
    rewrite (combine_firstn_l (values Rank) (split_on "/" pp)).
    rewrite (combine_firstn_l (values Rank) (split_on "/" pp')).
    change (length (values Rank)) with 8%nat. now rewrite H.
  - intros fen pp stm ca ep hc fc board Hsplit Hinit i r c ch Hi Hr Hin Hc.
    rewrite (Board_init_fields _ _ _ _ _ _ _ Hsplit) in Hinit.
    apply init_fields_bitboards in Hinit. unfold place_all in Hinit.
    assert (Hc0 : 0 <= c).
    { unfold letters_of in Hin. revert Hin.
      generalize (list_ascii_of_string r). generalize (Z.le_refl 0).
      generalize 0 at 2 3. intros file Hfile cs. revert file Hfile.
      induction cs as [|x cs IH]; intros file Hfile; [intros []|].
      cbn [letters_from]. destruct (isdigit x) eqn:Hx.
      - apply IH. unfold isdigit, isdecimal in Hx.
        assert (48 <= code x) by
          (destruct (Z.leb_spec 48 (code x)); [assumption|];
           destruct (Z.eqb_spec (code x) 178); [lia|];
           destruct (Z.eqb_spec (code x) 179); [lia|];
           destruct (Z.eqb_spec (code x) 185); [lia|]; discriminate).
        lia.
      - intros [[= <- _]|Hin]; [exact Hfile|]. apply (IH (file + 1)); [lia|exact Hin]. }
    destruct (place_ranks_inv (combine (values Rank) (split_on "/" pp)))
      with (self := empty_bitboards) (self' := bitboards board)
      as (_ & _ & Hall).
    + intros rank r' Hpair. apply in_combine_l in Hpair.
      apply is_member_Rank.
      change (values Rank) with (range 8) in Hpair.
      now apply In_range in Hpair.
    + split; reflexivity.
    + exact Hinit.
    + destruct (Hall (Z.of_nat i) r c ch) as (piece & Hg & Hocc);
        try assumption.
      * exact (In_combine_range 8 0 i _ r Hr Hi).
      * exists piece. split; [exact Hg|]. split; [exact Hocc|].
        unfold rankOf, squareFrom.
        rewrite Z.div_add_l by lia. rewrite Z.div_small by lia. lia.
Qed.

Lemma placement_rank_strings_witness :
  place_all "8/8/8/8/8/8/8/1k6/R7/zz" = place_all "8/8/8/8/8/8/8/1k6" /\
  exists board piece,
    Board_init "8/8/8/8/8/8/8/1k6 w - - 0 1" = Ok board /\
    getattr Piece "k" = Ok (Member piece) /\
    occupies board piece (squareFrom 1 7) /\
    rankOf (squareFrom 1 7) = 7.
Proof.
  destruct placement_rank_strings as [Hfirst Hranks]. split.
  - apply Hfirst. reflexivity.
  - assert (Hb : exists board,
               Board_init "8/8/8/8/8/8/8/1k6 w - - 0 1" = Ok board)
      by (vm_compute; eexists; reflexivity).
    destruct Hb as [board Hb].
    destruct (Hranks "8/8/8/8/8/8/8/1k6 w - - 0 1" "8/8/8/8/8/8/8/1k6"
                     "w" "-" "-" "0" "1" board eq_refl Hb
                     7%nat "1k6" 1 "k"%char)
      as (piece & Hg & Hocc & Hrank).
    + lia.
    + reflexivity.
    + vm_compute. left. reflexivity.
    + lia.
    + exists board, piece. repeat split; assumption.
Defined.

(** C3, as the claim words it, fails: a piece placement of two rank strings
    is accepted, and a rank string whose cursor has left the board places
    its piece on another rank (the first rank string 8P puts the pawn on a7,
    on the rank of ordinal 1). *)
Lemma placement_rank_count_unchecked :
  (exists board, Board_init "8/8 w - - 0 1" = Ok board) /\
  split "8/8 w - - 0 1" = ["8/8"; "w"; "-"; "-"; "0"; "1"] /\
  length (split_on "/" "8/8") = 2%nat /\
  (exists board,
      Board_init "8P/8/8/8/8/8/8/8 w - - 0 1" = Ok board /\
      piece_bitboard board (member Piece "P")
      = Ok (Z.shiftl 1 (member Square "a7")) /\
      rank_of (member Square "a7") = Ok 1).
Proof.
  split; [eexists; vm_compute; reflexivity|].
  split; [reflexivity|]. split; [reflexivity|].
  eexists. split; [vm_compute; reflexivity|]. split; reflexivity.
Qed.

(** * Further properties of the code *)

(** ** Pieces *)

(** X1.  A piece is made of its type and its colour: [piece_from] of
    [piece_type_of] and [color_of] gives back every piece, and the type and
    the colour of [piece_from(t, c)] are [t] and [c] for every piece type
    and colour; none of the three raises there. *)
Theorem piece_from_type_color :
  (forall piece,
      is_member Piece piece = true ->
      (t ← piece_type_of piece; c ← color_of piece; piece_from t c)
      = Ok piece) /\
  (forall t c,
      is_member PieceType t = true -> is_member Color c = true ->
      exists piece,
        piece_from t c = Ok piece /\
        piece_type_of piece = Ok t /\ color_of piece = Ok c).
Proof.
  split.
  - intros piece Hp.
    destruct (piece_type_of_ok piece Hp) as [-> _].
    destruct (color_of_ok piece Hp) as [-> _]. cbn [mbind result_bind].
    unfold piece_from. apply is_member_Piece in Hp.
    replace (piece / 6 * 6 + piece mod 6) with piece
      by (pose proof (Z.div_mod piece 6); lia).
    apply call_ok. now apply is_member_Piece.
  - intros t c Ht Hc. apply is_member_PieceType in Ht.
    apply is_member_Color in Hc. exists (c * 6 + t).
    assert (Hp : is_member Piece (c * 6 + t) = true)
      by (apply is_member_Piece; lia).
    split; [now apply call_ok|].
    destruct (piece_type_of_ok _ Hp) as [-> _].
    destruct (color_of_ok _ Hp) as [-> _].
    split; f_equal.
    + rewrite Z.add_comm, Z.mod_add by lia. apply Z.mod_small. lia.
    + rewrite Z.add_comm, Z.div_add by lia. rewrite Z.div_small by lia. lia.
Qed.

Lemma piece_from_type_color_witness :
  (t ← piece_type_of 9; c ← color_of 9; piece_from t c) = Ok 9 /\
  exists piece, piece_from 3 1 = Ok piece /\
                piece_type_of piece = Ok 3 /\ color_of piece = Ok 1.
Proof.
  destruct piece_from_type_color as [H1 H2]. split.
  - apply (H1 9). reflexivity.
  - apply (H2 3 1); reflexivity.
Defined.

(** X2.  The name of a piece is the letter of its type: in upper case for a
    white piece, as it is for a black one. *)
Theorem piece_name_of_type_and_color (t c piece : Z) (n : string) :
  is_member PieceType t = true -> is_member Color c = true ->
  piece_from t c = Ok piece -> name PieceType t = Ok n ->
  name Piece piece = Ok (if c =? member Color "w" then upper_string n else n).
Proof.
  intros Ht Hc Hp Hn. apply is_member_PieceType in Ht.
  apply is_member_Color in Hc.
  assert (Hcs : c = 0 \/ c = 1) by lia.
  assert (Hts : t = 0 \/ t = 1 \/ t = 2 \/ t = 3 \/ t = 4 \/ t = 5) by lia.
  destruct Hcs as [-> | ->];
    destruct Hts as [-> | [-> | [-> | [-> | [-> | ->]]]]];
    vm_compute in Hp, Hn; injection Hp as <-; injection Hn as <-;
    reflexivity.
Qed.

Lemma piece_name_of_type_and_color_witness :
  name Piece 3 = Ok "R".
Proof.
  exact (piece_name_of_type_and_color 3 0 3 "r" eq_refl eq_refl eq_refl
                                      eq_refl).
Defined.

(** ** Names and members *)

Lemma names_roundtrip_sound (cls : EnumClass) :
  names_roundtrip cls = true ->
  forall n v, In (n, v) (members cls) ->
              name cls v = Ok n /\ getattr cls n = Ok (Member v).
Proof.
  intros H n v Hin. unfold names_roundtrip in H.
  rewrite forallb_forall in H. specialize (H (n, v) Hin).
  cbn [fst snd] in H. apply andb_true_iff in H. destruct H as [Hn Hg].
  split.
  - destruct (name cls v) as [m|]; [|discriminate].
    apply String.eqb_eq in Hn. now subst.
  - destruct (getattr cls n) as [[w|]|]; try discriminate.
    apply Z.eqb_eq in Hg. now subst.
Qed.

Lemma name_in_In (v : Z) (l : list (string * Z)) (n : string) :
  name_in v l = Some n -> In (n, v) l.
Proof.
  induction l as [|[m w] l IH]; [discriminate|]. cbn [name_in].
  destruct (Z.eqb_spec v w) as [->|_].
  - intros [= ->]. now left.
  - intros H. right. auto.
Qed.

Lemma assoc_In (n : string) (l : list (string * Z)) (v : Z) :
  assoc n l = Some v -> In (n, v) l.
Proof.
  induction l as [|[m w] l IH]; [discriminate|]. cbn [assoc].
  destruct (String.eqb_spec n m) as [->|_].
  - intros [= ->]. now left.
  - intros H. right. auto.
Qed.

(** X3.  In every class of the file a member and its name determine each
    other: looking up the name of a member gives the member, and the name of
    the member that a lookup finds is the name looked up.  So no two members
    of a class share a name or a value. *)
Theorem name_getattr_roundtrip (cls : EnumClass) :
  In cls [Square; Bitboard; File; Rank; PieceType; Color; Piece;
          CastlingSide; Castling; CastlingAbility; MoveFlag] ->
  forall n v,
    (name cls v = Ok n -> getattr cls n = Ok (Member v)) /\
    (getattr cls n = Ok (Member v) -> name cls v = Ok n).
Proof.
  intros Hcls.
  assert (Hrt : names_roundtrip cls = true).
  { cbn [In] in Hcls.
    repeat (destruct Hcls as [<-|Hcls]; [vm_compute; reflexivity|]).
    destruct Hcls. }
  intros n v. split.
  - unfold name. destruct (name_in v (members cls)) as [m|] eqn:Hm;
      [|discriminate].
    intros [= ->]. apply name_in_In in Hm.
    now apply (names_roundtrip_sound cls Hrt n v).
  - unfold getattr. destruct (assoc n (members cls)) as [w|] eqn:Hw.
    + intros [= ->]. apply assoc_In in Hw.
      now apply (names_roundtrip_sound cls Hrt n v).
    + destruct (is_inherited n); discriminate.
Qed.

Lemma name_getattr_roundtrip_witness :
  (name Square 36 = Ok "e4" -> getattr Square "e4" = Ok (Member 36)) /\
  (getattr Square "e4" = Ok (Member 36) -> name Square 36 = Ok "e4").
Proof.
  apply (name_getattr_roundtrip Square). left. reflexivity.
Defined.

(** ** Bitboards of one square *)

(** X4.  For every square, [bitboard_from] returns the member of [Bitboard]
    that has the name of the square, and that bitboard contains this square
    and no other. *)
Theorem bitboard_from_square (square : Z) :
  is_member Square square = true ->
  exists bb n,
    bitboard_from square = Ok bb /\
    name Square square = Ok n /\ name Bitboard bb = Ok n /\
    forall sq, is_member Square sq = true ->
               contains bb sq = (sq =? square).
Proof.
  intros Hs. pose proof (proj1 (is_member_Square square) Hs) as Hr.
  destruct (name_Square_ok square Hs) as [n Hn].
  exists (Z.shiftl 1 square), n. repeat split.
  - unfold bitboard_from. destruct (Z.ltb_spec square 0); [lia|reflexivity].
  - exact Hn.
  - assert (H : results_agree (name Square square)
                              (name Bitboard (Z.shiftl 1 square)) = true).
    { apply (forall_range
               (fun s => results_agree (name Square s)
                                       (name Bitboard (Z.shiftl 1 s))) 64);
        [vm_compute; reflexivity | exact Hr]. }
    rewrite Hn in H.
    destruct (name Bitboard (Z.shiftl 1 square)) as [m|]; [|discriminate].
    apply String.eqb_eq in H. now subst.
  - intros sq Hsq. apply is_member_Square in Hsq.
    rewrite contains_singleton by lia. apply Z.eqb_sym.
Qed.

Lemma bitboard_from_square_witness :
  exists bb n,
    bitboard_from 44 = Ok bb /\
    name Square 44 = Ok n /\ name Bitboard bb = Ok n /\
    forall sq, is_member Square sq = true -> contains bb sq = (sq =? 44).
Proof. apply (bitboard_from_square 44). reflexivity. Defined.

(** ** Castling *)

(** X5.  For every castling side and colour, [castling_from] returns
    [color*2 + side], and [castling_ability_from] of that castling is the
    flag of [CastlingAbility] that has its name; neither raises. *)
Theorem castling_from_ability (side color : Z) :
  is_member CastlingSide side = true -> is_member Color color = true ->
  exists n,
    castling_from side color = Ok (color * 2 + side) /\
    castling_ability_from (color * 2 + side)
    = Ok (Z.shiftl 1 (color * 2 + side)) /\
    name Castling (color * 2 + side) = Ok n /\
    name CastlingAbility (Z.shiftl 1 (color * 2 + side)) = Ok n.
Proof.
  intros Hs Hc. apply (is_member_range CastlingSide 2) in Hs; [|reflexivity].
  apply is_member_Color in Hc.
  assert (Hss : side = 0 \/ side = 1) by lia.
  assert (Hcs : color = 0 \/ color = 1) by lia.
  destruct Hss as [-> | ->]; destruct Hcs as [-> | ->];
    eexists; repeat split; vm_compute; reflexivity.
Qed.

Lemma castling_from_ability_witness :
  exists n,
    castling_from 1 1 = Ok (1 * 2 + 1) /\
    castling_ability_from (1 * 2 + 1) = Ok (Z.shiftl 1 (1 * 2 + 1)) /\
    name Castling (1 * 2 + 1) = Ok n /\
    name CastlingAbility (Z.shiftl 1 (1 * 2 + 1)) = Ok n.
Proof. apply (castling_from_ability 1 1); reflexivity. Defined.

(** ** Squares off the board *)

(** [square_from] raises when the file is not one of 0..63. *)
Lemma square_from_raises (file rank : Z) :
  0 <= rank < 8 -> ~ 0 <= file < 64 ->
  square_from file rank
  = Raise (ValueError_enum (Z.lor (Z.shiftl rank 3) file)).
Proof.
  intros Hrank Hfile. unfold square_from, call.
  replace (is_member Square (Z.lor (Z.shiftl rank 3) file)) with false;
    [reflexivity|].
  symmetry. apply not_true_iff_false. intros Hm.
  apply is_member_Square in Hm. apply Hfile.
  assert (Hsh : 0 <= Z.shiftl rank 3) by (apply Z.shiftl_nonneg; lia).
  assert (H0 : 0 <= file).
  { destruct (Z.le_gt_cases 0 file) as [H|H]; [exact H|].
    assert (Z.lor (Z.shiftl rank 3) file < 0)
      by (apply Z.lor_neg; now right).
    lia. }
  split; [exact H0|].
  destruct (Z.lt_ge_cases file 64) as [H|H]; [exact H|].
  assert (Hlog : 6 <= Z.log2 (Z.lor (Z.shiftl rank 3) file)).
  { rewrite Z.log2_lor by assumption.
    assert (Z.log2 64 <= Z.log2 file) by (apply Z.log2_le_mono; lia).
    change (Z.log2 64) with 6 in *. lia. }
  assert (Hpow : 2 ^ 6 <= Z.lor (Z.shiftl rank 3) file).
  { apply Z.log2_le_pow2; [|exact Hlog].
    destruct (Z.eq_dec (Z.lor (Z.shiftl rank 3) file) 0) as [E|E]; [|lia].
    rewrite E in Hlog. change (Z.log2 0) with 0 in Hlog. lia. }
  change (2 ^ 6) with 64 in Hpow. lia.
Qed.

(** X6.  [square_from] checks the square, not the file: on a rank of the
    board it returns a square for every file from 0 to 63 and raises for
    every other file.  For a file from 8 to 63 the square is on another
    rank than the one given when [file div 8] has a bit that the rank has
    not: its file is [file mod 8] and its rank is [rank | file div 8]. *)
Theorem square_from_any_file (file rank : Z) :
  is_member Rank rank = true ->
  (0 <= file < 64 ->
   exists sq, square_from file rank = Ok sq /\
              file_of sq = Ok (file mod 8) /\
              rank_of sq = Ok (Z.lor rank (file / 8))) /\
  (~ 0 <= file < 64 ->
   square_from file rank
   = Raise (ValueError_enum (Z.lor (Z.shiftl rank 3) file))).
Proof.
  intros Hrank. apply is_member_Rank in Hrank. split.
  - intros Hfile.
    assert (H : wraps_to file rank = true).
    { pose (P := fun r => forallb (fun f => wraps_to f r) (range 64)).
      assert (HP : forallb P (range 8) = true) by (vm_compute; reflexivity).
      pose proof (forall_range P 8 HP rank Hrank) as Hr. unfold P in Hr.
      exact (forall_range _ 64 Hr file Hfile). }
    unfold wraps_to in H.
    destruct (square_from file rank) as [sq|]; [|discriminate].
    apply andb_true_iff in H. destruct H as [Hf Hr].
    exists sq. split; [reflexivity|].
    split; now apply result_eqb_eq.
  - now apply square_from_raises.
Qed.

Lemma square_from_any_file_witness :
  (exists sq, square_from 9 2 = Ok sq /\
              file_of sq = Ok (9 mod 8) /\
              rank_of sq = Ok (Z.lor 2 (9 / 8))) /\
  square_from 64 2 = Raise (ValueError_enum (Z.lor (Z.shiftl 2 3) 64)).
Proof.
  split.
  - apply (proj1 (square_from_any_file 9 2 eq_refl)). lia.
  - apply (proj2 (square_from_any_file 64 2 eq_refl)). lia.
Defined.

(** ** The clocks *)

Lemma int_digits_acc (l : Decimal.uint) (acc : positive) :
  int_digits (Z.pos acc) true (NilEmpty.string_of_uint l)
  = Some (Z.pos (Pos.of_uint_acc l acc)).
Proof.
  revert acc. induction l as [|l IH|l IH|l IH|l IH|l IH|l IH|l IH|l IH|l IH|l IH];
    intros acc; cbn [NilEmpty.string_of_uint Pos.of_uint_acc];
    [reflexivity|..];
    cbn [int_digits];
    match goal with
    | |- context [isdecimal ?c] => change (isdecimal c) with true
    end; cbv iota;
    match goal with
    | |- int_digits ?a true _ = Some (Z.pos (Pos.of_uint_acc _ ?b)) =>
        replace a with (Z.pos b) by (unfold code; cbn; lia)
    end; apply IH.
Qed.

Lemma int_digits_uint (d : Decimal.uint) (b : bool) :
  d <> Decimal.Nil \/ b = true ->
  int_digits 0 b (NilEmpty.string_of_uint d) = Some (Z.of_N (Pos.of_uint d)).
Proof.
  revert b. induction d as [|l IH|l IH|l IH|l IH|l IH|l IH|l IH|l IH|l IH|l IH];
    intros b Hb; cbn [NilEmpty.string_of_uint Pos.of_uint].
  - destruct Hb as [Hb | ->]; [now destruct Hb | reflexivity].
  - cbn [int_digits]. change (isdecimal "0") with true. cbv iota.
    change (10 * 0 + (code "0" - 48)) with 0. apply IH. now right.
  - exact (int_digits_acc l 1).
  - exact (int_digits_acc l 2).
  - exact (int_digits_acc l 3).
  - exact (int_digits_acc l 4).
  - exact (int_digits_acc l 5).
  - exact (int_digits_acc l 6).
  - exact (int_digits_acc l 7).
  - exact (int_digits_acc l 8).
  - exact (int_digits_acc l 9).
Qed.

Lemma int_unsigned (d : Decimal.uint) :
  d <> Decimal.Nil ->
  int (NilEmpty.string_of_uint d) = Ok (Z.of_N (Pos.of_uint d)).
Proof.
  intros Hd. pose proof (int_digits_uint d false (or_introl Hd)) as H.
  destruct d; [now destruct Hd|..];
    cbn [NilEmpty.string_of_uint] in *; unfold int; cbv iota; now rewrite H.
Qed.

(** [int] reads what [str] writes. *)
Lemma int_str (z : Z) : int (str z) = Ok z.
Proof.
  destruct z as [|p|p]; [reflexivity|..]; unfold str; cbn [Z.to_int].
  - pose proof (DecimalPos.Unsigned.to_uint_nonnil p) as Hn.
    cbn [NilZero.string_of_int]. unfold NilZero.string_of_uint.
    assert (H : int (NilEmpty.string_of_uint (Pos.to_uint p)) = Ok (Z.pos p)).
    { rewrite int_unsigned by assumption.
      now rewrite DecimalPos.Unsigned.of_to. }
    destruct (Pos.to_uint p); [now destruct Hn|..]; exact H.
  - pose proof (DecimalPos.Unsigned.to_uint_nonnil p) as Hn.
    cbn [NilZero.string_of_int]. unfold NilZero.string_of_uint, int.
    assert (H : int_digits 0 false (NilEmpty.string_of_uint (Pos.to_uint p))
                = Some (Z.pos p)).
    { rewrite int_digits_uint by now left.
      now rewrite DecimalPos.Unsigned.of_to. }
    destruct (Pos.to_uint p) eqn:E; [now destruct Hn|..];
      rewrite <- E in *; rewrite H; reflexivity.
Qed.

Lemma uint_spaceless (d : Decimal.uint) :
  spaceless (NilEmpty.string_of_uint d) = true.
Proof. induction d; cbn [NilEmpty.string_of_uint spaceless]; auto. Qed.

(** The text of a number is one field: it is not empty and has no white
    space. *)
Lemma str_word (z : Z) : word (str z) = true.
Proof.
  unfold word, str, NilZero.string_of_int, NilZero.string_of_uint.
  destruct z as [|p|p]; [reflexivity|..]; cbn [Z.to_int];
    pose proof (DecimalPos.Unsigned.to_uint_nonnil p) as Hn;
    pose proof (uint_spaceless (Pos.to_uint p)) as Hs;
    destruct (Pos.to_uint p); try (now destruct Hn);
    cbn [is_empty negb andb spaceless NilEmpty.string_of_uint] in *;
    exact Hs.
Qed.

(** ** What [place] changes *)

(** The bitboard of a piece before and after [place], square by square. *)
Lemma occupies_place_iff (self self' : Bitboards) (piece square p sq : Z) :
  well_formed self -> is_member Piece piece = true -> 0 <= square ->
  place self piece square = Ok self' ->
  is_member Piece p = true -> 0 <= sq ->
  exists cb ptb,
    get_at (color_bitboards self) (p / 6) = Ok cb /\
    get_at (piece_type_bitboards self) (p mod 6) = Ok ptb /\
    (occupies self p sq <-> contains cb sq && contains ptb sq = true) /\
    (occupies self' p sq <->
     (contains cb sq || ((piece / 6 =? p / 6) && (square =? sq)))
     && (contains ptb sq || ((piece mod 6 =? p mod 6) && (square =? sq)))
     = true).
Proof.
  intros Hwf Hpiece Hsquare Hplace Hp Hsq.
  destruct (piece_bitboard_place self piece square p sq
              Hwf Hpiece Hp Hsquare Hsq)
    as (s & cb & ptb & bb' & Es & Ecb & Eptb & Ebb' & Hbb').
  rewrite Hplace in Es. injection Es as <-.
  exists cb, ptb. split; [exact Ecb|]. split; [exact Eptb|].
  assert (Ebb : piece_bitboard self p = Ok (Z.land cb ptb)).
  { unfold piece_bitboard.
    destruct (color_of_ok p Hp) as [-> _].
    destruct (piece_type_of_ok p Hp) as [-> _].
    cbn [mbind result_bind]. rewrite Ecb. cbn [mbind result_bind].
    now rewrite Eptb. }
  split.
  - unfold occupies. rewrite Ebb. split.
    + intros (bb & [= <-] & Hc). unfold contains in *.
      now rewrite Z.land_spec in Hc.
    + intros Hc. eexists. split; [reflexivity|]. unfold contains in *.
      now rewrite Z.land_spec.
  - unfold occupies. rewrite Ebb'. split.
    + intros (bb & [= <-] & Hc). now rewrite <- Hbb'.
    + intros Hc. eexists. split; [reflexivity|]. now rewrite Hbb'.
Qed.

(** X8.  [place] on a board with its six and two bitboards touches one
    square only: on every other square each piece is there afterwards
    exactly when it was before; and on the square itself nothing is
    removed. *)
Theorem place_changes_one_square (self self' : Bitboards) (piece square : Z) :
  well_formed self ->
  is_member Piece piece = true -> is_member Square square = true ->
  place self piece square = Ok self' ->
  (forall p sq, sq <> square -> occupies self' p sq <-> occupies self p sq) /\
  (forall p, occupies self p square -> occupies self' p square) /\
  occupies self' piece square.
Proof.
  intros Hwf Hpiece Hsquare Hplace.
  apply is_member_Square in Hsquare.
  assert (Hsq0 : 0 <= square) by lia.
  destruct (place_occupies self self' piece square Hwf Hpiece Hsq0 Hplace)
    as [Hocc Hmono].
  split; [|split; [intros p; apply Hmono | exact Hocc]].
  intros p sq Hne.
  assert (Hiff : is_member Piece p = true -> 0 <= sq ->
                 (occupies self' p sq <-> occupies self p sq)).
  { intros Hp Hsq.
    destruct (occupies_place_iff self self' piece square p sq
                Hwf Hpiece Hsq0 Hplace Hp Hsq)
      as (cb & ptb & _ & _ & Hold & Hnew).
    rewrite Hold, Hnew.
    destruct (Z.eqb_spec square sq) as [->|_]; [now destruct Hne|].
    now rewrite !andb_false_r, !orb_false_r. }
  split; intros H; destruct (occupies_inv _ _ _ H) as [Hp Hsq];
    now apply (Hiff Hp Hsq).
Qed.

Lemma place_changes_one_square_witness :
  exists self',
    place empty_bitboards 7 20 = Ok self' /\
    (forall p sq, sq <> 20 ->
                  occupies self' p sq <-> occupies empty_bitboards p sq) /\
    (forall p, occupies empty_bitboards p 20 -> occupies self' p 20) /\
    occupies self' 7 20.
Proof.
  eexists. split; [vm_compute; reflexivity|].
  apply (place_changes_one_square empty_bitboards _ 7 20);
    [split; reflexivity | reflexivity | reflexivity | vm_compute; reflexivity].
Defined.

(** X9.  [place] does not look for a piece already on the square.  When a
    piece of another colour and another type is there, the square ends up
    in four piece bitboards: those of the two pieces and those of the two
    pieces that have the colour of one and the type of the other. *)
Theorem place_on_occupied_square (self self' : Bitboards)
    (piece other square : Z) :
  well_formed self ->
  is_member Piece piece = true -> is_member Square square = true ->
  occupies self other square ->
  place self piece square = Ok self' ->
  occupies self' piece square /\ occupies self' other square /\
  occupies self' (other / 6 * 6 + piece mod 6) square /\
  occupies self' (piece / 6 * 6 + other mod 6) square.
Proof.
  intros Hwf Hpiece Hsquare Hother Hplace.
  apply is_member_Square in Hsquare.
  assert (Hsq0 : 0 <= square) by lia.
  destruct (occupies_inv _ _ _ Hother) as [Ho _].
  destruct (place_occupies self self' piece square Hwf Hpiece Hsq0 Hplace)
    as [Hocc Hmono].
  split; [exact Hocc|]. split; [now apply Hmono|].
  pose proof (proj1 (is_member_Piece piece) Hpiece) as Rp.
  pose proof (proj1 (is_member_Piece other) Ho) as Ro.
  assert (Rpm : 0 <= piece mod 6 < 6) by (apply Z.mod_pos_bound; lia).
  assert (Rom : 0 <= other mod 6 < 6) by (apply Z.mod_pos_bound; lia).
  assert (Rpd : 0 <= piece / 6 < 2)
    by (split; [apply Z.div_pos; lia | apply Z.div_lt_upper_bound; lia]).
  assert (Rod : 0 <= other / 6 < 2)
    by (split; [apply Z.div_pos; lia | apply Z.div_lt_upper_bound; lia]).
  destruct (occupies_place_iff self self' piece square other square
              Hwf Hpiece Hsq0 Hplace Ho Hsq0)
    as (cb & ptb & Ecb & Eptb & Hold & _).
  apply Hold in Hother. apply andb_true_iff in Hother.
  destruct Hother as [Hcb Hptb].
  split.
  - assert (Hm : is_member Piece (other / 6 * 6 + piece mod 6) = true)
      by (apply is_member_Piece; lia).
    destruct (occupies_place_iff self self' piece square _ square
                Hwf Hpiece Hsq0 Hplace Hm Hsq0)
      as (cb' & ptb' & Ecb' & _ & _ & Hnew).
    apply Hnew.
    replace ((other / 6 * 6 + piece mod 6) / 6) with (other / 6) in *
      by (rewrite Z.div_add_l by lia; rewrite (Z.div_small (piece mod 6)) by lia; lia).
    replace ((other / 6 * 6 + piece mod 6) mod 6) with (piece mod 6)
      by (rewrite Z.add_comm, Z.mod_add by lia; rewrite Z.mod_mod by lia; reflexivity).
    rewrite Ecb in Ecb'. injection Ecb' as <-.
    rewrite Hcb, !Z.eqb_refl. cbn [andb orb]. now rewrite orb_true_r.
  - assert (Hm : is_member Piece (piece / 6 * 6 + other mod 6) = true)
      by (apply is_member_Piece; lia).
    destruct (occupies_place_iff self self' piece square _ square
                Hwf Hpiece Hsq0 Hplace Hm Hsq0)
      as (cb' & ptb' & _ & Eptb' & _ & Hnew).
    apply Hnew.
    replace ((piece / 6 * 6 + other mod 6) / 6) with (piece / 6)
      by (rewrite Z.div_add_l by lia; rewrite (Z.div_small (other mod 6)) by lia; lia).
    replace ((piece / 6 * 6 + other mod 6) mod 6) with (other mod 6) in *
      by (rewrite Z.add_comm, Z.mod_add by lia; rewrite Z.mod_mod by lia; reflexivity).
    rewrite Eptb in Eptb'. injection Eptb' as <-.
    rewrite Hptb, !Z.eqb_refl. cbn [andb orb]. now rewrite orb_true_r.
Qed.

Lemma place_on_occupied_square_witness :
  exists self1 self',
    place empty_bitboards 0 10 = Ok self1 /\
    place self1 7 10 = Ok self' /\
    occupies self' 7 10 /\ occupies self' 0 10 /\
    occupies self' (0 / 6 * 6 + 7 mod 6) 10 /\
    occupies self' (7 / 6 * 6 + 0 mod 6) 10.
Proof.
  exists {| piece_type_bitboards := [1024; 0; 0; 0; 0; 0];
            color_bitboards := [1024; 0] |}.
  exists {| piece_type_bitboards := [1024; 1024; 0; 0; 0; 0];
            color_bitboards := [1024; 1024] |}.
  split; [reflexivity|]. split; [reflexivity|].
  apply (place_on_occupied_square
           {| piece_type_bitboards := [1024; 0; 0; 0; 0; 0];
              color_bitboards := [1024; 0] |} _ 7 0 10).
  - split; reflexivity.
  - reflexivity.
  - reflexivity.
  - exists 1024. split; reflexivity.
  - reflexivity.
Defined.

(** ** What [__init__] keeps true *)

Lemma foldM_invariant {A B} (I : A -> Prop) (f : A -> B -> result A)
    (l : list B) :
  (forall a b a', I a -> f a b = Ok a' -> I a') ->
  forall a a', I a -> foldM f a l = Ok a' -> I a'.
Proof.
  intros Hstep. induction l as [|b l IH]; intros a a' Ha H.
  - now injection H as <-.
  - cbn [foldM] in H. destruct (f a b) as [a1|] eqn:Hf; [|discriminate].
    cbn [mbind result_bind] in H. apply (IH a1); [|exact H].
    now apply (Hstep a b).
Qed.

(** A step of the loop over a rank string leaves the bitboards as they are
    or places a piece on a square. *)
Lemma place_char_cases (rank file file' : Z) (self self' : Bitboards)
    (ch : ascii) :
  place_char rank (file, self) ch = Ok (file', self') ->
  self' = self \/
  exists piece square,
    is_member Piece piece = true /\ is_member Square square = true /\
    place self piece square = Ok self'.
Proof.
  unfold place_char. destruct (isdigit ch).
  - destruct (int (String ch "")); [|discriminate].
    cbn [mbind result_bind]. intros [= _ <-]. now left.
  - rewrite getattr_char.
    destruct (assoc _ (members Piece)) as [piece|] eqn:Ha; [|discriminate].
    cbn [mbind result_bind].
    destruct (square_from file rank) as [square|] eqn:Hsq; [|discriminate].
    cbn [mbind result_bind].
    destruct (place self piece square) as [s|] eqn:Hplace; [|discriminate].
    cbn [mbind result_bind]. intros [= _ <-]. right.
    exists piece, square. split; [exact (assoc_is_member _ _ _ Ha)|].
    split; [|exact Hplace].
    apply call_inv in Hsq. now destruct Hsq as [-> Hm].
Qed.

(** Whatever [place] keeps true on the pieces and squares of the board is
    true of the bitboards of every board that [__init__] returns. *)
Lemma Board_init_invariant (I : Bitboards -> Prop) :
  I empty_bitboards ->
  (forall self piece square self',
      I self -> is_member Piece piece = true ->
      is_member Square square = true ->
      place self piece square = Ok self' -> I self') ->
  forall fen board, Board_init fen = Ok board -> I board.
Proof.
  intros Hempty Hplace fen board H. unfold Board_init in H.
  destruct (split fen) as [|f1 [|f2 [|f3 [|f4 [|f5 [|f6 [|f7 l]]]]]]];
    try discriminate.
  apply init_fields_bitboards in H. unfold place_all in H.
  apply (foldM_invariant I place_rank
                         (combine (values Rank) (split_on "/" f1)))
    with (a := empty_bitboards); [|exact Hempty|exact H].
  clear H. intros self [rank r] self1 Hself Hrank. unfold place_rank in Hrank.
  destruct (foldM (place_char rank) _ _) as [[file s]|] eqn:Hfold;
    [|discriminate].
  cbn [mbind result_bind snd] in Hrank. injection Hrank as <-.
  refine (foldM_invariant (fun st => I (snd st)) (place_char rank)
                          (list_ascii_of_string r) _
                          (0, self) (file, s) Hself Hfold).
  intros [f0 s0] ch [f1' s1] Hs0 Hstep. cbn [snd] in *.
  destruct (place_char_cases _ _ _ _ _ _ Hstep)
    as [->|(piece & square & Hp & Hsq & Hpl)]; [exact Hs0|].
  exact (Hplace _ _ _ _ Hs0 Hp Hsq Hpl).
Qed.

Lemma union_insert (l : list Z) (i : nat) (x s : Z) :
  l !! i = Some x ->
  union (<[i := Z.lor x s]> l) = Z.lor (union l) s.
Proof.
  revert i. induction l as [|y l IH]; intros i Hi; [discriminate|].
  destruct i as [|i].
  - injection Hi as ->.
    change (Z.lor (Z.lor x s) (union l) = Z.lor (Z.lor x (union l)) s).
    rewrite <- !Z.lor_assoc. f_equal. apply Z.lor_comm.
  - change (Z.lor y (union (<[i := Z.lor x s]> l))
            = Z.lor (Z.lor y (union l)) s).
    rewrite (IH i Hi). now rewrite Z.lor_assoc.
Qed.

Lemma get_at_lookup {A} (l : list A) (i : Z) (x : A) :
  get_at l i = Ok x -> l !! Z.to_nat i = Some x.
Proof.
  unfold get_at. destruct (l !! Z.to_nat i); [|discriminate].
  now intros [= ->].
Qed.

Lemma consistent_place (self self' : Bitboards) (piece square : Z) :
  consistent self -> is_member Piece piece = true ->
  is_member Square square = true ->
  place self piece square = Ok self' -> consistent self'.
Proof.
  intros (Hwf & Heq & Hrange) Hp Hsq Hplace.
  apply is_member_Square in Hsq.
  destruct (place_ok self piece square Hwf Hp) as
    (old_pt & old_c & Eold_pt & Eold_c & Eplace); [lia|].
  rewrite Hplace in Eplace. injection Eplace as ->.
  split; [|cbn [color_bitboards piece_type_bitboards]].
  - destruct Hwf as [H6 H2].
    split; cbn [color_bitboards piece_type_bitboards];
      now rewrite length_insert.
  - rewrite (union_insert _ _ _ _ (get_at_lookup _ _ _ Eold_c)).
    rewrite (union_insert _ _ _ _ (get_at_lookup _ _ _ Eold_pt)).
    split; [now rewrite Heq|].
    assert (Hsb : 0 <= Z.shiftl 1 square) by (apply Z.shiftl_nonneg; lia).
    assert (Hlor : 0 <= Z.lor (union (color_bitboards self))
                              (Z.shiftl 1 square))
      by (apply Z.lor_nonneg; lia).
    split; [exact Hlor|].
    destruct (Z.eq_dec (Z.lor (union (color_bitboards self))
                              (Z.shiftl 1 square)) 0) as [->|Hne]; [lia|].
    apply Z.log2_lt_pow2; [lia|].
    rewrite Z.log2_lor by lia.
    rewrite Z.log2_shiftl by lia. change (Z.log2 1) with 0.
    destruct (Z.eq_dec (union (color_bitboards self)) 0) as [->|Hu].
    + change (Z.log2 0) with 0. lia.
    + assert (Z.log2 (union (color_bitboards self)) < 64)
        by (apply Z.log2_lt_pow2; lia).
      lia.
Qed.

(** X10.  The bitboards of every board that [__init__] returns are
    consistent: there are six bitboards of piece types and two of colours,
    the squares that have a colour are exactly the squares that have a
    piece type, and all of them are among the 64 squares of the board. *)
Theorem Board_init_consistent (fen : string) (board : Board) :
  Board_init fen = Ok board -> consistent board.
Proof.
  apply (Board_init_invariant consistent).
  - split; [split; reflexivity|]. split; [reflexivity|].
    change (union (color_bitboards empty_bitboards)) with 0.
    split; [lia | reflexivity].
  - intros self piece square self'. apply consistent_place.
Qed.

Lemma Board_init_consistent_witness :
  exists board,
    Board_init "r3k2r/8/8/8/8/8/8/R3K2R b Kq d6 3 12" = Ok board /\
    consistent board.
Proof.
  assert (H : exists board,
             Board_init "r3k2r/8/8/8/8/8/8/R3K2R b Kq d6 3 12" = Ok board)
    by (vm_compute; eexists; reflexivity).
  destruct H as [board H]. exists board. split; [exact H|].
  exact (Board_init_consistent _ board H).
Defined.

(** ** The en-passant target *)

(** X11.  The en-passant field round trips: a dash is read as the empty
    bitboard and written back as a dash, and the name of a square is read as
    the bitboard of that square alone and written back as the same name. *)
Theorem en_passant_roundtrip_square :
  (o ← parse_en_passant "-"; en_passant_text o) = Ok "-" /\
  parse_en_passant "-" = Ok (Member 0) /\
  (forall n, In n square_names ->
     exists s, name Square s = Ok n /\
               parse_en_passant n = Ok (Member (Z.shiftl 1 s)) /\
               en_passant_text (Member (Z.shiftl 1 s)) = Ok n).
Proof.
  split; [reflexivity|]. split; [reflexivity|].
  intros n Hn.
  assert (H : en_passant_roundtrip n = true).
  { assert (Hall : forallb en_passant_roundtrip square_names = true)
      by (vm_compute; reflexivity).
    rewrite forallb_forall in Hall. now apply Hall. }
  unfold en_passant_roundtrip in H.
  destruct (parse_en_passant n) as [[v|]|]; try discriminate.
  apply andb_true_iff in H. destruct H as [Htext Hex].
  apply existsb_exists in Hex. destruct Hex as (s & _ & Hs).
  apply andb_true_iff in Hs. destruct Hs as [Hv Hname].
  apply Z.eqb_eq in Hv. subst v. exists s.
  split; [|split; [reflexivity|]].
  - destruct (name Square s) as [m|]; [|discriminate].
    apply String.eqb_eq in Hname. now subst.
  - destruct (en_passant_text _) as [m|]; [|discriminate].
    apply String.eqb_eq in Htext. now subst.
Qed.

Lemma en_passant_roundtrip_square_witness :
  exists s, name Square s = Ok "e3" /\
            parse_en_passant "e3" = Ok (Member (Z.shiftl 1 s)) /\
            en_passant_text (Member (Z.shiftl 1 s)) = Ok "e3".
Proof.
  apply (proj2 (proj2 en_passant_roundtrip_square) "e3").
  vm_compute. tauto.
Defined.

(** ** The castling ability of a parsed board *)

Lemma letter_bit_high (k : Z) (c : ascii) : 4 <= k -> letter_bit k c = false.
Proof.
  intros Hk. unfold letter_bit, letter_flag.
  cbn [CastlingAbility enum members combine assoc String.eqb].
  assert (Hbit : forall w, 0 <= w < 16 -> Z.testbit w k = false).
  { intros w Hw. destruct (Z.eq_dec w 0) as [->|Hne]; [apply Z.bits_0|].
    apply Z.bits_above_log2; [lia|].
    assert (Z.log2 w < 4) by (apply Z.log2_lt_pow2; lia). lia. }
  repeat match goal with
         | |- context [if ?b then _ else _] => destruct b
         end; try reflexivity; apply Hbit; lia.
Qed.

Lemma low_bits_range (v : Z) :
  (forall k, 4 <= k -> Z.testbit v k = false) -> 0 <= v < 16.
Proof.
  intros H. assert (Hv : v = Z.land v (Z.ones 4)).
  { apply Z.bits_inj'. intros k Hk. rewrite Z.land_spec.
    destruct (Z.lt_ge_cases k 4) as [Hlt|Hge].
    - rewrite Z.ones_spec_low by lia. now rewrite andb_true_r.
    - rewrite Z.ones_spec_high by lia. rewrite andb_false_r. now apply H. }
  rewrite Z.land_ones in Hv by lia. change (2 ^ 4) with 16 in Hv.
  pose proof (Z.mod_pos_bound v 16). lia.
Qed.

(** An accepted castling field gives one of the sixteen abilities. *)
Lemma parse_castling_range (s : string) (o : object) :
  parse_castling s = Ok o -> exists v, o = Member v /\ 0 <= v < 16.
Proof.
  intros H. destruct (String.eqb_spec s "-") as [->|Hs].
  - injection H as <-. exists 0. split; [reflexivity | lia].
  - rewrite parse_castling_letters in H by assumption.
    apply reduce_letters_iff in H. destruct H as (v & -> & _ & _ & Hbits).
    exists v. split; [reflexivity|]. apply low_bits_range.
    intros k Hk. rewrite Hbits. clear Hbits.
    induction (list_ascii_of_string s) as [|c cs IH]; [reflexivity|].
    cbn [existsb]. rewrite letter_bit_high by assumption. exact IH.
Qed.

(** The field written for an ability is one field, read back as the
    ability. *)
Lemma castling_text_parse (v : Z) :
  0 <= v < 16 ->
  exists s, castling_text (Member v) = Ok s /\ word s = true /\
            parse_castling s = Ok (Member v).
Proof.
  intros Hv.
  assert (H : castling_text_roundtrip v = true).
  { apply (forall_range castling_text_roundtrip 16);
      [vm_compute; reflexivity | exact Hv]. }
  unfold castling_text_roundtrip in H.
  destruct (castling_text (Member v)) as [s|]; [|discriminate].
  apply andb_true_iff in H. destruct H as [Hw H].
  exists s. split; [reflexivity|]. split; [exact Hw|].
  destruct (parse_castling s) as [[w|]|]; try discriminate.
  apply Z.eqb_eq in H. now subst.
Qed.

(** X12.  An accepted castling field gives one of the sixteen abilities,
    and writing an ability and reading it back is the identity: for every
    ability [v], [to_fen] writes a field that [__init__] reads as [v]. *)
Theorem castling_ability_parsed :
  (forall s o, parse_castling s = Ok o ->
               exists v, o = Member v /\ 0 <= v < 16) /\
  (forall v, 0 <= v < 16 ->
             exists s, castling_text (Member v) = Ok s /\
                       parse_castling s = Ok (Member v)).
Proof.
  split; [exact parse_castling_range|].
  intros v Hv. destruct (castling_text_parse v Hv) as (s & Hs & _ & Hp).
  now exists s.
Qed.

Lemma castling_ability_parsed_witness :
  (exists v, Member 12 = Member v /\ 0 <= v < 16) /\
  (exists s, castling_text (Member 5) = Ok s /\
             parse_castling s = Ok (Member 5)).
Proof.
  destruct castling_ability_parsed as [H1 H2]. split.
  - apply (H1 "qk"). reflexivity.
  - apply (H2 5). lia.
Defined.

(** ** The characters of an accepted piece placement *)

Lemma foldM_steps {A B} (f : A -> B -> result A) (l : list B) :
  forall a a', foldM f a l = Ok a' ->
               forall b, In b l -> exists a1 a2, f a1 b = Ok a2.
Proof.
  induction l as [|b0 l IH]; intros a a' H b Hb; [destruct Hb|].
  cbn [foldM] in H. destruct (f a b0) as [a1|] eqn:Hf; [|discriminate].
  cbn [mbind result_bind] in H. destruct Hb as [<-|Hb].
  - now exists a, a1.
  - exact (IH a1 a' H b Hb).
Qed.

Lemma place_chars_letters (rank : Z) (cs : list ascii) :
  is_member Rank rank = true ->
  forall file st self,
    0 <= file ->
    foldM (place_char rank) (file, self) cs = Ok st ->
    (forall ch, In ch cs ->
       (isdigit ch = true /\ exists n, int (String ch "") = Ok n /\ 0 <= n) \/
       (isdigit ch = false /\
        exists piece, getattr Piece (String ch "") = Ok (Member piece))) /\
    (forall c ch, In (c, ch) (letters_from file cs) -> 0 <= c < 64).
Proof.
  intros Hrank. pose proof (proj1 (is_member_Rank rank) Hrank) as Rrank.
  induction cs as [|x cs IH]; intros file st self Hfile H.
  - split; [intros ch [] | intros c ch []].
  - cbn [foldM] in H.
    destruct (place_char rank (file, self) x) as [[file1 self1]|] eqn:Hstep;
      [|discriminate].
    cbn [mbind result_bind] in H. cbn [letters_from].
    unfold place_char in Hstep. destruct (isdigit x) eqn:Hx.
    + destruct (int (String x "")) as [n|] eqn:Hn; [|discriminate].
      cbn [mbind result_bind] in Hstep. injection Hstep as <- <-.
      destruct (int_digit_char x n Hx Hn) as [Hval Hn0].
      assert (Hfile1 : 0 <= file + n) by lia.
      destruct (IH _ _ _ Hfile1 H) as [Hchars Hletters].
      split; [|subst n; exact Hletters].
      intros ch [<-|Hin]; [|now apply Hchars].
      left. split; [exact Hx|]. exists n. now split.
    + rewrite getattr_char in Hstep.
      destruct (assoc _ (members Piece)) as [piece|] eqn:Ha; [|discriminate].
      cbn [mbind result_bind] in Hstep.
      destruct (square_from file rank) as [square|] eqn:Hsq; [|discriminate].
      cbn [mbind result_bind] in Hstep.
      destruct (place self piece square) as [s|]; [|discriminate].
      cbn [mbind result_bind] in Hstep. injection Hstep as <- <-.
      assert (Hfile1 : 0 <= file + 1) by lia.
      destruct (IH _ _ _ Hfile1 H) as [Hchars Hletters].
      split.
      * intros ch [<-|Hin]; [|now apply Hchars].
        right. split; [exact Hx|]. exists piece.
        now rewrite getattr_char, Ha.
      * intros c ch [[= <- <-]|Hin]; [|now apply (Hletters c ch)].
        destruct (Z.lt_ge_cases file 64) as [Hlt|Hge]; [lia|].
        rewrite square_from_raises in Hsq by lia. discriminate.
Qed.

(** X13.  In an accepted FEN string every character of the first eight rank
    strings is a digit for [isdigit] that [int] reads as a number, or is no
    digit and is the letter of one of the twelve pieces; and the file cursor
    is below 64 wherever a letter is read.  So an unknown letter, a digit
    that [int] does not read or a letter after 64 or more files makes
    [__init__] fail. *)
Theorem accepted_rank_strings
    (fen pp stm ca ep hc fc : string) (board : Board) (i : nat) (r : string) :
  split fen = [pp; stm; ca; ep; hc; fc] ->
  Board_init fen = Ok board ->
  (i < 8)%nat -> split_on "/" pp !! i = Some r ->
  (forall ch, In ch (list_ascii_of_string r) ->
     (isdigit ch = true /\ exists n, int (String ch "") = Ok n /\ 0 <= n) \/
     (isdigit ch = false /\
      exists piece, getattr Piece (String ch "") = Ok (Member piece))) /\
  (forall c ch, In (c, ch) (letters_of r) -> 0 <= c < 64).
Proof.
  intros Hsplit Hinit Hi Hr.
  rewrite (Board_init_fields _ _ _ _ _ _ _ Hsplit) in Hinit.
  apply init_fields_bitboards in Hinit. unfold place_all in Hinit.
  pose proof (In_combine_range 8 0 i _ r Hr Hi) as Hin.
  destruct (foldM_steps place_rank _ _ _ Hinit _ Hin) as (s1 & s2 & Hstep).
  unfold place_rank in Hstep.
  destruct (foldM (place_char _) _ _) as [st|] eqn:Hfold; [|discriminate].
  apply (place_chars_letters (Z.of_nat (0 + i)) (list_ascii_of_string r))
    with (file := 0) (st := st) (self := s1); [|lia|exact Hfold].
  apply is_member_Rank. lia.
Qed.

Lemma accepted_rank_strings_witness :
  (forall ch, In ch (list_ascii_of_string "2p5") ->
     (isdigit ch = true /\ exists n, int (String ch "") = Ok n /\ 0 <= n) \/
     (isdigit ch = false /\
      exists piece, getattr Piece (String ch "") = Ok (Member piece))) /\
  (forall c ch, In (c, ch) (letters_of "2p5") -> 0 <= c < 64).
Proof.
  assert (H : exists board,
             Board_init "8/2p5/8/8/8/8/8/8 w - - 0 1" = Ok board)
    by (vm_compute; eexists; reflexivity).
  destruct H as [board H].
  apply (accepted_rank_strings "8/2p5/8/8/8/8/8/8 w - - 0 1"
           "8/2p5/8/8/8/8/8/8" "w" "-" "-" "0" "1" board 1 "2p5");
    [reflexivity | exact H | lia | reflexivity].
Defined.

(** ** The board as a string *)

Lemma values_Bitboard :
  values Bitboard = map (fun i => Z.shiftl 1 (Z.of_nat i)) (seq 0 64).
Proof. vm_compute. reflexivity. Qed.

Lemma flag_in_shiftl (i : nat) (bb : Z) :
  flag_in (Z.shiftl 1 (Z.of_nat i)) bb = Z.testbit bb (Z.of_nat i).
Proof. rewrite Z.shiftl_1_l. apply flag_in_pow2. lia. Qed.

Lemma log2_shiftl_1 (i : nat) : Z.log2 (Z.shiftl 1 (Z.of_nat i)) = Z.of_nat i.
Proof. rewrite Z.shiftl_1_l. apply Z.log2_pow2. lia. Qed.

(** The loop over the squares of one piece writes the letter of the piece
    on the cells of these squares. *)
Lemma paint_loop (piece : Z) (nm : string) (bb : Z) :
  name Piece piece = Ok nm ->
  forall (idxs : list nat) (board : list string),
    (forall i, In i idxs -> (i < 64)%nat) -> length board = 64%nat ->
    exists board',
      foldM (fun board square => n ← name Piece piece;
                                 set_at board (Z.log2 square) n)
            board
            (List.filter (fun m => flag_in m bb)
                         (map (fun i => Z.shiftl 1 (Z.of_nat i)) idxs))
      = Ok board' /\
      length board' = 64%nat /\
      forall j, board' !! j
                = if existsb (Nat.eqb j) idxs && Z.testbit bb (Z.of_nat j)
                  then Some nm else board !! j.
Proof.
  intros Hnm. rewrite Hnm. cbn [mbind result_bind].
  induction idxs as [|i idxs IH]; intros board Hidx Hlen.
  - exists board. split; [reflexivity|]. split; [exact Hlen|].
    intros j. reflexivity.
  - cbn [map List.filter]. rewrite flag_in_shiftl.
    assert (Hi : (i < 64)%nat) by (apply Hidx; now left).
    assert (Hrest : forall k, In k idxs -> (k < 64)%nat)
      by (intros k Hk; apply Hidx; now right).
    destruct (Z.testbit bb (Z.of_nat i)) eqn:Hbit.
    + cbn [foldM]. rewrite log2_shiftl_1. rewrite set_at_ok by lia.
      cbn [mbind result_bind]. rewrite Nat2Z.id.
      destruct (IH (<[i := nm]> board) Hrest) as (board' & Hfold & Hlen' & Hget).
      { now rewrite length_insert. }
      exists board'. split; [exact Hfold|]. split; [exact Hlen'|].
      intros j. rewrite Hget. cbn [existsb].
      destruct (Nat.eqb_spec j i) as [->|Hne].
      * rewrite Hbit. cbn [orb andb].
        destruct (existsb (Nat.eqb i) idxs); cbn [andb];
          [reflexivity|]. rewrite list_lookup_insert_eq by lia. reflexivity.
      * cbn [orb]. rewrite list_lookup_insert_ne by lia. reflexivity.
    + destruct (IH board Hrest Hlen) as (board' & Hfold & Hlen' & Hget).
      exists board'. split; [exact Hfold|]. split; [exact Hlen'|].
      intros j. rewrite Hget. cbn [existsb].
      destruct (Nat.eqb_spec j i) as [->|Hne]; [|reflexivity].
      rewrite Hbit. cbn [orb]. now rewrite !andb_false_r.
Qed.

Lemma existsb_seq (j n : nat) :
  existsb (Nat.eqb j) (seq 0 n) = (j <? n)%nat.
Proof.
  destruct (Nat.ltb_spec j n) as [Hlt|Hge].
  - apply existsb_exists. exists j. split; [apply in_seq; lia|].
    apply Nat.eqb_refl.
  - apply not_true_iff_false. intros H. apply existsb_exists in H.
    destruct H as (k & Hk & Heq). apply in_seq in Hk.
    apply Nat.eqb_eq in Heq. lia.
Qed.

(** The same loop, over the squares that iterating over a bitboard gives. *)
Lemma paint_squares (piece : Z) (nm : string) (bb : Z) (board : list string) :
  name Piece piece = Ok nm -> length board = 64%nat ->
  exists board',
    foldM (fun board square => n ← name Piece piece;
                               set_at board (Z.log2 square) n)
          board (flag_iter Bitboard bb)
    = Ok board' /\
    length board' = 64%nat /\
    forall j, board' !! j
              = if (j <? 64)%nat && Z.testbit bb (Z.of_nat j)
                then Some nm else board !! j.
Proof.
  intros Hnm Hlen. unfold flag_iter. rewrite values_Bitboard.
  destruct (paint_loop piece nm bb Hnm (seq 0 64) board)
    as (board' & Hfold & Hlen' & Hget).
  { intros i Hi. apply in_seq in Hi. lia. }
  { exact Hlen. }
  exists board'. split; [exact Hfold|]. split; [exact Hlen'|].
  intros j. rewrite Hget. now rewrite existsb_seq.
Qed.

Lemma piece_bitboard_ok (self : Bitboards) (piece : Z) :
  well_formed self -> is_member Piece piece = true ->
  exists bb, piece_bitboard self piece = Ok bb.
Proof.
  intros [Hpt Hc] Hp. unfold piece_bitboard.
  destruct (color_of_ok piece Hp) as [-> Rc].
  destruct (piece_type_of_ok piece Hp) as [-> Rt].
  cbn [mbind result_bind].
  destruct (get_at_ok (color_bitboards self) (piece / 6)) as (cb & -> & _);
    [lia|].
  cbn [mbind result_bind].
  destruct (get_at_ok (piece_type_bitboards self) (piece mod 6))
    as (ptb & -> & _); [lia|].
  now eexists.
Qed.

Lemma name_Piece_ok (piece : Z) :
  is_member Piece piece = true -> name Piece piece = Ok (piece_letter piece).
Proof.
  intros Hp. apply is_member_Piece in Hp.
  assert (H : is_ok (name Piece piece) = true).
  { apply (forall_range (fun p => is_ok (name Piece p)) 12);
      [vm_compute; reflexivity | exact Hp]. }
  unfold piece_letter. destruct (name Piece piece); [reflexivity|discriminate].
Qed.

(** The loop over the pieces. *)
Lemma str_board_loop (self : Bitboards) :
  well_formed self ->
  forall (ps : list Z) (board : list string),
    (forall p, In p ps -> is_member Piece p = true) ->
    length board = 64%nat ->
    exists board',
      foldM (fun board piece =>
               bb ← piece_bitboard self piece;
               foldM (fun board square => n ← name Piece piece;
                                          set_at board (Z.log2 square) n)
                     board (flag_iter Bitboard bb))
            board ps = Ok board' /\
      length board' = 64%nat /\
      forall (j : nat) (c : string),
        board !! j = Some c ->
        board' !! j = Some (cell self (Z.of_nat j) ps c).
Proof.
  intros Hwf. induction ps as [|p ps IH]; intros board Hps Hlen.
  - exists board. split; [reflexivity|]. split; [exact Hlen|].
    intros j c Hc. exact Hc.
  - assert (Hp : is_member Piece p = true) by (apply Hps; now left).
    destruct (piece_bitboard_ok self p Hwf Hp) as [bb Hbb].
    cbn [foldM]. rewrite Hbb. cbn [mbind result_bind].
    destruct (paint_squares p _ bb board (name_Piece_ok p Hp) Hlen)
      as (board1 & Hfold1 & Hlen1 & Hget1).
    rewrite Hfold1. cbn [mbind result_bind].
    destruct (IH board1) as (board' & Hfold & Hlen' & Hget).
    { intros q Hq. apply Hps. now right. }
    { exact Hlen1. }
    exists board'. split; [exact Hfold|]. split; [exact Hlen'|].
    intros j c Hc. cbn [cell fold_left].
    assert (Hj : (j < 64)%nat)
      by (rewrite <- Hlen; apply lookup_lt_is_Some; eauto).
    apply Hget. rewrite Hget1.
    destruct (Nat.ltb_spec j 64) as [_|?]; [|lia]. cbn [andb].
    unfold on_square. rewrite Hbb. unfold contains.
    destruct (Z.testbit bb (Z.of_nat j)); [reflexivity | exact Hc].
Qed.

Lemma lookup_repeat {A} (x : A) (n j : nat) :
  (j < n)%nat -> repeat x n !! j = Some x.
Proof.
  revert j. induction n as [|n IH]; intros j Hj; [lia|].
  destruct j as [|j]; [reflexivity|]. cbn [repeat]. apply IH. lia.
Qed.

Lemma join_empty_cons (w : string) (l : list string) :
  join "" (w :: l) = w ++ join "" l.
Proof.
  destruct l as [|v l]; cbn [join]; [now rewrite append_nil_r | reflexivity].
Qed.

(** Joining cells of one character each gives the string of these
    characters. *)
Lemma join_cells (cells : list string) :
  (forall c, In c cells -> String.length c = 1%nat) ->
  String.length (join "" cells) = length cells /\
  forall (j : nat) (ch : ascii),
    cells !! j = Some (String ch "") ->
    String.get j (join "" cells) = Some ch.
Proof.
  induction cells as [|c cells IH]; intros Hone.
  - split; [reflexivity|]. intros j ch Hj. discriminate.
  - rewrite join_empty_cons.
    assert (Hc : String.length c = 1%nat) by (apply Hone; now left).
    destruct c as [|x [|y c]]; try discriminate.
    destruct IH as [Hlen Hget]; [intros d Hd; apply Hone; now right|].
    cbn [append String.length]. split; [now rewrite Hlen|].
    intros [|j] ch Hj.
    + injection Hj as <-. reflexivity.
    + cbn [String.get]. now apply Hget.
Qed.

Lemma piece_letter_length (p : Z) :
  is_member Piece p = true -> String.length (piece_letter p) = 1%nat.
Proof.
  intros Hp. apply is_member_Piece in Hp.
  assert (H : (String.length (piece_letter p) =? 1)%nat = true).
  { apply (forall_range
             (fun p => (String.length (piece_letter p) =? 1)%nat) 12);
      [vm_compute; reflexivity | exact Hp]. }
  now apply Nat.eqb_eq in H.
Qed.

Lemma cell_length (self : Bitboards) (sq : Z) (ps : list Z) (init : string) :
  (forall p, In p ps -> is_member Piece p = true) ->
  String.length init = 1%nat ->
  String.length (cell self sq ps init) = 1%nat.
Proof.
  revert init. induction ps as [|p ps IH]; intros init Hps Hinit;
    [exact Hinit|].
  cbn [cell fold_left]. apply IH; [intros q Hq; apply Hps; now right|].
  destruct (on_square self p sq); [|exact Hinit].
  apply piece_letter_length. apply Hps. now left.
Qed.

Lemma cell_snoc (self : Bitboards) (sq : Z) (ps : list Z) (q : Z)
    (init : string) :
  cell self sq (ps ++ [q]) init
  = if on_square self q sq then piece_letter q else cell self sq ps init.
Proof. unfold cell. now rewrite fold_left_app. Qed.

Lemma range_S (n : nat) : range (S n) = (range n ++ [Z.of_nat n])%list.
Proof. unfold range. now rewrite seq_S, map_app. Qed.

(** Among the pieces below [n], the last one on the square gives the cell;
    the cell is the initial one when none is on the square. *)
Lemma cell_range (self : Bitboards) (sq : Z) (init : string) (n : nat) :
  ((forall q, 0 <= q < Z.of_nat n -> on_square self q sq = false) ->
   cell self sq (range n) init = init) /\
  (forall p, 0 <= p < Z.of_nat n -> on_square self p sq = true ->
             (forall q, p < q < Z.of_nat n -> on_square self q sq = false) ->
             cell self sq (range n) init = piece_letter p).
Proof.
  induction n as [|n [IHnone IHlast]].
  - split; [reflexivity | intros p Hp; lia].
  - rewrite range_S, cell_snoc. split.
    + intros Hnone. rewrite Hnone by lia. apply IHnone.
      intros q Hq. apply Hnone. lia.
    + intros p Hp Hon Habove.
      destruct (Z.eq_dec p (Z.of_nat n)) as [->|Hne].
      * now rewrite Hon.
      * rewrite (Habove (Z.of_nat n)) by lia.
        apply IHlast; [lia | exact Hon |].
        intros q Hq. apply Habove. lia.
Qed.

Lemma on_square_occupies (self : Bitboards) (p sq : Z) :
  on_square self p sq = true <-> occupies self p sq.
Proof.
  unfold on_square, occupies. split.
  - destruct (piece_bitboard self p) as [bb|]; [|discriminate].
    intros H. now exists bb.
  - intros (bb & -> & H). exact H.
Qed.

(** X14.  On a board with its six and two bitboards, [_str_board] returns a
    string of 64 characters, one for each square: a space for a square that
    is in no piece bitboard, and otherwise the letter of the piece that comes
    last in the order of [Piece] (P N B R Q K p n b r q k) among those whose
    bitboard contains the square. *)
Theorem str_board_cells (self : Bitboards) :
  well_formed self ->
  exists board,
    _str_board self = Ok board /\
    String.length board = 64%nat /\
    forall sq, is_member Square sq = true ->
      ((forall p, ~ occupies self p sq) ->
       String.get (Z.to_nat sq) board = Some " "%char) /\
      (forall p, occupies self p sq ->
         (forall q, p < q -> ~ occupies self q sq) ->
         exists ch, name Piece p = Ok (String ch "") /\
                    String.get (Z.to_nat sq) board = Some ch).
Proof.
  intros Hwf. unfold _str_board.
  destruct (str_board_loop self Hwf (values Piece) (repeat " " 64))
    as (cells & Hfold & Hlen & Hget).
  { intros p Hp. unfold is_member. now apply existsb_eqb_In. }
  { reflexivity. }
  rewrite Hfold. cbn [mbind result_bind].
  assert (Hcell : forall j, (j < 64)%nat ->
            cells !! j = Some (cell self (Z.of_nat j) (values Piece) " ")).
  { intros j Hj. apply Hget. now apply lookup_repeat. }
  assert (Hone : forall c, In c cells -> String.length c = 1%nat).
  { intros c Hc. apply list_elem_of_In, list_elem_of_lookup in Hc.
    destruct Hc as [j Hj].
    assert (Hj64 : (j < 64)%nat)
      by (rewrite <- Hlen; apply lookup_lt_is_Some; eauto).
    assert (Hc' : c = cell self (Z.of_nat j) (values Piece) " ")
      by (rewrite (Hcell j Hj64) in Hj; congruence).
    rewrite Hc'. apply cell_length; [|reflexivity].
    intros p Hp. unfold is_member. now apply existsb_eqb_In. }
  destruct (join_cells cells Hone) as [Hjlen Hjget].
  exists (join "" cells). split; [reflexivity|].
  split; [now rewrite Hjlen|].
  intros sq Hsq. apply is_member_Square in Hsq.
  assert (Hj : (Z.to_nat sq < 64)%nat) by lia.
  pose proof (Hcell _ Hj) as Hc. rewrite Z2Nat.id in Hc by lia.
  change (values Piece) with (range 12) in Hc.
  destruct (cell_range self sq " " 12) as [Hnone Hlast]. split.
  - intros Hfree. apply Hjget. rewrite Hc. f_equal. apply Hnone.
    intros q _. apply not_true_iff_false. intros Hq.
    apply on_square_occupies in Hq. exact (Hfree q Hq).
  - intros p Hp Habove. destruct (occupies_inv _ _ _ Hp) as [Hm _].
    pose proof (proj1 (is_member_Piece p) Hm) as Rp.
    rewrite (Hlast p) in Hc.
    + pose proof (piece_letter_length p Hm) as Hl.
      rewrite (name_Piece_ok p Hm).
      destruct (piece_letter p) as [|x [|y s]]; try discriminate.
      exists x. split; [reflexivity | exact (Hjget _ x Hc)].
    + exact Rp.
    + now apply on_square_occupies.
    + intros q Hq. apply not_true_iff_false. intros Hon.
      apply on_square_occupies in Hon. exact (Habove q (proj1 Hq) Hon).
Qed.

Lemma str_board_cells_witness :
  exists board,
    _str_board empty_bitboards = Ok board /\
    String.length board = 64%nat /\
    forall sq, is_member Square sq = true ->
      ((forall p, ~ occupies empty_bitboards p sq) ->
       String.get (Z.to_nat sq) board = Some " "%char) /\
      (forall p, occupies empty_bitboards p sq ->
         (forall q, p < q -> ~ occupies empty_bitboards q sq) ->
         exists ch, name Piece p = Ok (String ch "") /\
                    String.get (Z.to_nat sq) board = Some ch).
Proof. apply (str_board_cells empty_bitboards). split; reflexivity. Defined.

(** ** Runs of spaces as digits *)

Lemma starts_with_append (p s : string) : starts_with p (p ++ s) = true.
Proof.
  induction p as [|a p IH]; [reflexivity|]. cbn [append starts_with].
  now rewrite Ascii.eqb_refl, IH.
Qed.

Lemma starts_with_inv (p s : string) :
  starts_with p s = true -> exists t, s = p ++ t.
Proof.
  revert s. induction p as [|a p IH]; intros s H.
  - now exists s.
  - destruct s as [|b s]; [discriminate|]. cbn [starts_with] in H.
    apply andb_true_iff in H. destruct H as [Hab Hp].
    apply Ascii.eqb_eq in Hab. subst b.
    destruct (IH s Hp) as [t ->]. now exists t.
Qed.

Lemma replace_from_skip (old new p s : string) :
  replace_from (String.length p) old new (p ++ s) = replace_from 0 old new s.
Proof. induction p as [|a p IH]; [reflexivity | exact IH]. Qed.

(** [replace] at an occurrence of [old], and at a character where there is
    none. *)
Lemma replace_match (old new s : string) :
  old <> "" -> replace old new (old ++ s) = new ++ replace old new s.
Proof.
  intros Hold. destruct old as [|a old]; [now destruct Hold|].
  unfold replace. cbn [append replace_from].
  change (String a (old ++ s)) with (String a old ++ s).
  rewrite starts_with_append. cbn [String.length Nat.pred].
  now rewrite replace_from_skip.
Qed.

Lemma replace_no_match (old new : string) (c : ascii) (s : string) :
  starts_with old (String c s) = false ->
  replace old new (String c s) = String c (replace old new s).
Proof. intros H. unfold replace. cbn [replace_from]. now rewrite H. Qed.

Lemma expand_spaces (n : nat) (s : string) :
  expand (spaces n ++ s) = spaces n ++ expand s.
Proof. induction n as [|n IH]; [reflexivity|]. cbn. now rewrite IH. Qed.

Lemma length_append (a b : string) :
  String.length (a ++ b) = (String.length a + String.length b)%nat.
Proof. induction a as [|x a IH]; [reflexivity|]. cbn. now rewrite IH. Qed.

Lemma length_spaces (n : nat) : String.length (spaces n) = n.
Proof. induction n as [|n IH]; [reflexivity|]. cbn. now rewrite IH. Qed.

Lemma expand_digit (n : nat) (s : string) :
  (1 <= n <= 9)%nat ->
  expand (str (Z.of_nat n) ++ s) = spaces n ++ expand s.
Proof.
  intros Hn.
  assert (H : (n = 1 \/ n = 2 \/ n = 3 \/ n = 4 \/ n = 5 \/ n = 6 \/ n = 7
               \/ n = 8 \/ n = 9)%nat) by lia.
  repeat (destruct H as [->|H]; [reflexivity|]). now subst n.
Qed.

(** Writing runs of [n] spaces as the digit [n] loses nothing. *)
Lemma expand_replace (n : nat) :
  (1 <= n <= 9)%nat ->
  forall s, expand (replace (spaces n) (str (Z.of_nat n)) s) = expand s.
Proof.
  intros Hn s.
  assert (Hlen : forall m s, (String.length s <= m)%nat ->
            expand (replace (spaces n) (str (Z.of_nat n)) s) = expand s).
  { clear s. induction m as [|m IH]; intros s Hs.
    - destruct s; [reflexivity | cbn in Hs; lia].
    - destruct s as [|c s]; [reflexivity|].
      destruct (starts_with (spaces n) (String c s)) eqn:Hst.
      + destruct (starts_with_inv _ _ Hst) as [t Ht]. rewrite Ht.
        rewrite replace_match by (destruct n; [lia | discriminate]).
        rewrite expand_digit, expand_spaces by assumption.
        f_equal. apply IH.
        apply (f_equal String.length) in Ht.
        rewrite length_append, length_spaces in Ht. cbn in Hs, Ht. lia.
      + rewrite replace_no_match by assumption.
        cbn [expand]. f_equal. apply IH. cbn in Hs. lia. }
  now apply (Hlen (String.length s)).
Qed.

Lemma replace_space_1 (s : string) :
  forall c, In c (list_ascii_of_string (replace " " "1" s)) -> c <> " "%char.
Proof.
  induction s as [|x s IH]; intros c Hc; [destruct Hc|].
  unfold replace in *. cbn [replace_from starts_with] in Hc.
  destruct (Ascii.eqb_spec " "%char x) as [<-|Hne].
  - cbn in Hc. destruct Hc as [<-|Hc]; [discriminate | now apply IH].
  - cbn in Hc. destruct Hc as [<-|Hc]; [congruence | now apply IH].
Qed.

Lemma expand_no_digit (s : string) :
  (forall c, In c (list_ascii_of_string s) -> isdecimal c = false) ->
  expand s = s.
Proof.
  induction s as [|x s IH]; intros H; [reflexivity|].
  cbn [expand]. rewrite (H x) by now left.
  cbn [append]. f_equal. apply IH. intros c Hc. apply H. now right.
Qed.

(** X15.  [_convert_spaces_to_digit] leaves no space in its result and
    loses nothing: reading each digit of the result as that many spaces
    gives the same string as reading the argument so, which is the argument
    itself when it has no digit. *)
Theorem convert_spaces_to_digit_lossless :
  (forall s c, In c (list_ascii_of_string (_convert_spaces_to_digit s)) ->
               c <> " "%char) /\
  (forall s, expand (_convert_spaces_to_digit s) = expand s) /\
  (forall s, (forall c, In c (list_ascii_of_string s) -> isdecimal c = false) ->
             expand (_convert_spaces_to_digit s) = s).
Proof.
  assert (Hexp : forall s, expand (_convert_spaces_to_digit s) = expand s).
  { intros s. unfold _convert_spaces_to_digit, range_8_down.
    cbn [fold_left]. now rewrite !expand_replace by lia. }
  split; [|split; [exact Hexp|]].
  - intros s. unfold _convert_spaces_to_digit, range_8_down.
    cbn [fold_left]. apply replace_space_1.
  - intros s Hs. rewrite Hexp. now apply expand_no_digit.
Qed.

Lemma convert_spaces_to_digit_lossless_witness :
  expand (_convert_spaces_to_digit "  p   QK") = "  p   QK".
Proof.
  apply (proj2 (proj2 convert_spaces_to_digit_lossless) "  p   QK").
  intros c Hc. cbn in Hc.
  repeat (destruct Hc as [<-|Hc]; [reflexivity|]). destruct Hc.
Defined.

(** ** Serializing a parsed board *)

Lemma init_fields_inv pp stm ca ep hc fc board :
  init_fields pp stm ca ep hc fc = Ok board ->
  place_all pp = Ok (bitboards board) /\
  getattr Color stm = Ok (side_to_move board) /\
  parse_castling ca = Ok (castling_ability board) /\
  parse_en_passant ep = Ok (en_passant_target_square board) /\
  int hc = Ok (halfmove_clock board) /\
  int fc = Ok (fullmove_counter board).
Proof.
  unfold init_fields. intros H.
  destruct (place_all pp) as [bbs|]; [|discriminate].
  cbn [mbind result_bind] in H.
  destruct (getattr Color stm) as [s|]; [|discriminate].
  cbn [mbind result_bind] in H.
  destruct (parse_castling ca) as [c|]; [|discriminate].
  cbn [mbind result_bind] in H.
  destruct (parse_en_passant ep) as [e|]; [|discriminate].
  cbn [mbind result_bind] in H.
  destruct (int hc) as [h|]; [|discriminate]. cbn [mbind result_bind] in H.
  destruct (int fc) as [f|]; [|discriminate]. cbn [mbind result_bind] in H.
  injection H as <-. repeat split; reflexivity.
Qed.

Lemma Board_init_inv (fen : string) (board : Board) :
  Board_init fen = Ok board ->
  exists pp stm ca ep hc fc,
    split fen = [pp; stm; ca; ep; hc; fc] /\
    init_fields pp stm ca ep hc fc = Ok board.
Proof.
  unfold Board_init. intros H.
  destruct (split fen) as [|f1 [|f2 [|f3 [|f4 [|f5 [|f6 [|f7 l]]]]]]];
    try discriminate.
  now exists f1, f2, f3, f4, f5, f6.
Qed.

Lemma parsed_well_formed (fen : string) (board : Board) :
  Board_init fen = Ok board -> well_formed board.
Proof.
  apply (Board_init_invariant well_formed); [split; reflexivity|].
  intros self piece square self' Hwf _ _. now apply place_well_formed.
Qed.

Lemma getattr_member_In (cls : EnumClass) (n : string) (v : Z) :
  getattr cls n = Ok (Member v) -> In v (values cls).
Proof.
  unfold getattr. destruct (assoc n (members cls)) as [w|] eqn:Hw.
  - intros [= ->]. apply assoc_In in Hw. unfold values.
    apply in_map_iff. now exists (n, v).
  - destruct (is_inherited n); discriminate.
Qed.

Lemma parse_en_passant_member (ep : string) (e : Z) :
  parse_en_passant ep = Ok (Member e) -> In e (0 :: values Bitboard).
Proof.
  unfold parse_en_passant. destruct (String.eqb ep "-").
  - intros [= <-]. now left.
  - intros H. right. exact (getattr_member_In _ _ _ H).
Qed.

Lemma en_passant_text_parse (e : Z) :
  In e (0 :: values Bitboard) ->
  exists s, en_passant_text (Member e) = Ok s /\ word s = true /\
            parse_en_passant s = Ok (Member e).
Proof.
  intros He.
  assert (H : en_passant_text_roundtrip e = true).
  { assert (Hall : forallb en_passant_text_roundtrip (0 :: values Bitboard)
                   = true) by (vm_compute; reflexivity).
    rewrite forallb_forall in Hall. now apply Hall. }
  unfold en_passant_text_roundtrip in H.
  destruct (en_passant_text (Member e)) as [s|]; [|discriminate].
  apply andb_true_iff in H. destruct H as [Hw H].
  exists s. split; [reflexivity|]. split; [exact Hw|].
  destruct (parse_en_passant s) as [[w|]|]; try discriminate.
  apply Z.eqb_eq in H. now subst.
Qed.

Lemma side_name (stm : string) (c : Z) :
  getattr Color stm = Ok (Member c) ->
  name Color c = Ok stm /\ word stm = true.
Proof.
  unfold getattr. cbn [Color enum members combine assoc].
  destruct (String.eqb_spec stm "w") as [->|_]; [now intros [= <-]|].
  destruct (String.eqb_spec stm "b") as [->|_]; [now intros [= <-]|].
  destruct (is_inherited stm); discriminate.
Qed.

Lemma str_board_ok (self : Bitboards) :
  well_formed self -> exists board, _str_board self = Ok board.
Proof.
  intros Hwf. unfold _str_board.
  destruct (str_board_loop self Hwf (values Piece) (repeat " " 64))
    as (cells & Hfold & _).
  { intros p Hp. unfold is_member. now apply existsb_eqb_In. }
  { reflexivity. }
  rewrite Hfold. now eexists.
Qed.

(** [to_fen] unfolded on a board whose board string is known. *)
Lemma to_fen_unfold (self : Board) (board : string) :
  _str_board self = Ok board ->
  to_fen self
  = (stm ← object_name Color (side_to_move self);
     ca ← castling_text (castling_ability self);
     ep ← en_passant_text (en_passant_target_square self);
     Ok (join " " [placement_of board; stm; ca; ep;
                   str (halfmove_clock self); str (fullmove_counter self)])).
Proof. intros H. unfold to_fen. now rewrite H. Qed.

(** X16.  On a board that [__init__] returned, whose side to move and
    en-passant target are members of [Color] and of [Bitboard] (the empty
    set of squares of the field [-] included), [to_fen] returns a string:
    painting the sixty-four squares, naming the side, the castling rights
    and the target square all succeed. *)
Theorem to_fen_of_parsed (fen : string) (board : Board) (c e : Z) :
  Board_init fen = Ok board ->
  side_to_move board = Member c ->
  en_passant_target_square board = Member e ->
  exists out, to_fen board = Ok out.
Proof.
  intros Hinit Hside Htarget.
  pose proof (parsed_well_formed fen board Hinit) as Hwf.
  destruct (str_board_ok board Hwf) as [B HB].
  rewrite (to_fen_unfold board B HB).
  destruct (Board_init_inv fen board Hinit)
    as (pp & stm & ca & ep & hc & fc & _ & Hfields).
  destruct (init_fields_inv _ _ _ _ _ _ _ Hfields)
    as (_ & Hstm & Hca & Hep & _ & _).
  rewrite Hside in Hstm |- *. rewrite Htarget in Hep |- *.
  destruct (side_name stm c Hstm) as [Hname _].
  cbn [object_name]. rewrite Hname. cbn [mbind result_bind].
  destruct (parse_castling_range ca _ Hca) as (v & Hv & Rv).
  rewrite Hv. destruct (castling_text_parse v Rv) as (s & -> & _ & _).
  cbn [mbind result_bind].
  destruct (en_passant_text_parse e (parse_en_passant_member ep e Hep))
    as (t & -> & _ & _).
  cbn [mbind result_bind]. now eexists.
Qed.

Lemma to_fen_of_parsed_witness :
  exists out,
    to_fen {| bitboards := empty_bitboards;
              side_to_move := Member 1;
              castling_ability := Member 5;
              en_passant_target_square := Member 1048576;
              halfmove_clock := 7; fullmove_counter := 30 |}
    = Ok out.
Proof.
  exact (to_fen_of_parsed "8/8/8/8/8/8/8/8 b Kk e6 7 30" _ 1 1048576
           eq_refl eq_refl eq_refl).
Defined.

(** ** Reading back what [to_fen] writes *)

Lemma chars_append (a b : string) :
  list_ascii_of_string (a ++ b)
  = (list_ascii_of_string a ++ list_ascii_of_string b)%list.
Proof. induction a as [|x a IH]; [reflexivity|]. cbn. now rewrite IH. Qed.

Lemma chars_spaces (n : nat) :
  list_ascii_of_string (spaces n) = repeat " "%char n.
Proof. induction n as [|n IH]; [reflexivity|]. cbn. now rewrite IH. Qed.

Lemma foldM_app {A B} (f : A -> B -> result A) (l1 l2 : list B) (a : A) :
  foldM f a (l1 ++ l2) = (a' ← foldM f a l1; foldM f a' l2).
Proof.
  revert a. induction l1 as [|b l1 IH]; intros a; [reflexivity|].
  cbn [app foldM]. destruct (f a b) as [a1|]; [|reflexivity].
  cbn [mbind result_bind]. apply IH.
Qed.

(** Blank cells move the cursor and nothing else. *)
Lemma place_cells_blank (rank : Z) (n : nat) (file : Z) (self : Bitboards) :
  foldM (place_cell rank) (file, self) (repeat " "%char n)
  = Ok (file + Z.of_nat n, self).
Proof.
  revert file. induction n as [|n IH]; intros file.
  - cbn. now rewrite Z.add_0_r.
  - change (repeat " "%char (S n)) with (" "%char :: repeat " "%char n).
    cbn [foldM]. change (place_cell rank (file, self) " ")
      with (@Ok (Z * Bitboards) (file + 1, self)).
    cbn [mbind result_bind]. rewrite IH. do 2 f_equal. lia.
Qed.

Lemma place_char_decimal (rank : Z) (file : Z) (self : Bitboards)
    (c : ascii) :
  isdecimal c = true ->
  place_char rank (file, self) c = Ok (file + (code c - 48), self).
Proof.
  intros H. destruct (int_decimal_char c H) as [Hd Hi].
  unfold place_char. now rewrite Hd, Hi.
Qed.

(** Reading a rank string is reading the cells that it stands for. *)
Lemma place_chars_cells (rank : Z) (t : string) :
  (forall c, In c (list_ascii_of_string t) -> rank_char c = true) ->
  forall file self,
    foldM (place_char rank) (file, self) (list_ascii_of_string t)
    = foldM (place_cell rank) (file, self) (list_ascii_of_string (expand t)).
Proof.
  induction t as [|c t IH]; intros Hok file self; [reflexivity|].
  assert (Hc : rank_char c = true) by (apply Hok; now left).
  assert (Ht : forall d, In d (list_ascii_of_string t) -> rank_char d = true)
    by (intros d Hd; apply Hok; now right).
  cbn [list_ascii_of_string foldM expand]. rewrite chars_append, foldM_app.
  unfold rank_char in Hc. destruct (isdecimal c) eqn:Hdec.
  - rewrite place_char_decimal by assumption. cbn [mbind result_bind].
    rewrite chars_spaces, place_cells_blank. cbn [mbind result_bind].
    rewrite Z2Nat.id.
    + now apply IH.
    + unfold isdecimal in Hdec. apply andb_true_iff in Hdec.
      destruct Hdec as [Hlo _]. apply Z.leb_le in Hlo. lia.
  - cbn [orb] in Hc. apply andb_true_iff in Hc. destruct Hc as [_ Hsp].
    apply negb_true_iff in Hsp.
    cbn [list_ascii_of_string foldM].
    assert (Hcell : place_cell rank (file, self) c
                    = place_char rank (file, self) c)
      by (unfold place_cell; now rewrite Hsp).
    rewrite Hcell.
    destruct (place_char rank (file, self) c) as [[file1 self1]|];
      [|reflexivity].
    cbn [mbind result_bind]. now apply IH.
Qed.

Lemma split_on_no_sep (sep : ascii) (w : string) :
  (forall c, In c (list_ascii_of_string w) -> c <> sep) ->
  split_on sep w = [w].
Proof.
  induction w as [|x w IH]; intros H; [reflexivity|].
  cbn [split_on]. destruct (Ascii.eqb_spec x sep) as [->|_].
  - exfalso. apply (H sep); [now left | reflexivity].
  - rewrite IH; [reflexivity|]. intros c Hc. apply H. now right.
Qed.

Lemma split_on_append (sep : ascii) (w s : string) :
  (forall c, In c (list_ascii_of_string w) -> c <> sep) ->
  split_on sep (w ++ String sep s) = w :: split_on sep s.
Proof.
  induction w as [|x w IH]; intros H.
  - cbn [append split_on]. now rewrite Ascii.eqb_refl.
  - cbn [append split_on]. destruct (Ascii.eqb_spec x sep) as [->|_].
    + exfalso. apply (H sep); [now left | reflexivity].
    + rewrite IH; [reflexivity|]. intros c Hc. apply H. now right.
Qed.

(** Splitting at the separator undoes joining with it. *)
Lemma split_on_join (sep : ascii) (l : list string) :
  l <> [] ->
  (forall w c, In w l -> In c (list_ascii_of_string w) -> c <> sep) ->
  split_on sep (join (String sep "") l) = l.
Proof.
  induction l as [|w l IH]; intros Hne H; [now destruct Hne|].
  destruct l as [|v l].
  - cbn [join]. apply split_on_no_sep. intros c. apply H. now left.
  - change (join (String sep "") (w :: v :: l))
      with (w ++ String sep (join (String sep "") (v :: l))).
    rewrite split_on_append by (intros c; apply H; now left).
    f_equal. apply IH; [discriminate|].
    intros u c Hu. apply H. now right.
Qed.

Lemma piece_at_letter (ch : ascii) (p : Z) :
  piece_at ch = Some p ->
  isdigit ch = false /\ Ascii.eqb ch " " = false /\
  is_member Piece p = true /\
  getattr Piece (String ch "") = Ok (Member p) /\
  name Piece p = Ok (String ch "").
Proof.
  intros H. destruct ch as [[] [] [] [] [] [] [] []];
    vm_compute in H; try discriminate H; injection H as <-;
    repeat split; reflexivity.
Qed.

Lemma matches_blank (cs : list ascii) (k : Z) (self : Bitboards) :
  cell_piece cs k = None -> matches cs k self -> matches cs (k + 1) self.
Proof.
  intros Hk (Hwf & Hc & Ht). split; [exact Hwf|]. split.
  - intros c bb sq H0 Hbb Hsq. rewrite (Hc c bb sq H0 Hbb Hsq).
    unfold colour_bit. destruct (Z.eq_dec sq k) as [->|Hne].
    + rewrite Hk. now rewrite !andb_false_r.
    + f_equal. destruct (Z.ltb_spec sq k), (Z.ltb_spec sq (k + 1));
        (reflexivity || lia).
  - intros t bb sq H0 Hbb Hsq. rewrite (Ht t bb sq H0 Hbb Hsq).
    unfold type_bit. destruct (Z.eq_dec sq k) as [->|Hne].
    + rewrite Hk. now rewrite !andb_false_r.
    + f_equal. destruct (Z.ltb_spec sq k), (Z.ltb_spec sq (k + 1));
        (reflexivity || lia).
Qed.

Lemma get_at_insert_inv {A} (l : list A) (i j : Z) (x y : A) :
  0 <= i < Z.of_nat (length l) -> 0 <= j ->
  get_at (<[Z.to_nat i := x]> l) j = Ok y ->
  (i = j /\ y = x) \/ (i <> j /\ get_at l j = Ok y).
Proof.
  intros Hi Hj. rewrite get_at_insert by assumption.
  destruct (Z.eqb_spec i j) as [->|Hne].
  - intros [= <-]. now left.
  - intros H. now right.
Qed.

Lemma matches_place (cs : list ascii) (k p : Z) (self : Bitboards) :
  0 <= k -> cell_piece cs k = Some p -> is_member Piece p = true ->
  matches cs k self ->
  exists self', place self p k = Ok self' /\ matches cs (k + 1) self'.
Proof.
  intros Hk0 Hk Hp (Hwf & Hc & Ht).
  destruct (place_ok self p k Hwf Hp Hk0)
    as (old_pt & old_c & Eold_pt & Eold_c & Eplace).
  destruct (piece_type_of_ok p Hp) as [_ Rt].
  destruct (color_of_ok p Hp) as [_ Rc].
  eexists. split; [exact Eplace|].
  pose proof Hwf as [Hlen_pt Hlen_c].
  split; [|split]; cbn [piece_type_bitboards color_bitboards].
  - split; cbn [piece_type_bitboards color_bitboards];
      now rewrite length_insert.
  - intros c bb sq H0 Hbb Hsq.
    assert (Hbit : Z.testbit (Z.shiftl 1 k) sq = (k =? sq))
      by exact (contains_singleton k sq Hk0 Hsq).
    apply get_at_insert_inv in Hbb; [|lia|exact H0].
    unfold colour_bit. destruct Hbb as [[<- ->]|[Hne Hbb]].
    + rewrite Z.lor_spec, Hbit, (Hc _ _ sq (proj1 Rc) Eold_c Hsq).
      unfold colour_bit. destruct (Z.eqb_spec k sq) as [<-|Hks].
      * rewrite Hk, Z.eqb_refl.
        destruct (Z.ltb_spec k (k + 1)); [|lia]. now rewrite orb_true_r.
      * rewrite orb_false_r. f_equal.
        destruct (Z.ltb_spec sq k), (Z.ltb_spec sq (k + 1));
          (reflexivity || lia).
    + rewrite (Hc c bb sq H0 Hbb Hsq). unfold colour_bit.
      destruct (Z.eq_dec sq k) as [->|Hks].
      * rewrite Hk. destruct (Z.eqb_spec (p / 6) c); [contradiction|].
        now rewrite !andb_false_r.
      * f_equal. destruct (Z.ltb_spec sq k), (Z.ltb_spec sq (k + 1));
          (reflexivity || lia).
  - intros t bb sq H0 Hbb Hsq.
    assert (Hbit : Z.testbit (Z.shiftl 1 k) sq = (k =? sq))
      by exact (contains_singleton k sq Hk0 Hsq).
    apply get_at_insert_inv in Hbb; [|lia|exact H0].
    unfold type_bit. destruct Hbb as [[<- ->]|[Hne Hbb]].
    + rewrite Z.lor_spec, Hbit, (Ht _ _ sq (proj1 Rt) Eold_pt Hsq).
      unfold type_bit. destruct (Z.eqb_spec k sq) as [<-|Hks].
      * rewrite Hk, Z.eqb_refl.
        destruct (Z.ltb_spec k (k + 1)); [|lia]. now rewrite orb_true_r.
      * rewrite orb_false_r. f_equal.
        destruct (Z.ltb_spec sq k), (Z.ltb_spec sq (k + 1));
          (reflexivity || lia).
    + rewrite (Ht t bb sq H0 Hbb Hsq). unfold type_bit.
      destruct (Z.eq_dec sq k) as [->|Hks].
      * rewrite Hk. destruct (Z.eqb_spec (p mod 6) t); [contradiction|].
        now rewrite !andb_false_r.
      * f_equal. destruct (Z.ltb_spec sq k), (Z.ltb_spec sq (k + 1));
          (reflexivity || lia).
Qed.

(** Reading a run of cells of one rank. *)
Lemma place_cells_matches (cs : list ascii) (rank : Z) (l : list ascii) :
  is_member Rank rank = true ->
  (forall ch, In ch cs -> board_char ch = true) ->
  forall file self,
    0 <= file -> file + Z.of_nat (length l) <= 8 ->
    (forall j ch, l !! j = Some ch ->
                  cs !! Z.to_nat (rank * 8 + file + Z.of_nat j) = Some ch) ->
    matches cs (rank * 8 + file) self ->
    exists self',
      foldM (place_cell rank) (file, self) l
      = Ok (file + Z.of_nat (length l), self') /\
      matches cs (rank * 8 + file + Z.of_nat (length l)) self'.
Proof.
  intros Hrank Hcs. pose proof (proj1 (is_member_Rank rank) Hrank) as Rrank.
  induction l as [|ch l IH]; intros file self Hfile Hlen Hl Hm.
  - exists self. cbn [length foldM]. rewrite !Z.add_0_r. now split.
  - cbn [length] in Hlen.
    assert (Hch : cs !! Z.to_nat (rank * 8 + file) = Some ch).
    { rewrite <- (Z.add_0_r (rank * 8 + file)). now apply (Hl 0%nat). }
    assert (Hbc : board_char ch = true).
    { apply Hcs. apply list_elem_of_In, list_elem_of_lookup. eauto. }
    assert (Hrest : forall j c, l !! j = Some c ->
              cs !! Z.to_nat (rank * 8 + (file + 1) + Z.of_nat j) = Some c).
    { intros j c Hj. specialize (Hl (S j) c Hj).
      replace (rank * 8 + (file + 1) + Z.of_nat j)
        with (rank * 8 + file + Z.of_nat (S j)) by lia. exact Hl. }
    assert (Hstep : exists self1,
               place_cell rank (file, self) ch = Ok (file + 1, self1) /\
               matches cs (rank * 8 + file + 1) self1).
    { unfold place_cell, board_char in *.
      destruct (Ascii.eqb ch " ") eqn:Hsp.
      - exists self. split; [reflexivity|]. apply matches_blank; [|exact Hm].
        unfold cell_piece. rewrite Hch.
        apply Ascii.eqb_eq in Hsp. now subst ch.
      - cbn [orb] in Hbc.
        destruct (piece_at ch) as [p|] eqn:Hp; [|discriminate].
        destruct (piece_at_letter ch p Hp) as (Hd & _ & Hmem & Hg & _).
        destruct (matches_place cs (rank * 8 + file) p self)
          as (self1 & Hplace & Hm1); try assumption; [lia| |].
        { unfold cell_piece. now rewrite Hch. }
        exists self1. split; [|exact Hm1].
        unfold place_char. rewrite Hd, Hg. cbn [mbind result_bind].
        rewrite square_from_spec by lia. cbn [mbind result_bind].
        unfold squareFrom. now rewrite Hplace. }
    destruct Hstep as (self1 & Hstep & Hm1).
    cbn [foldM]. rewrite Hstep. cbn [mbind result_bind].
    assert (Hfile1 : 0 <= file + 1) by lia.
    assert (Hlen1 : file + 1 + Z.of_nat (length l) <= 8) by lia.
    assert (Hm1' : matches cs (rank * 8 + (file + 1)) self1)
      by now rewrite Z.add_assoc.
    destruct (IH (file + 1) self1 Hfile1 Hlen1 Hrest Hm1')
      as (self' & Hfold & Hm').
    exists self'. rewrite Hfold. cbn [length].
    split; [do 2 f_equal; lia|].
    replace (rank * 8 + file + Z.of_nat (S (length l)))
      with (rank * 8 + (file + 1) + Z.of_nat (length l)) by lia.
    exact Hm'.
Qed.

Lemma chars_substring (n m : nat) (s : string) :
  list_ascii_of_string (substring n m s)
  = take m (drop n (list_ascii_of_string s)).
Proof.
  revert n m. induction s as [|c s IH]; intros n m.
  - destruct n, m; reflexivity.
  - destruct n as [|n].
    + destruct m as [|m]; [reflexivity|]. cbn. now rewrite IH.
    + cbn. apply IH.
Qed.

Lemma chars_of_list (l : list ascii) :
  list_ascii_of_string (string_of_list_ascii l) = l.
Proof. apply list_ascii_of_string_of_list_ascii. Qed.

Lemma board_char_cases (c : ascii) :
  board_char c = true ->
  c = " "%char \/
  (isdecimal c = false /\ placement_char c = true /\ c <> "/"%char).
Proof.
  intros H. destruct c as [[] [] [] [] [] [] [] []];
    vm_compute in H; try discriminate H;
    try (left; reflexivity); right; repeat split; discriminate.
Qed.

Lemma replace_from_chars (old new : string) (s : string) :
  forall skip c,
    In c (list_ascii_of_string (replace_from skip old new s)) ->
    In c (list_ascii_of_string s) \/ In c (list_ascii_of_string new).
Proof.
  induction s as [|x s IH]; intros skip c Hc; [destruct Hc|].
  cbn [replace_from] in Hc. destruct skip as [|k].
  - destruct (starts_with old (String x s)).
    + rewrite chars_append in Hc. apply in_app_or in Hc.
      destruct Hc as [Hc|Hc]; [now right|].
      destruct (IH _ _ Hc) as [H|H]; [left; now right | now right].
    + destruct Hc as [<-|Hc]; [left; now left|].
      destruct (IH _ _ Hc) as [H|H]; [left; now right | now right].
  - destruct (IH _ _ Hc) as [H|H]; [left; now right | now right].
Qed.

Lemma convert_chars (s : string) (c : ascii) :
  In c (list_ascii_of_string (_convert_spaces_to_digit s)) ->
  c <> " "%char /\
  (In c (list_ascii_of_string s) \/ In c (list_ascii_of_string "12345678")).
Proof.
  intros Hc. split.
  - revert Hc. unfold _convert_spaces_to_digit, range_8_down.
    cbn [fold_left]. apply replace_space_1.
  - unfold _convert_spaces_to_digit, range_8_down in Hc.
    cbn [fold_left] in Hc. unfold replace in Hc.
    repeat match type of Hc with
           | In _ (list_ascii_of_string (replace_from _ _ _ _)) =>
               apply replace_from_chars in Hc;
               destruct Hc as [Hc|Hc];
               [|right; vm_compute in Hc; vm_compute; tauto]
           end.
    now left.
Qed.

Lemma convert_expand_eq (s : string) :
  expand (_convert_spaces_to_digit s) = expand s.
Proof.
  unfold _convert_spaces_to_digit, range_8_down.
  cbn [fold_left]. now rewrite !expand_replace by lia.
Qed.

Section Board_string.

(** A board string: 64 cells, each a space or the letter of a piece. *)
Variable board : string.
Let cs := list_ascii_of_string board.
Hypothesis board_length : length cs = 64%nat.
Hypothesis board_cells : forall ch, In ch cs -> board_char ch = true.

Lemma row_chars (i : nat) :
  list_ascii_of_string
    (slice board (Z.shiftl (Z.of_nat i) 3) (Z.shiftl (Z.of_nat i + 1) 3))
  = take 8 (drop (8 * i) cs).
Proof.
  unfold slice. rewrite chars_substring. rewrite !Z.shiftl_mul_pow2 by lia.
  change (2 ^ 3) with 8. f_equal; [lia|]. f_equal. lia.
Qed.

Lemma row_cell (i j : nat) (ch : ascii) :
  take 8 (drop (8 * i) cs) !! j = Some ch ->
  cs !! (8 * i + j)%nat = Some ch /\ board_char ch = true.
Proof.
  intros H. apply lookup_take_Some in H. destruct H as [H _].
  rewrite lookup_drop in H. split; [exact H|].
  apply board_cells. apply list_elem_of_In, list_elem_of_lookup. eauto.
Qed.

Lemma row_In (i : nat) (ch : ascii) :
  In ch (take 8 (drop (8 * i) cs)) -> board_char ch = true.
Proof.
  intros H. apply list_elem_of_In, list_elem_of_lookup in H.
  destruct H as [j Hj]. now apply (row_cell i j).
Qed.

(** The characters of a rank string that [to_fen] writes. *)
Lemma rank_string_chars (i : nat) (c : ascii) :
  In c (list_ascii_of_string (rank_string board (Z.of_nat i))) ->
  placement_char c = true /\ c <> "/"%char.
Proof.
  intros Hc. unfold rank_string in Hc. apply convert_chars in Hc.
  destruct Hc as [Hsp [Hc|Hc]].
  - rewrite row_chars in Hc. apply row_In, board_char_cases in Hc.
    destruct Hc as [->|(_ & Hp & Hs)]; [now destruct Hsp | now split].
  - cbn in Hc.
    repeat (destruct Hc as [<-|Hc]; [split; [reflexivity|discriminate]|]).
    destruct Hc.
Qed.

Lemma rank_string_expand (i : nat) :
  list_ascii_of_string (expand (rank_string board (Z.of_nat i)))
  = take 8 (drop (8 * i) cs).
Proof.
  unfold rank_string. rewrite convert_expand_eq, expand_no_digit.
  - apply row_chars.
  - intros c Hc. rewrite row_chars in Hc.
    apply row_In, board_char_cases in Hc.
    destruct Hc as [->|(Hd & _)]; [reflexivity | exact Hd].
Qed.

(** Reading the rank string written for a rank. *)
Lemma place_rank_matches (i : nat) (self : Bitboards) :
  (i < 8)%nat -> matches cs (Z.of_nat i * 8) self ->
  exists self',
    place_rank self (Z.of_nat i, rank_string board (Z.of_nat i)) = Ok self'
    /\ matches cs (Z.of_nat (S i) * 8) self'.
Proof.
  intros Hi Hm. unfold place_rank.
  rewrite place_chars_cells.
  2:{ intros c Hc. apply rank_string_chars in Hc. destruct Hc as [Hc _].
      unfold placement_char in Hc. now apply andb_true_iff in Hc. }
  rewrite rank_string_expand.
  assert (Hlen : length (take 8 (drop (8 * i) cs)) = 8%nat).
  { rewrite length_take, length_drop, board_length. lia. }
  destruct (place_cells_matches cs (Z.of_nat i) (take 8 (drop (8 * i) cs)))
    with (file := 0) (self := self) as (self' & Hfold & Hm').
  - apply is_member_Rank. lia.
  - exact board_cells.
  - lia.
  - rewrite Hlen. lia.
  - intros j ch Hj. destruct (row_cell i j ch Hj) as [H _].
    replace (Z.to_nat (Z.of_nat i * 8 + 0 + Z.of_nat j))
      with (8 * i + j)%nat by lia. exact H.
  - now rewrite Z.add_0_r.
  - exists self'. rewrite Hfold. cbn [mbind result_bind snd].
    split; [reflexivity|]. rewrite Hlen in Hm'.
    replace (Z.of_nat (S i) * 8) with (Z.of_nat i * 8 + 0 + Z.of_nat 8)
      by lia. exact Hm'.
Qed.

(** Reading the rank strings written for the ranks from [start]. *)
Lemma place_ranks_matches (n start : nat) (self : Bitboards) :
  (start + n <= 8)%nat -> matches cs (Z.of_nat start * 8) self ->
  exists self',
    foldM place_rank self
          (map (fun rank => (rank, rank_string board rank))
               (map Z.of_nat (seq start n)))
    = Ok self' /\
    matches cs (Z.of_nat (start + n) * 8) self'.
Proof.
  revert start self. induction n as [|n IH]; intros start self Hn Hm.
  - exists self. rewrite Nat.add_0_r. now split.
  - cbn [seq map foldM].
    destruct (place_rank_matches start self) as (self1 & Hstep & Hm1);
      [lia | exact Hm |].
    rewrite Hstep. cbn [mbind result_bind].
    destruct (IH (S start) self1) as (self' & Hfold & Hm');
      [lia | exact Hm1 |].
    exists self'. split; [exact Hfold|].
    now replace (start + S n)%nat with (S start + n)%nat by lia.
Qed.

End Board_string.

Lemma combine_map_self {A B} (f : A -> B) (l : list A) :
  combine l (map f l) = map (fun a => (a, f a)) l.
Proof. induction l as [|a l IH]; [reflexivity|]. cbn. now rewrite IH. Qed.

Lemma get_at_repeat (n : nat) (i x : Z) :
  get_at (repeat 0 n) i = Ok x -> x = 0.
Proof.
  unfold get_at. destruct (repeat 0 n !! Z.to_nat i) as [y|] eqn:Hy;
    [|discriminate].
  intros [= <-]. apply list_elem_of_lookup_2, list_elem_of_In in Hy.
  now apply repeat_spec in Hy.
Qed.

Lemma matches_empty (cs : list ascii) : matches cs 0 empty_bitboards.
Proof.
  split; [split; reflexivity|]. split.
  - intros c bb sq _ Hbb Hsq. apply get_at_repeat in Hbb. subst bb.
    rewrite Z.bits_0. unfold colour_bit.
    destruct (Z.ltb_spec sq 0); [lia | reflexivity].
  - intros t bb sq _ Hbb Hsq. apply get_at_repeat in Hbb. subst bb.
    rewrite Z.bits_0. unfold type_bit.
    destruct (Z.ltb_spec sq 0); [lia | reflexivity].
Qed.

(** Reading the piece placement written for a board string gives the
    bitboards of its cells. *)
Lemma place_all_placement (board : string) :
  length (list_ascii_of_string board) = 64%nat ->
  (forall ch, In ch (list_ascii_of_string board) -> board_char ch = true) ->
  exists self,
    place_all (placement_of board) = Ok self /\
    matches (list_ascii_of_string board) 64 self.
Proof.
  intros Hlen Hcells. unfold place_all.
  change (placement_of board)
    with (join "/" (map (rank_string board) (values Rank))).
  rewrite split_on_join.
  - rewrite combine_map_self.
    exact (place_ranks_matches board Hlen Hcells 8 0 empty_bitboards
             (le_n 8) (matches_empty _)).
  - discriminate.
  - intros w c Hw Hc. apply in_map_iff in Hw. destruct Hw as (r & <- & Hr).
    change (values Rank) with (map Z.of_nat (seq 0 8)) in Hr.
    apply in_map_iff in Hr. destruct Hr as (i & <- & _).
    now apply (rank_string_chars board Hlen Hcells i c).
Qed.

Lemma cell_piece_member (cs : list ascii) (sq q : Z) :
  cell_piece cs sq = Some q -> is_member Piece q = true.
Proof.
  unfold cell_piece. destruct (cs !! Z.to_nat sq) as [ch|]; [|discriminate].
  intros H. now apply piece_at_letter in H.
Qed.

(** The pieces on the squares of bitboards that hold the cells. *)
Lemma on_square_matches (cs : list ascii) (self : Bitboards) (p sq : Z) :
  matches cs 64 self -> is_member Piece p = true -> 0 <= sq < 64 ->
  on_square self p sq
  = match cell_piece cs sq with Some q => q =? p | None => false end.
Proof.
  intros (Hwf & Hc & Ht) Hp Hsq. unfold on_square, piece_bitboard.
  destruct (color_of_ok p Hp) as [-> Rc].
  destruct (piece_type_of_ok p Hp) as [-> Rt].
  cbn [mbind result_bind]. destruct Hwf as [Hlt Hlc].
  destruct (get_at_ok (color_bitboards self) (p / 6)) as (cb & Ecb & _);
    [lia|].
  destruct (get_at_ok (piece_type_bitboards self) (p mod 6))
    as (ptb & Eptb & _); [lia|].
  rewrite Ecb. cbn [mbind result_bind]. rewrite Eptb.
  cbn [mbind result_bind]. unfold contains. rewrite Z.land_spec.
  rewrite (Hc _ _ sq (proj1 Rc) Ecb (proj1 Hsq)).
  rewrite (Ht _ _ sq (proj1 Rt) Eptb (proj1 Hsq)).
  unfold colour_bit, type_bit.
  destruct (Z.ltb_spec sq 64); [|lia]. cbn [andb].
  destruct (cell_piece cs sq) as [q|] eqn:Hq; [|reflexivity].
  pose proof (proj1 (is_member_Piece q) (cell_piece_member _ _ _ Hq)) as Rq.
  apply is_member_Piece in Hp.
  destruct (Z.eqb_spec q p) as [->|Hne]; [now rewrite !Z.eqb_refl|].
  destruct (Z.eqb_spec (q / 6) (p / 6)) as [Ed|]; [|reflexivity].
  destruct (Z.eqb_spec (q mod 6) (p mod 6)) as [Em|]; [|reflexivity].
  exfalso. apply Hne.
  rewrite (Z.div_mod q 6), (Z.div_mod p 6) by lia. now rewrite Ed, Em.
Qed.

Lemma lookup_map {A B} (f : A -> B) (l : list A) (i : nat) :
  map f l !! i = option_map f (l !! i).
Proof.
  revert i. induction l as [|a l IH]; intros [|i]; try reflexivity.
  apply IH.
Qed.

Lemma join_singletons (l : list ascii) :
  join "" (map (fun ch => String ch "") l) = string_of_list_ascii l.
Proof.
  induction l as [|a l IH]; [reflexivity|].
  cbn [map]. rewrite join_empty_cons, IH. reflexivity.
Qed.

(** The board string of bitboards that hold the cells is the cells. *)
Lemma str_board_matches (board : string) (self : Bitboards) :
  length (list_ascii_of_string board) = 64%nat ->
  (forall ch, In ch (list_ascii_of_string board) -> board_char ch = true) ->
  matches (list_ascii_of_string board) 64 self ->
  _str_board self = Ok board.
Proof.
  intros Hlen Hcells Hm. pose proof Hm as (Hwf & _).
  set (cs := list_ascii_of_string board) in *.
  unfold _str_board.
  destruct (str_board_loop self Hwf (values Piece) (repeat " " 64))
    as (cells & Hfold & Hclen & Hget).
  { intros p Hp. unfold is_member. now apply existsb_eqb_In. }
  { reflexivity. }
  rewrite Hfold. cbn [mbind result_bind]. f_equal.
  rewrite <- (string_of_list_ascii_of_string board). fold cs.
  rewrite <- join_singletons. f_equal.
  apply list_eq. intros j. rewrite lookup_map.
  destruct (Nat.lt_ge_cases j 64) as [Hj|Hj].
  - rewrite (Hget j " ") by now apply lookup_repeat.
    destruct (cs !! j) as [ch|] eqn:Hch;
      [|apply lookup_ge_None in Hch; lia].
    cbn [option_map]. f_equal.
    change (values Piece) with (range 12).
    destruct (cell_range self (Z.of_nat j) " " 12) as [Hnone Hlast].
    assert (Hsq : 0 <= Z.of_nat j < 64) by lia.
    assert (Hcp : cell_piece cs (Z.of_nat j) = piece_at ch)
      by (unfold cell_piece; now rewrite Nat2Z.id, Hch).
    assert (Hbc : board_char ch = true).
    { apply Hcells. apply list_elem_of_In, list_elem_of_lookup. eauto. }
    destruct (piece_at ch) as [p|] eqn:Hp.
    + destruct (piece_at_letter ch p Hp) as (_ & _ & Hmem & _ & Hname).
      pose proof (proj1 (is_member_Piece p) Hmem) as Rp.
      rewrite (Hlast p).
      * unfold piece_letter. now rewrite Hname.
      * exact Rp.
      * rewrite (on_square_matches cs self p _ Hm Hmem Hsq), Hcp.
        apply Z.eqb_refl.
      * intros q Hq.
        rewrite (on_square_matches cs self q _ Hm) by
          (try apply is_member_Piece; lia).
        rewrite Hcp. apply Z.eqb_neq. lia.
    + rewrite Hnone.
      * unfold board_char in Hbc. rewrite Hp, orb_false_r in Hbc.
        apply Ascii.eqb_eq in Hbc. now subst ch.
      * intros q Hq.
        rewrite (on_square_matches cs self q _ Hm) by
          (try apply is_member_Piece; lia).
        now rewrite Hcp.
  - rewrite (proj2 (lookup_ge_None cells j)) by lia.
    rewrite (proj2 (lookup_ge_None cs j)) by lia.
    reflexivity.
Qed.

Lemma cell_cases (self : Bitboards) (sq : Z) (ps : list Z) (init : string) :
  cell self sq ps init = init \/
  exists p, In p ps /\ cell self sq ps init = piece_letter p.
Proof.
  revert init. induction ps as [|p ps IH]; intros init; [now left|].
  cbn [cell fold_left].
  destruct (IH (if on_square self p sq then piece_letter p else init))
    as [H|(q & Hq & H)].
  - unfold cell in H. rewrite H. destruct (on_square self p sq);
      [right; exists p; split; [now left | reflexivity] | now left].
  - right. exists q. split; [now right | exact H].
Qed.

Lemma piece_letter_char (p : Z) :
  is_member Piece p = true ->
  exists ch, piece_letter p = String ch "" /\ board_char ch = true.
Proof.
  intros Hp. apply is_member_Piece in Hp.
  assert (H : letter_names_piece p = true).
  { apply (forall_range letter_names_piece 12);
      [vm_compute; reflexivity | exact Hp]. }
  unfold letter_names_piece in H.
  destruct (piece_letter p) as [|ch [|x s]]; try discriminate.
  exists ch. split; [reflexivity|]. unfold board_char.
  destruct (piece_at ch); [apply orb_true_r | discriminate].
Qed.

Lemma chars_join_cells (cells : list string) :
  (forall c, In c cells ->
             exists ch, c = String ch "" /\ board_char ch = true) ->
  length (list_ascii_of_string (join "" cells)) = length cells /\
  forall ch, In ch (list_ascii_of_string (join "" cells)) ->
             board_char ch = true.
Proof.
  induction cells as [|c cells IH]; intros H.
  - split; [reflexivity | intros ch []].
  - rewrite join_empty_cons, chars_append.
    destruct (H c (or_introl eq_refl)) as (x & -> & Hx).
    destruct IH as [Hlen Hall]; [intros d Hd; apply H; now right|].
    cbn [list_ascii_of_string app length]. split; [now rewrite Hlen|].
    intros ch [<-|Hch]; [exact Hx | now apply Hall].
Qed.

(** The board string of a board with its six and two bitboards has 64
    cells, each a space or the letter of a piece. *)
Lemma str_board_chars (self : Bitboards) :
  well_formed self ->
  exists board,
    _str_board self = Ok board /\
    length (list_ascii_of_string board) = 64%nat /\
    forall ch, In ch (list_ascii_of_string board) -> board_char ch = true.
Proof.
  intros Hwf. unfold _str_board.
  destruct (str_board_loop self Hwf (values Piece) (repeat " " 64))
    as (cells & Hfold & Hlen & Hget).
  { intros p Hp. unfold is_member. now apply existsb_eqb_In. }
  { reflexivity. }
  rewrite Hfold. cbn [mbind result_bind].
  exists (join "" cells). split; [reflexivity|].
  rewrite <- Hlen. apply chars_join_cells.
  intros c Hc. apply list_elem_of_In, list_elem_of_lookup in Hc.
  destruct Hc as [j Hj].
  assert (Hj64 : (j < 64)%nat)
    by (rewrite <- Hlen; apply lookup_lt_is_Some; eauto).
  rewrite (Hget j " " (lookup_repeat _ _ _ Hj64)) in Hj.
  assert (Hc : c = cell self (Z.of_nat j) (values Piece) " ") by congruence.
  destruct (cell_cases self (Z.of_nat j) (values Piece) " ")
    as [H|(p & Hp & H)]; rewrite Hc, H.
  - now exists " "%char.
  - apply piece_letter_char. unfold is_member. now apply existsb_eqb_In.
Qed.

Lemma spaceless_chars (s : string) :
  (forall c, In c (list_ascii_of_string s) -> isspace c = false) ->
  spaceless s = true.
Proof.
  induction s as [|x s IH]; intros H; [reflexivity|]. cbn [spaceless].
  rewrite (H x) by now left. cbn [negb andb].
  apply IH. intros c Hc. apply H. now right.
Qed.

Lemma chars_join (sep : string) (l : list string) (c : ascii) :
  In c (list_ascii_of_string (join sep l)) ->
  In c (list_ascii_of_string sep) \/
  exists w, In w l /\ In c (list_ascii_of_string w).
Proof.
  induction l as [|w l IH]; [intros []|].
  destruct l as [|v l].
  - cbn [join]. intros H. right. exists w. split; [now left | exact H].
  - change (join sep (w :: v :: l)) with (w ++ sep ++ join sep (v :: l)).
    rewrite !chars_append. intros H.
    apply in_app_or in H. destruct H as [H|H];
      [right; exists w; split; [now left | exact H]|].
    apply in_app_or in H. destruct H as [H|H]; [now left|].
    destruct (IH H) as [Hs|(u & Hu & Hc)]; [now left|].
    right. exists u. split; [now right | exact Hc].
Qed.

(** The piece placement that [to_fen] writes is one field. *)
Lemma placement_word (board : string) :
  length (list_ascii_of_string board) = 64%nat ->
  (forall ch, In ch (list_ascii_of_string board) -> board_char ch = true) ->
  word (placement_of board) = true.
Proof.
  intros Hlen Hcells. unfold word. apply andb_true_iff. split.
  - unfold placement_of. change (values Rank) with [0; 1; 2; 3; 4; 5; 6; 7].
    cbn [map join].
    match goal with |- negb (is_empty (?w ++ _)) = true => destruct w end;
      reflexivity.
  - apply spaceless_chars. intros c Hc.
    change (placement_of board)
      with (join "/" (map (rank_string board) (values Rank))) in Hc.
    apply chars_join in Hc. destruct Hc as [Hc|(w & Hw & Hc)].
    + cbn in Hc. destruct Hc as [<-|[]]. reflexivity.
    + apply in_map_iff in Hw. destruct Hw as (r & <- & Hr).
      change (values Rank) with (map Z.of_nat (seq 0 8)) in Hr.
      apply in_map_iff in Hr. destruct Hr as (i & <- & _).
      apply (rank_string_chars board Hlen Hcells i c) in Hc.
      destruct Hc as [Hc _]. unfold placement_char in Hc.
      apply andb_true_iff in Hc. destruct Hc as [_ Hc].
      now apply negb_true_iff in Hc.
Qed.

(** The fields of a string of six words joined by single spaces. *)
Lemma split_join_six (f1 f2 f3 f4 f5 f6 : string) :
  word f1 = true -> word f2 = true -> word f3 = true ->
  word f4 = true -> word f5 = true -> word f6 = true ->
  split (join " " [f1; f2; f3; f4; f5; f6]) = [f1; f2; f3; f4; f5; f6].
Proof.
  intros F1 F2 F3 F4 F5 F6. cbn [join].
  pose proof (split_six_words f1 f2 f3 f4 f5 f6 "" " " " " " " " " " " ""
                F1 F2 F3 F4 F5 F6 eq_refl eq_refl eq_refl eq_refl eq_refl
                eq_refl eq_refl) as H.
  rewrite (append_nil_r f6) in H. exact H.
Qed.

(** X17.  The round trip of what [to_fen] writes: for a board that
    [__init__] returned, whose side to move and en-passant target are
    members of [Color] and of [Bitboard] (the empty set of squares of the
    field [-] included), the string that [to_fen] returns is accepted by
    [__init__], and [to_fen] of the board read back returns the same string;
    the board read back has the same side to move, castling ability,
    en-passant target and clocks.  A field that names another attribute of
    its class is outside this statement. *)
Theorem to_fen_roundtrip
    (fen : string) (board : Board) (c e : Z) (out : string) :
  Board_init fen = Ok board ->
  side_to_move board = Member c ->
  en_passant_target_square board = Member e ->
  to_fen board = Ok out ->
  exists board',
    Board_init out = Ok board' /\ to_fen board' = Ok out /\
    side_to_move board' = side_to_move board /\
    castling_ability board' = castling_ability board /\
    en_passant_target_square board' = en_passant_target_square board /\
    halfmove_clock board' = halfmove_clock board /\
    fullmove_counter board' = fullmove_counter board.
Proof.
  intros Hinit Hside Hepo Hout.
  pose proof (parsed_well_formed fen board Hinit) as Hwf.
  destruct (str_board_chars board Hwf) as (B & HB & Hlen & Hcells).
  rewrite (to_fen_unfold board B HB) in Hout.
  destruct (Board_init_inv fen board Hinit)
    as (pp & stm & ca & ep & hc & fc & _ & Hfields).
  destruct (init_fields_inv _ _ _ _ _ _ _ Hfields)
    as (_ & Hstm & Hca & Hep & _ & _).
  rewrite Hside in Hstm, Hout. rewrite Hepo in Hep, Hout.
  destruct (side_name stm c Hstm) as [Hname Wstm].
  cbn [object_name] in Hout. rewrite Hname in Hout.
  cbn [mbind result_bind] in Hout.
  destruct (parse_castling_range ca _ Hca) as (v & Hv & Rv).
  rewrite Hv in Hout.
  destruct (castling_text_parse v Rv) as (sca & Hsca & Wca & Pca).
  rewrite Hsca in Hout. cbn [mbind result_bind] in Hout.
  destruct (en_passant_text_parse e (parse_en_passant_member ep e Hep))
    as (sep & Hsep & Wep & Pep).
  rewrite Hsep in Hout. cbn [mbind result_bind] in Hout.
  injection Hout as <-.
  destruct (place_all_placement B Hlen Hcells) as (self' & Hplace & Hm).
  pose proof (str_board_matches B self' Hlen Hcells Hm) as HB'.
  set (board' := {| bitboards := self'; side_to_move := Member c;
                    castling_ability := Member v;
                    en_passant_target_square := Member e;
                    halfmove_clock := halfmove_clock board;
                    fullmove_counter := fullmove_counter board |}).
  exists board'. split; [|split].
  - rewrite (Board_init_fields _ (placement_of B) stm sca sep
               (str (halfmove_clock board)) (str (fullmove_counter board))).
    + unfold init_fields. rewrite Hplace, Hstm, Pca, Pep, !int_str.
      reflexivity.
    + apply split_join_six; try assumption;
        [now apply placement_word | apply str_word | apply str_word].
  - rewrite (to_fen_unfold board' B HB'). unfold board'.
    cbn [side_to_move castling_ability en_passant_target_square
         halfmove_clock fullmove_counter object_name].
    now rewrite Hname, Hsca, Hsep.
  - unfold board'.
    cbn [side_to_move castling_ability en_passant_target_square
         halfmove_clock fullmove_counter]. now rewrite Hv, Hside, Hepo.
Qed.

Lemma to_fen_roundtrip_witness :
  exists board',
    Board_init "4k3/8/8/2Pp4/8/8/8/R3K2R w KQ d6 0 23" = Ok board' /\
    to_fen board' = Ok "4k3/8/8/2Pp4/8/8/8/R3K2R w KQ d6 0 23".
Proof.
  assert (H : exists board,
             Board_init "4k3/8/8/2Pp4/8/8/7/R3K11R w QKK d6 +0 2_3"
             = Ok board /\
             side_to_move board = Member 0 /\
             en_passant_target_square board = Member 524288 /\
             to_fen board = Ok "4k3/8/8/2Pp4/8/8/8/R3K2R w KQ d6 0 23")
    by (eexists; split; [vm_compute; reflexivity |];
        split; [reflexivity |]; split; [reflexivity |];
        vm_compute; reflexivity).
  destruct H as (board & Hinit & Hside & Hep & Hout).
  destruct (to_fen_roundtrip _ board _ _ _ Hinit Hside Hep Hout)
    as (board' & H1 & H2 & _).
  now exists board'.
Defined.
